(** * Freematics telelogger (firmware_v5/telelogger/telelogger.ino)

    A shallow embedding of the telemetry session engine of the sketch:
    the checksum-framed wire protocol ([verifyChecksum], [notifyServer],
    [login]), the remote command dispatcher ([executeCommand],
    [processCommand]), the transmit and serial-input blocks of
    [CTeleLogger::loop], and the vehicle-bus polling ([processOBD],
    [readSpeed]).

    Conventions.
    - A [char] is an [ascii]; a [char*] is the list of bytes the pointer
      points at (the memory from the pointer onwards).  A C string is the
      part of such a buffer before its first NUL ([cstr]).
    - Fixed-width integers are [Z] with the wrap-around written out
      ([uint8], [uint32]).
    - The member and global variables of the sketch are the fields of
      [Logger]; every function of the sketch is a state transformer in the
      monad [M], whose runs end normally ([Ret]) or stop ([Abort]) when the
      device restarts or the C++ has no defined behaviour.
    - What is outside the sketch is a parameter: the constants of
      config.h ([Config]), the collaborators behind the network, the
      vehicle bus and the clock ([Hardware], oracles indexed by a call
      counter, every call recorded in an event trace), and the helper
      functions of the FreematicsONE library ([Library]).  The cache class
      of that library is modelled from its description ([Cache]). *)

From Stdlib Require Import ZArith List Ascii String Bool Lia RelationClasses.
From Stdlib Require Import Sorted.
Import ListNotations.
Open Scope Z_scope.

(** ** Machine integers *)

Definition uint8 (z : Z) : Z := z mod 256.
Definition uint32 (z : Z) : Z := z mod 4294967296.

(** ** C strings *)

Module CString.

Definition NUL : ascii := Ascii.zero.

(** Numeric value of a byte. *)
Definition code (c : ascii) : Z := Z.of_N (N_of_ascii c).

(** A string literal as an array of characters (without terminator). *)
Definition lit (s : string) : list ascii := list_ascii_of_string s.

(** The C string held in a buffer: the bytes before the first NUL. *)
Fixpoint cstr (buf : list ascii) : list ascii :=
  match buf with
  | [] => []
  | c :: rest => if Ascii.eqb c NUL then [] else c :: cstr rest
  end.

(** [strlen]. *)
Definition strlen (buf : list ascii) : nat := List.length (cstr buf).

(** [s[i]]; memory outside the modelled buffer reads as NUL. *)
Definition at_ (buf : list ascii) (i : nat) : ascii := nth i buf NUL.

(** [p + n] for a pointer [p] into a buffer. *)
Definition advance (n : nat) (buf : list ascii) : list ascii := skipn n buf.

(** [*(p + i) = c]. *)
Definition poke (buf : list ascii) (i : nat) (c : ascii) : list ascii :=
  firstn i buf ++ c :: skipn (S i) buf.

(** [strrchr(s, c)] for [c <> NUL]: offset of the last [c] of the C string. *)
Fixpoint strrchr_from (buf : list ascii) (c : ascii) (i : nat)
    (last : option nat) : option nat :=
  match buf with
  | [] => last
  | x :: rest =>
      if Ascii.eqb x NUL then last
      else strrchr_from rest c (S i) (if Ascii.eqb x c then Some i else last)
  end.

Definition strrchr (buf : list ascii) (c : ascii) : option nat :=
  strrchr_from buf c 0%nat None.

(** [strchr(s, c)] for [c <> NUL]: offset of the first [c] of the C string. *)
Fixpoint strchr (buf : list ascii) (c : ascii) : option nat :=
  match buf with
  | [] => None
  | x :: rest =>
      if Ascii.eqb x NUL then None
      else if Ascii.eqb x c then Some 0%nat
      else option_map S (strchr rest c)
  end.

(** Does the C string in [buf] start with the characters [pat]? *)
Fixpoint starts_with (pat buf : list ascii) : bool :=
  match pat with
  | [] => true
  | p :: pat' =>
      match buf with
      | [] => false
      | x :: rest =>
          if Ascii.eqb x NUL then false
          else Ascii.eqb x p && starts_with pat' rest
      end
  end.

(** [strstr(s, pat)]: offset of the first occurrence of [pat] in the C
    string. *)
Fixpoint strstr (buf pat : list ascii) : option nat :=
  if starts_with pat buf then Some 0%nat
  else
    match buf with
    | [] => None
    | x :: rest =>
        if Ascii.eqb x NUL then None else option_map S (strstr rest pat)
    end.

(** [!strncmp(s, pat, strlen(pat))] for a literal [pat]. *)
Definition strncmp_eq (buf pat : list ascii) : bool := starts_with pat buf.

(** [!strcmp(s, pat)] for a literal [pat]. *)
Definition strcmp_eq (buf pat : list ascii) : bool :=
  starts_with pat buf && Ascii.eqb (at_ buf (List.length pat)) NUL.

(** Decimal digits. *)
Definition is_digit (c : ascii) : bool :=
  (48 <=? code c) && (code c <=? 57).

Definition is_space (c : ascii) : bool :=
  (code c =? 32) || ((9 <=? code c) && (code c <=? 13)).

Fixpoint digits_value (buf : list ascii) (acc : Z) : Z :=
  match buf with
  | [] => acc
  | c :: rest =>
      if is_digit c then digits_value rest (10 * acc + (code c - 48)) else acc
  end.

Fixpoint skip_spaces (buf : list ascii) : list ascii :=
  match buf with
  | [] => []
  | c :: rest => if is_space c then skip_spaces rest else buf
  end.

(** The mathematical value read by [atoi]/[atol]: optional white space, an
    optional sign, then decimal digits. *)
Definition parse_int (buf : list ascii) : Z :=
  match skip_spaces buf with
  | [] => 0
  | c :: rest =>
      if Ascii.eqb c "-" then - digits_value rest 0
      else if Ascii.eqb c "+" then digits_value rest 0
      else digits_value (c :: rest) 0
  end.

(** Two's complement reading of a 32-bit pattern ([int], [long]). *)
Definition int32 (z : Z) : Z :=
  let u := uint32 z in if u <? 2147483648 then u else u - 4294967296.

(** [atoi] and [atol] ([int] and [long] are 32 bits wide on the ESP32); a
    value outside the range wraps. *)
Definition atoi (buf : list ascii) : Z := int32 (parse_int buf).
Definition atol (buf : list ascii) : Z := int32 (parse_int buf).

(** [%u] / [%lu]: decimal rendering of a non-negative number. *)
Definition digit_char (d : Z) : ascii := ascii_of_N (Z.to_N (48 + d)).

Fixpoint utoa_fuel (fuel : nat) (n : Z) (acc : list ascii) : list ascii :=
  match fuel with
  | O => acc
  | S fuel' =>
      let acc' := digit_char (n mod 10) :: acc in
      if n / 10 =? 0 then acc' else utoa_fuel fuel' (n / 10) acc'
  end.

Definition utoa (n : Z) : list ascii :=
  utoa_fuel (S (Z.to_nat (Z.log2 n))) n [].

(** [%X]: upper-case hexadecimal rendering. *)
Definition hex_char (d : Z) : ascii :=
  if d <? 10 then ascii_of_N (Z.to_N (48 + d)) else ascii_of_N (Z.to_N (55 + d)).

Fixpoint xtoa_fuel (fuel : nat) (n : Z) (acc : list ascii) : list ascii :=
  match fuel with
  | O => acc
  | S fuel' =>
      let acc' := hex_char (n mod 16) :: acc in
      if n / 16 =? 0 then acc' else xtoa_fuel fuel' (n / 16) acc'
  end.

Definition xtoa (n : Z) : list ascii :=
  xtoa_fuel (S (Z.to_nat (Z.log2 n))) n [].

(** [snprintf(buf, size, ...)]: at most [size - 1] characters are kept. *)
Definition snprintf (size : nat) (text : list ascii) : list ascii :=
  firstn (Nat.pred size) text.

End CString.
Import CString.

(** ** Build configuration and collaborators *)

(** [NET_DEVICE] of config.h. *)
Inductive NetDevice : Type :=
  NET_SERIAL | NET_BLE | NET_WIFI | NET_SIM800 | NET_SIM5360.

(** [STORAGE_TYPE] of config.h. *)
Inductive StorageType : Type := STORAGE_NONE | STORAGE_SD.

(** The constants of config.h and of the FreematicsONE headers, which are
    not part of the sketch. *)
Class Config : Type := {
  MEMS_MODE : bool;
  ENABLE_OBD : bool;
  ENABLE_GPS : bool;
  NET_DEVICE : NetDevice;
  netDeviceName : list ascii;
  STORAGE_TYPE : StorageType;
  WIFI_SSID : list ascii;
  CELL_APN : list ascii;
  SERVER_KEY : option (list ascii);
  DEFAULT_VIN : list ascii;
  RAM_CACHE_SIZE : Z;
  SERVER_SYNC_INTERVAL : Z;
  DATA_SENDING_INTERVAL : Z;
  MAX_CONN_ERRORS_RECONNECT : Z;
  EVENT_LOGIN : Z;
  EVENT_SYNC : Z;
  EVENT_COMMAND : Z;
  EVENT_ACK : Z;
  PID_SPEED : Z;
  PID_RPM : Z;
  PID_ENGINE_LOAD : Z;
  PID_THROTTLE : Z;
  PID_INTAKE_TEMP : Z;
  PID_COOLANT_TEMP : Z;
  PID_BAROMETRIC : Z;
  PID_AMBIENT_TEMP : Z;
  PID_ENGINE_FUEL_RATE : Z;
  PID_TRIP_DISTANCE : Z;
  PID_CSQ : Z
}.

(** Broken-down time as returned by [gmtime]. *)
Record tm : Type := mkTm {
  tm_year : Z; tm_mon : Z; tm_mday : Z; tm_hour : Z; tm_min : Z; tm_sec : Z
}.

(** Results of the calls into the excluded collaborators.  Each oracle is
    indexed by the value of the call counter [tick] at the call. *)
Class Hardware : Type := {
  hw_millis : nat -> Z;
  hw_netBegin : nat -> bool;
  hw_netSetup : nat -> bool;
  hw_netOpen : nat -> bool;
  hw_netSend : nat -> bool;
  hw_netReceive : nat -> option (list ascii);
  hw_getOperatorName : nat -> list ascii;
  hw_getIP : nat -> list ascii;
  hw_getSignal : nat -> Z;
  hw_memsInit : nat -> bool;
  hw_obdInit : nat -> bool;
  hw_gpsInit : nat -> bool;
  hw_gpsDate : nat -> Z;
  hw_gmtime : nat -> tm;
  hw_storeInit : nat -> bool;
  hw_storeBegin : nat -> bool;
  hw_storeSize : nat -> Z;
  hw_readPID : nat -> Z -> option Z;
  hw_isValidPID : nat -> Z -> bool;
  hw_getVIN : nat -> option (list ascii);
  hw_readDTC : nat -> list Z;
  hw_sendCommand : nat -> Z * list ascii
}.

(** Functions of the FreematicsONE library used by the sketch, whose code
    is not part of it.  [hex2uint8] and [hex2uint16] take a [const char*]
    and are functions of the C string it points at; the two encoders are
    the textual forms the cache gives to its header and to a sample. *)
Class Library : Type := {
  hex2uint8 : list ascii -> Z;
  hex2uint16 : list ascii -> Z;
  header_text : Z -> list ascii;
  sample_text : Z -> list Z -> list ascii
}.

(** ** Observable events *)

Inductive Event : Type :=
| EvSerial (text : list ascii)
| EvSerialFloat (num den decimals : Z)
| EvBle (text : list ascii)
| EvDigitalWrite (pin level : Z)
| EvDelay (ms : Z)
| EvNetOpen
| EvNetClose
| EvNetSend (datagram : list ascii)
| EvNetReceive
| EvReadPID (pid : Z)
| EvObdCommand (cmd : list ascii)
| EvSetTime (sec : Z)
| EvStoreEnd
| EvCalibrateMEMS
| EvCall (name : string)
| EvRestart.

(** ** The sample cache *)

(** Modelled from the spec: class [CStorageRAM] of the FreematicsONE
    library is not part of the sketch.  Spec 3 and 4.2: the cache is an
    ordered byte sequence bounded by a capacity; opening it resets the
    buffer and writes a header tagged with the feed identifier; appending
    a sample grows the buffer, or drops the sample when the capacity would
    be exceeded; sealing appends a checksum trailer, the 8-bit sum of all
    prior bytes rendered in hexadecimal after a star; unsealing removes the
    trailer; the sample count tells whether there is anything to send. *)
Record CStorageRAM : Type := mkCache {
  m_cache : list ascii;
  m_samples : Z;
  m_cacheSize : Z
}.

Module Cache.

Definition init (size : Z) : CStorageRAM := mkCache [] 0 size.

Definition fits (c : CStorageRAM) (bytes : list ascii) : bool :=
  Z.of_nat (List.length (m_cache c) + List.length bytes) <=? m_cacheSize c.

Definition header `{Library} (feed : Z) (c : CStorageRAM) : CStorageRAM :=
  mkCache (header_text feed) 0 (m_cacheSize c).

Definition log `{Library} (pid : Z) (values : list Z) (c : CStorageRAM)
    : CStorageRAM :=
  let bytes := sample_text pid values in
  if fits c bytes
  then mkCache (m_cache c ++ bytes) (m_samples c + 1) (m_cacheSize c)
  else c.

Definition dispatch (bytes : list ascii) (c : CStorageRAM) : CStorageRAM :=
  if fits c bytes
  then mkCache (m_cache c ++ bytes) (m_samples c) (m_cacheSize c)
  else c.

Definition checksum (bytes : list ascii) : Z :=
  fold_left (fun sum c => uint8 (sum + code c)) bytes 0.

Definition hex2 (n : Z) : list ascii := [hex_char (n / 16); hex_char (n mod 16)].

Definition tailer (c : CStorageRAM) : CStorageRAM :=
  mkCache (m_cache c ++ "*"%char :: hex2 (checksum (m_cache c)))
          (m_samples c) (m_cacheSize c).

(** Offset of the last occurrence of [c] in a byte sequence. *)
Fixpoint rindex_from (bytes : list ascii) (c : ascii) (i : nat)
    (last : option nat) : option nat :=
  match bytes with
  | [] => last
  | x :: rest =>
      rindex_from rest c (S i) (if Ascii.eqb x c then Some i else last)
  end.

Definition untailer (c : CStorageRAM) : CStorageRAM :=
  match rindex_from (m_cache c) "*" 0%nat None with
  | Some i => mkCache (firstn i (m_cache c)) (m_samples c) (m_cacheSize c)
  | None => c
  end.

Definition samples (c : CStorageRAM) : Z := m_samples c.
Definition buffer (c : CStorageRAM) : list ascii := m_cache c.
Definition length (c : CStorageRAM) : Z := Z.of_nat (List.length (m_cache c)).

End Cache.

(** ** The String of the serial command *)

(** [String serialCommand] (line 797) is an Arduino [String]: a buffer and
    the number of characters in use.  The class is not part of the sketch;
    the model follows the Arduino core, where assigning and appending copy
    characters and a terminator into the buffer and leave its other bytes
    as they are.  [chars] are the characters in use, [slack] the bytes of
    the buffer behind their terminator.  Bytes never written read as NUL
    (see [at_]): the object is a global, and the core clears what it
    allocates. *)
Module WString.

Record t : Type := mk {
  chars : list ascii;
  slack : list ascii
}.

(** [String()]. *)
Definition empty : t := mk [] [].

(** [length()]. *)
Definition length (w : t) : nat := List.length (chars w).

(** [c_str()]: the buffer from its first byte on. *)
Definition c_str (w : t) : list ascii := chars w ++ NUL :: slack w.

(** [operator+=(char c)]: [c] and a terminator are written behind the
    characters in use.  A NUL character is taken to be written like any
    other. *)
Definition concat (w : t) (c : ascii) : t :=
  mk (chars w ++ [c]) (tl (slack w)).

(** [operator=("")]: a terminator is written on the first byte. *)
Definition assign_empty (w : t) : t := mk [] (tl (c_str w)).

End WString.

(** ** State of the logger *)

(** The member variables of [CTeleLogger] and of its base [CTeleClient]
    ([feedid], [txCount], [connErrors], [m_serverName]), the globals of
    the sketch, the function-local [static byte count] of [processOBD],
    the call counter and the event trace.  The counters declared by
    [CTeleClient] are kept unbounded: their C type is not visible in the
    sketch. *)
Record Logger : Type := mkLogger {
  m_state : Z;
  m_ledMode : Z;
  lastCmdToken : Z;
  serialCommand : WString.t;
  lastSpeed : Z;
  lastSpeedTime : Z;
  distance : Z;
  lastSentTime : Z;
  lastSyncTime : Z;
  feedid : Z;
  txCount : Z;
  connErrors : Z;
  m_serverName : list ascii;
  cache : CStorageRAM;
  netbuf : CStorageRAM;
  count : Z;
  tick : nat;
  trace : list Event
}.

Definition set_m_state (v : Z) (s : Logger) : Logger :=
  mkLogger v (m_ledMode s) (lastCmdToken s) (serialCommand s) (lastSpeed s)
    (lastSpeedTime s) (distance s) (lastSentTime s) (lastSyncTime s)
    (feedid s) (txCount s) (connErrors s) (m_serverName s) (cache s)
    (netbuf s) (count s) (tick s) (trace s).
Definition set_m_ledMode (v : Z) (s : Logger) : Logger :=
  mkLogger (m_state s) v (lastCmdToken s) (serialCommand s) (lastSpeed s)
    (lastSpeedTime s) (distance s) (lastSentTime s) (lastSyncTime s)
    (feedid s) (txCount s) (connErrors s) (m_serverName s) (cache s)
    (netbuf s) (count s) (tick s) (trace s).
Definition set_lastCmdToken (v : Z) (s : Logger) : Logger :=
  mkLogger (m_state s) (m_ledMode s) v (serialCommand s) (lastSpeed s)
    (lastSpeedTime s) (distance s) (lastSentTime s) (lastSyncTime s)
    (feedid s) (txCount s) (connErrors s) (m_serverName s) (cache s)
    (netbuf s) (count s) (tick s) (trace s).
Definition set_serialCommand (v : WString.t) (s : Logger) : Logger :=
  mkLogger (m_state s) (m_ledMode s) (lastCmdToken s) v (lastSpeed s)
    (lastSpeedTime s) (distance s) (lastSentTime s) (lastSyncTime s)
    (feedid s) (txCount s) (connErrors s) (m_serverName s) (cache s)
    (netbuf s) (count s) (tick s) (trace s).
Definition set_lastSpeed (v : Z) (s : Logger) : Logger :=
  mkLogger (m_state s) (m_ledMode s) (lastCmdToken s) (serialCommand s) v
    (lastSpeedTime s) (distance s) (lastSentTime s) (lastSyncTime s)
    (feedid s) (txCount s) (connErrors s) (m_serverName s) (cache s)
    (netbuf s) (count s) (tick s) (trace s).
Definition set_lastSpeedTime (v : Z) (s : Logger) : Logger :=
  mkLogger (m_state s) (m_ledMode s) (lastCmdToken s) (serialCommand s)
    (lastSpeed s) v (distance s) (lastSentTime s) (lastSyncTime s)
    (feedid s) (txCount s) (connErrors s) (m_serverName s) (cache s)
    (netbuf s) (count s) (tick s) (trace s).
Definition set_distance (v : Z) (s : Logger) : Logger :=
  mkLogger (m_state s) (m_ledMode s) (lastCmdToken s) (serialCommand s)
    (lastSpeed s) (lastSpeedTime s) v (lastSentTime s) (lastSyncTime s)
    (feedid s) (txCount s) (connErrors s) (m_serverName s) (cache s)
    (netbuf s) (count s) (tick s) (trace s).
Definition set_lastSentTime (v : Z) (s : Logger) : Logger :=
  mkLogger (m_state s) (m_ledMode s) (lastCmdToken s) (serialCommand s)
    (lastSpeed s) (lastSpeedTime s) (distance s) v (lastSyncTime s)
    (feedid s) (txCount s) (connErrors s) (m_serverName s) (cache s)
    (netbuf s) (count s) (tick s) (trace s).
Definition set_lastSyncTime (v : Z) (s : Logger) : Logger :=
  mkLogger (m_state s) (m_ledMode s) (lastCmdToken s) (serialCommand s)
    (lastSpeed s) (lastSpeedTime s) (distance s) (lastSentTime s) v
    (feedid s) (txCount s) (connErrors s) (m_serverName s) (cache s)
    (netbuf s) (count s) (tick s) (trace s).
Definition set_feedid (v : Z) (s : Logger) : Logger :=
  mkLogger (m_state s) (m_ledMode s) (lastCmdToken s) (serialCommand s)
    (lastSpeed s) (lastSpeedTime s) (distance s) (lastSentTime s)
    (lastSyncTime s) v (txCount s) (connErrors s) (m_serverName s) (cache s)
    (netbuf s) (count s) (tick s) (trace s).
Definition set_txCount (v : Z) (s : Logger) : Logger :=
  mkLogger (m_state s) (m_ledMode s) (lastCmdToken s) (serialCommand s)
    (lastSpeed s) (lastSpeedTime s) (distance s) (lastSentTime s)
    (lastSyncTime s) (feedid s) v (connErrors s) (m_serverName s) (cache s)
    (netbuf s) (count s) (tick s) (trace s).
Definition set_connErrors (v : Z) (s : Logger) : Logger :=
  mkLogger (m_state s) (m_ledMode s) (lastCmdToken s) (serialCommand s)
    (lastSpeed s) (lastSpeedTime s) (distance s) (lastSentTime s)
    (lastSyncTime s) (feedid s) (txCount s) v (m_serverName s) (cache s)
    (netbuf s) (count s) (tick s) (trace s).
Definition set_m_serverName (v : list ascii) (s : Logger) : Logger :=
  mkLogger (m_state s) (m_ledMode s) (lastCmdToken s) (serialCommand s)
    (lastSpeed s) (lastSpeedTime s) (distance s) (lastSentTime s)
    (lastSyncTime s) (feedid s) (txCount s) (connErrors s) v (cache s)
    (netbuf s) (count s) (tick s) (trace s).
Definition set_cache (v : CStorageRAM) (s : Logger) : Logger :=
  mkLogger (m_state s) (m_ledMode s) (lastCmdToken s) (serialCommand s)
    (lastSpeed s) (lastSpeedTime s) (distance s) (lastSentTime s)
    (lastSyncTime s) (feedid s) (txCount s) (connErrors s) (m_serverName s)
    v (netbuf s) (count s) (tick s) (trace s).
Definition set_netbuf (v : CStorageRAM) (s : Logger) : Logger :=
  mkLogger (m_state s) (m_ledMode s) (lastCmdToken s) (serialCommand s)
    (lastSpeed s) (lastSpeedTime s) (distance s) (lastSentTime s)
    (lastSyncTime s) (feedid s) (txCount s) (connErrors s) (m_serverName s)
    (cache s) v (count s) (tick s) (trace s).
Definition set_count (v : Z) (s : Logger) : Logger :=
  mkLogger (m_state s) (m_ledMode s) (lastCmdToken s) (serialCommand s)
    (lastSpeed s) (lastSpeedTime s) (distance s) (lastSentTime s)
    (lastSyncTime s) (feedid s) (txCount s) (connErrors s) (m_serverName s)
    (cache s) (netbuf s) v (tick s) (trace s).
Definition set_tick (v : nat) (s : Logger) : Logger :=
  mkLogger (m_state s) (m_ledMode s) (lastCmdToken s) (serialCommand s)
    (lastSpeed s) (lastSpeedTime s) (distance s) (lastSentTime s)
    (lastSyncTime s) (feedid s) (txCount s) (connErrors s) (m_serverName s)
    (cache s) (netbuf s) (count s) v (trace s).
Definition set_trace (v : list Event) (s : Logger) : Logger :=
  mkLogger (m_state s) (m_ledMode s) (lastCmdToken s) (serialCommand s)
    (lastSpeed s) (lastSpeedTime s) (distance s) (lastSentTime s)
    (lastSyncTime s) (feedid s) (txCount s) (connErrors s) (m_serverName s)
    (cache s) (netbuf s) (count s) (tick s) v.

(** ** The monad of the sketch *)

(** Why a run stops before its function returns: [ESP.restart()], an array
    read outside its bounds, or the end of a non-void function reached
    without a return value that the caller then uses. *)
Inductive Stop : Type := Restart | OutOfBounds | NoReturnValue.

Inductive Res (A : Type) : Type :=
| Ret (a : A) (s : Logger)
| Abort (why : Stop) (s : Logger).
Arguments Ret {A} a s.
Arguments Abort {A} why s.

Definition M (A : Type) : Type := Logger -> Res A.

Definition ret {A} (a : A) : M A := fun s => Ret a s.

Definition bind {A B} (m : M A) (k : A -> M B) : M B :=
  fun s => match m s with
           | Ret a s' => k a s'
           | Abort why s' => Abort why s'
           end.

Definition abort {A} (why : Stop) : M A := fun s => Abort why s.
Definition gets {A} (f : Logger -> A) : M A := fun s => Ret (f s) s.
Definition modify (f : Logger -> Logger) : M unit := fun s => Ret tt (f s).
Definition when (b : bool) (m : M unit) : M unit := if b then m else ret tt.

Declare Scope logger_scope.
Delimit Scope logger_scope with logger.
Notation "x <- m ;; k" := (bind m (fun x => k))
  (at level 61, m at next level, right associativity) : logger_scope.
Notation "m ;; k" := (bind m (fun _ => k))
  (at level 61, right associativity) : logger_scope.
Open Scope logger_scope.

(** The final state of a run, however it ended. *)
Definition final {A} (r : Res A) : Logger :=
  match r with Ret _ s => s | Abort _ s => s end.

(** The events a run added to the trace of [s]. *)
Definition emitted {A} (s : Logger) (r : Res A) : list Event :=
  skipn (List.length (trace s)) (trace (final r)).

(** Record an event. *)
Definition emit (e : Event) : M unit :=
  modify (fun s => set_trace (trace s ++ [e]) s).

(** Call a collaborator: record the call, read its oracle at the current
    value of the call counter, advance the counter. *)
Definition call {A} (e : Event) (oracle : nat -> A) : M A :=
  fun s => Ret (oracle (tick s))
               (set_tick (S (tick s)) (set_trace (trace s ++ [e]) s)).

Definition CRLF : list ascii := [ascii_of_nat 13; ascii_of_nat 10].
Definition Serial_print (text : list ascii) : M unit := emit (EvSerial text).
Definition Serial_println (text : list ascii) : M unit :=
  emit (EvSerial (text ++ CRLF)).
Definition blePrint (text : list ascii) : M unit := emit (EvBle text).
Definition digitalWrite (pin level : Z) : M unit :=
  emit (EvDigitalWrite pin level).
Definition delay (ms : Z) : M unit := emit (EvDelay ms).

Definition PIN_LED : Z := 4.
Definition HIGH : Z := 1.
Definition LOW : Z := 0.

(** logger states *)
Definition STATE_STORAGE_READY : Z := 0x1.
Definition STATE_OBD_READY : Z := 0x2.
Definition STATE_GPS_READY : Z := 0x4.
Definition STATE_MEMS_READY : Z := 0x8.
Definition STATE_NET_READY : Z := 0x10.
Definition STATE_CONNECTED : Z := 0x20.
Definition STATE_ALL_GOOD : Z := 0x40.

(** [bool checkState(byte flags) { return (m_state & flags) == flags; }] *)
Definition checkState_in (s : Logger) (flags : Z) : bool :=
  Z.land (m_state s) flags =? flags.
Definition checkState (flags : Z) : M bool :=
  gets (fun s => checkState_in s flags).

(** [void setState(byte flags) { m_state |= flags; }] *)
Definition setState (flags : Z) : M unit :=
  modify (fun s => set_m_state (uint8 (Z.lor (m_state s) flags)) s).

(** [void clearState(byte flags) { m_state &= ~flags; }] *)
Definition clearState (flags : Z) : M unit :=
  modify (fun s => set_m_state (uint8 (Z.land (m_state s) (Z.lnot flags))) s).

(** ** The sketch *)

Section Sketch.

Context {cfg : Config} {hw : Hardware} {lib : Library}.

(** [millis()] is a [uint32_t]. *)
Definition millis : M Z :=
  call (EvCall "millis") (fun n => uint32 (hw_millis n)).
Definition netOpen : M bool := call EvNetOpen hw_netOpen.
Definition netClose : M unit := emit EvNetClose.
Definition netSend (bytes : list ascii) : M bool :=
  call (EvNetSend bytes) hw_netSend.

(** [char *data = netReceive(&len); if (data) data[len] = 0;]: the buffer
    holding the received bytes followed by the terminator. *)
Definition netReceive : M (option (list ascii)) :=
  r <- call EvNetReceive hw_netReceive ;;
  ret (option_map (fun bytes => bytes ++ [NUL]) r).

Definition readPID (pid : Z) : M (option Z) :=
  fun s => call (EvReadPID pid) (fun n => option_map int32 (hw_readPID n pid)) s.

Definition isValidPID (pid : Z) : M bool :=
  fun s => call (EvCall "isValidPID") (fun n => hw_isValidPID n pid) s.

Definition is_net_wifi_or_sim : bool :=
  match NET_DEVICE with
  | NET_WIFI | NET_SIM800 | NET_SIM5360 => true
  | _ => false
  end.

Definition is_net_sim : bool :=
  match NET_DEVICE with
  | NET_SIM800 | NET_SIM5360 => true
  | _ => false
  end.

Definition is_net_ble : bool :=
  match NET_DEVICE with NET_BLE => true | _ => false end.

Definition has_storage : bool :=
  match STORAGE_TYPE with STORAGE_NONE => false | _ => true end.

(** *** verifyChecksum (lines 523-534) *)

(** The buffer is returned next to the result: on success the star is
    overwritten by the terminator. *)
Definition verifyChecksum (data : list ascii) : bool * list ascii :=
  match strrchr data "*" with
  | None => (false, data)
  | Some s =>
      let sum := fold_left (fun sum c => uint8 (sum + code c)) (firstn s data) 0 in
      if hex2uint8 (cstr (advance (S s) data)) =? sum
      then (true, poke data s NUL)
      else (false, data)
  end.

(** *** notifyServer (lines 535-605) *)

(** The part of a successful round trip that is specific to LOGIN
    (lines 583-599). *)
Definition login_reply (data : list ascii) : M unit :=
  match strstr data (lit "TM=") with
  | Some p => emit (EvSetTime (uint32 (atol (advance (p + 3) data))))
  | None => ret tt
  end ;;
  data' <-
    match strstr data (lit "SN=") with
    | Some p =>
        let data' :=
          match strchr (advance p data) "," with
          | Some q => poke data (p + q) NUL
          | None => data
          end in
        modify (set_m_serverName (cstr (advance (p + 3) data'))) ;;
        ret data'
    | None => ret data
    end ;;
  modify (set_feedid (hex2uint16 (cstr data'))).

(** The retry loop of lines 553-603; [attempts] iterations are left. *)
Fixpoint notify_attempts (attempts : nat) (event : Z) : M bool :=
  match attempts with
  | O => ret false
  | S attempts' =>
      nb <- gets netbuf ;;
      sent <- netSend (Cache.buffer nb) ;;
      if negb sent then
        Serial_print (lit ".") ;; notify_attempts attempts' event
      else if is_net_ble then ret true
      else if event =? EVENT_ACK then ret true
      else
        r <- netReceive ;;
        match r with
        | None => Serial_print (lit ".") ;; notify_attempts attempts' event
        | Some data =>
            let (ok, data') := verifyChecksum data in
            if negb ok then
              Serial_print (lit "Checksum mismatch:") ;;
              Serial_print (cstr data') ;;
              notify_attempts attempts' event
            else
              match strstr data' (lit "EV=" ++ utoa event) with
              | None =>
                  Serial_print (lit "Invalid reply") ;;
                  notify_attempts attempts' event
              | Some _ =>
                  when (event =? EVENT_LOGIN) (login_reply data') ;;
                  Serial_print (lit " ") ;;
                  modify (set_connErrors 0) ;;
                  ret true
              end
        end
  end.

(** The request text built in lines 538-549. *)
Definition request (event t : Z) (serverKey payload : option (list ascii))
    : list ascii :=
  lit "EV=" ++ utoa event ++ lit ",TS=" ++ utoa t
  ++ match serverKey with Some k => lit ",SK=" ++ cstr k | None => [] end
  ++ match payload with Some p => "," %char :: cstr p | None => [] end.

(** [event] is a [byte]. *)
Definition notifyServer (event : Z) (serverKey payload : option (list ascii))
    : M bool :=
  let event := uint8 event in
  modify (fun s => set_netbuf (Cache.header (feedid s) (netbuf s)) s) ;;
  t <- millis ;;
  let req := request event t serverKey payload in
  modify (fun s => set_netbuf (Cache.dispatch req (netbuf s)) s) ;;
  modify (fun s => set_netbuf (Cache.tailer (netbuf s)) s) ;;
  notify_attempts 3 event.

(** *** executeCommand (lines 245-287) *)

(** Lines 272-281: the reply from its fifth character on, with line ends
    turned into spaces. *)
Definition fold_line_ends (reply : list ascii) : list ascii :=
  map (fun c => if Ascii.eqb c (ascii_of_nat 13) || Ascii.eqb c (ascii_of_nat 10)
                then " "%char else c)
      (cstr (advance 4 reply)).

Definition executeCommand (cmd : list ascii) : M (list ascii) :=
  Serial_println (cstr cmd) ;;
  if strncmp_eq cmd (lit "LED") && negb (Ascii.eqb (at_ cmd 4) NUL) then
    modify (set_m_ledMode (uint8 (atoi (advance 4 cmd)))) ;;
    led <- gets m_ledMode ;;
    digitalWrite PIN_LED (if led =? 2 then HIGH else LOW) ;;
    ret (lit "OK")
  else if strcmp_eq cmd (lit "REBOOT") then
    when has_storage
      (ready <- checkState STATE_STORAGE_READY ;;
       when ready (emit EvStoreEnd ;; clearState STATE_STORAGE_READY)) ;;
    emit EvRestart ;;
    abort Restart
  else if strcmp_eq cmd (lit "STANDBY") then
    clearState STATE_ALL_GOOD ;;
    ret (lit "OK")
  else if strncmp_eq cmd (lit "OBD") && negb (Ascii.eqb (at_ cmd 4) NUL) then
    let obdcmd := cstr (advance 4 cmd) ++ [ascii_of_nat 13] in
    r <- call (EvObdCommand obdcmd) hw_sendCommand ;;
    let (n, buf) := (r : Z * list ascii) in
    if n >? 0 then
      Serial_println (cstr buf) ;;
      ret (fold_line_ends buf)
    else ret (lit "TIMEOUT")
  else ret [].

(** *** processCommand (lines 288-321) *)

(** The two identical ACK loops of lines 302-308 and 313-319. *)
Fixpoint ack_attempts (attempts : nat) (buf : list ascii) : M unit :=
  match attempts with
  | O => ret tt
  | S attempts' =>
      Serial_println (lit "Sending ACK...") ;;
      ok <- notifyServer EVENT_ACK SERVER_KEY (Some buf) ;;
      if ok then Serial_println (lit "ACK sent")
      else ack_attempts attempts' buf
  end.

(** The result is [Some false] for the two [return false]; after the ACK
    the function ends without a return statement ([None]). *)
Definition processCommand (data : list ascii) : M (option bool) :=
  match strstr data (lit "TK=") with
  | None => ret (Some false)
  | Some p =>
      let token := uint32 (atol (advance (p + 3) data)) in
      match strstr data (lit "CMD=") with
      | None => ret (Some false)
      | Some p =>
          let cmd := advance (p + 4) data in
          last <- gets lastCmdToken ;;
          if token >? last then
            result <- executeCommand cmd ;;
            let buf := snprintf 256 (lit "TK=" ++ utoa token ++ lit ",MSG=" ++ result) in
            ack_attempts 3 buf ;;
            ret None
          else
            let buf := snprintf 64 (lit "TK=" ++ utoa token ++ lit ",DUP=1") in
            ack_attempts 3 buf ;;
            ret None
      end
  end.

(** *** login (lines 461-522) *)

(** Lines 483-487: the trouble codes in hexadecimal, separated by
    semicolons. *)
Definition dtc_text (dtc : list Z) : list ascii :=
  removelast (List.concat (map (fun c => xtoa c ++ [";"%char]) dtc)).

(** Lines 465-492: the vehicle data submitted with the login. *)
Definition login_data : M (list ascii) :=
  if ENABLE_OBD then
    vin <- call (EvCall "getVIN") hw_getVIN ;;
    data <-
      match vin with
      | Some buf =>
          Serial_print (lit "VIN:") ;;
          Serial_println (cstr buf) ;;
          ret (lit "VIN=" ++ cstr buf)
      | None => ret (lit "VIN=" ++ cstr DEFAULT_VIN)
      end ;;
    codes <- call (EvCall "readDTC") hw_readDTC ;;
    let dtc := firstn 6 codes in
    match dtc with
    | [] => ret data
    | _ =>
        Serial_print (lit "DTC:") ;;
        Serial_println (utoa (Z.of_nat (List.length dtc))) ;;
        ret (data ++ lit ",DTC=" ++ dtc_text dtc)
    end
  else ret (lit "VIN=" ++ cstr DEFAULT_VIN).

(** The loop of lines 494-516; [attempts] iterations are left. *)
Fixpoint login_attempts (attempts : nat) (data : list ascii) : M bool :=
  match attempts with
  | O => ret false
  | S attempts' =>
      Serial_print (lit "LOGIN...") ;;
      opened <- netOpen ;;
      if negb opened then
        Serial_println (lit "NO") ;; login_attempts attempts' data
      else
        ok <- notifyServer EVENT_LOGIN SERVER_KEY (Some data) ;;
        if negb ok then
          netClose ;;
          Serial_println (lit "NO") ;;
          login_attempts attempts' data
        else
          Serial_println (lit "OK") ;;
          Serial_print (lit "SERVER:") ;;
          name <- gets m_serverName ;;
          Serial_println name ;;
          Serial_print (lit "FEED ID:") ;;
          fid <- gets feedid ;;
          Serial_println (utoa fid) ;;
          ret true
  end.

(** With [NET_BLE] the body is lines 519-520; with [NET_SERIAL] the
    function has no statement at all and ends without a value. *)
Definition login : M bool :=
  match NET_DEVICE with
  | NET_WIFI | NET_SIM800 | NET_SIM5360 =>
      data <- login_data ;;
      login_attempts 3 data
  | NET_BLE => blePrint [] ;; ret true
  | NET_SERIAL => abort NoReturnValue
  end.

(** *** setup (lines 63-244) *)

(** Lines 110-122. *)
Fixpoint wifi_attempts (attempts : nat) : M unit :=
  match attempts with
  | O => ret tt
  | S attempts' =>
      Serial_print (lit "WIFI(SSID:") ;;
      Serial_print (cstr WIFI_SSID) ;;
      Serial_print (lit ")...") ;;
      begun <- call (EvCall "netBegin") hw_netBegin ;;
      up <- (if begun then call (EvCall "netSetup") hw_netSetup else ret false) ;;
      if up then
        blePrint (lit "WIFI OK") ;;
        Serial_println (lit "OK") ;;
        setState STATE_NET_READY
      else
        Serial_println (lit "NO") ;; wifi_attempts attempts'
  end.

(** [%0<width>u]. *)
Definition utoa_pad (width : nat) (n : Z) : list ascii :=
  let d := utoa n in repeat "0"%char (width - List.length d) ++ d.

(** Lines 218-222; the result is [gdata.date]. *)
Fixpoint gps_wait (polls : nat) (date : Z) : M Z :=
  match polls with
  | O => ret date
  | S polls' =>
      if date =? 0 then
        Serial_print (lit ".") ;;
        emit (EvCall "sleep") ;;
        date' <- call (EvCall "gpsGetData") (fun n => uint32 (hw_gpsDate n)) ;;
        gps_wait polls' date'
      else ret date
  end.

(** Lines 179-243, from the login on. *)
Definition setup_session (csq : Z) : M bool :=
  modify (set_txCount 0) ;;
  modify (set_cache (Cache.init RAM_CACHE_SIZE)) ;;
  modify (set_netbuf (Cache.init 256)) ;;
  ok <- login ;;
  if negb ok then ret false
  else
    setState STATE_CONNECTED ;;
    modify (fun s => set_cache (Cache.header (feedid s) (cache s)) s) ;;
    t <- millis ;;
    modify (set_lastSyncTime t) ;;
    when (is_net_sim && negb (csq =? 0))
      (modify (fun s => set_cache (Cache.log PID_CSQ [csq] (cache s)) s)) ;;
    btm <- call (EvCall "gmtime") hw_gmtime ;;
    let utcValid := tm_year btm >? 100 in
    when utcValid
      (Serial_print (lit "UTC:") ;;
       Serial_println
         (utoa_pad 4 (1900 + tm_year btm) ++ lit "-"
          ++ utoa_pad 2 (tm_mon btm + 1) ++ lit "-"
          ++ utoa_pad 2 (tm_mday btm) ++ lit " "
          ++ utoa_pad 2 (tm_hour btm) ++ lit ":"
          ++ utoa_pad 2 (tm_min btm) ++ lit ":"
          ++ utoa_pad 2 (tm_sec btm))) ;;
    when has_storage
      (gps <- checkState STATE_GPS_READY ;;
       date <-
         (if utcValid then
            ret (uint32 ((1900 + tm_year btm) * 10000
                         + (tm_mon btm + 1) * 100 + tm_mday btm))
          else if gps then
            Serial_print (lit "Waiting GPS time..") ;;
            gdate <- gps_wait 60 0 ;;
            Serial_println [] ;;
            if gdate =? 0 then ret 0
            else
              let year := gdate mod 100 + 2000 in
              let month := (gdate / 100) mod 100 in
              let day := gdate / 10000 in
              ret (uint32 (year * 10000 + month * 100 + day))
          else ret 0) ;;
       ready <- checkState STATE_STORAGE_READY ;;
       when (negb ready)
         (inited <- call (EvCall "store.init") hw_storeInit ;;
          when inited
            (setState STATE_STORAGE_READY ;;
             begun <- call (EvCall "store.begin") hw_storeBegin ;;
             when begun (emit (EvCall "cache.setForward"))))) ;;
    setState STATE_ALL_GOOD ;;
    ret true.

(** Lines 158-177, then the session part. *)
Definition setup_link_up : M bool :=
  mems <- checkState STATE_MEMS_READY ;;
  when mems (emit EvCalibrateMEMS) ;;
  csq <-
    (if is_net_wifi_or_sim then
       Serial_print (lit "IP...") ;;
       ip <- call (EvCall "getIP") hw_getIP ;;
       (if (0 <? Z.of_nat (strlen ip))
        then Serial_println (cstr ip) ;; blePrint (cstr ip)
        else Serial_println (lit "NO")) ;;
       csq <- call (EvCall "getSignal") (fun n => int32 (hw_getSignal n)) ;;
       when (csq >? 0)
         (Serial_print (lit "CSQ...") ;;
          emit (EvSerialFloat csq 10 1) ;;
          Serial_println (lit "dB")) ;;
       ret csq
     else ret 0) ;;
  setup_session csq.

(** Lines 109-156, then the rest. *)
Definition setup_network : M bool :=
  match NET_DEVICE with
  | NET_WIFI =>
      wifi_attempts 3 ;;
      net <- checkState STATE_NET_READY ;;
      if negb net then ret false else setup_link_up
  | NET_SIM800 | NET_SIM5360 =>
      net <- checkState STATE_NET_READY ;;
      begun <-
        (if negb net then
           Serial_print (cstr netDeviceName) ;;
           Serial_print (lit "...") ;;
           begun <- call (EvCall "netBegin") hw_netBegin ;;
           (if begun then
              Serial_println (lit "OK") ;;
              blePrint (lit "NET OK") ;;
              setState STATE_NET_READY
            else Serial_println (lit "NO")) ;;
           ret begun
         else ret true) ;;
      if negb begun then ret false
      else
        Serial_print (lit "CELL(APN:") ;;
        Serial_print (cstr CELL_APN) ;;
        Serial_print (lit ")") ;;
        up <- call (EvCall "netSetup") hw_netSetup ;;
        if up then
          blePrint (lit "CELL OK") ;;
          op <- call (EvCall "getOperatorName") hw_getOperatorName ;;
          (if (0 <? Z.of_nat (strlen op))
           then Serial_println (cstr op) ;; blePrint (cstr op)
           else Serial_println (lit "OK")) ;;
          setup_link_up
        else
          Serial_println (lit "NO") ;; ret false
  | _ => setup_link_up
  end.

Definition setup : M bool :=
  clearState STATE_ALL_GOOD ;;
  modify (set_distance 0) ;;
  when MEMS_MODE
    (mems <- checkState STATE_MEMS_READY ;;
     when (negb mems)
       (Serial_print (lit "MEMS...") ;;
        ok <- call (EvCall "memsInit") hw_memsInit ;;
        if ok then
          setState STATE_MEMS_READY ;;
          Serial_println (lit "OK") ;;
          blePrint (lit "MEMS OK")
        else Serial_println (lit "NO"))) ;;
  obd_ok <-
    (if ENABLE_OBD then
       obd <- checkState STATE_OBD_READY ;;
       if negb obd then
         Serial_print (lit "OBD...") ;;
         ok <- call (EvCall "init") hw_obdInit ;;
         if negb ok then Serial_println (lit "NO") ;; ret false
         else
           Serial_println (lit "OK") ;;
           blePrint (lit "OBD OK") ;;
           setState STATE_OBD_READY ;;
           ret true
       else ret true
     else ret true) ;;
  if negb obd_ok then ret false
  else
    when ENABLE_GPS
      (gps <- checkState STATE_GPS_READY ;;
       when (negb gps)
         (Serial_print (lit "GPS...") ;;
          ok <- call (EvCall "gpsInit") hw_gpsInit ;;
          if ok then
            setState STATE_GPS_READY ;;
            Serial_println (lit "OK") ;;
            blePrint (lit "GPS OK")
          else Serial_println (lit "NO"))) ;;
    setup_network.

(** *** loop: incoming datagram (lines 364-389) *)

(** [t] is the value of [millis()] read in line 364. *)
Definition loop_incoming (t : Z) : M unit :=
  r <- netReceive ;;
  match r with
  | None => ret tt
  | Some data =>
      let (ok, data') := verifyChecksum data in
      if negb ok then
        Serial_print (lit "Checksum mismatch:") ;;
        Serial_print (cstr data')
      else
        match strstr data' (lit "EV=") with
        | None => ret tt
        | Some p =>
            let eventID := atoi (advance (p + 3) data') in
            if eventID =? EVENT_COMMAND then
              _ <- processCommand data' ;; ret tt
            else if eventID =? EVENT_SYNC then
              modify (set_lastSyncTime t)
            else ret tt
        end
  end.

(** *** loop: transmission (lines 391-430) *)

(** [getConnErrors()], an accessor of [CTeleClient]. *)
Definition getConnErrors : M Z := gets connErrors.

Definition loop_transmit (t : Z) : M unit :=
  lastSync <- gets lastSyncTime ;;
  lastSent <- gets lastSentTime ;;
  pending <- gets (fun s => Cache.samples (cache s)) ;;
  if negb (SERVER_SYNC_INTERVAL =? 0)
     && (uint32 (SERVER_SYNC_INTERVAL * 1000) <=? uint32 (t - lastSync)) then
    Serial_println (lit "NO SYNC") ;;
    modify (fun s => set_connErrors (connErrors s + 1) s)
  else if (uint32 DATA_SENDING_INTERVAL <=? uint32 (t - lastSent))
          && (pending >? 0) then
    led <- gets m_ledMode ;;
    when (led =? 0) (digitalWrite PIN_LED HIGH) ;;
    Serial_print (lit "[") ;;
    tx <- gets txCount ;;
    Serial_print (utoa tx) ;;
    Serial_print (lit "] ") ;;
    modify (fun s => set_cache (Cache.tailer (cache s)) s) ;;
    c <- gets cache ;;
    sent <- netSend (Cache.buffer c) ;;
    (if sent then
       modify (set_connErrors 0) ;;
       modify (fun s => set_txCount (txCount s + 1) s) ;;
       buf <-
         (if has_storage then
            size <- call (EvCall "store.size") hw_storeSize ;;
            ret (snprintf 64 (utoa (Cache.length c) ++ lit "B sent "
                              ++ utoa (Z.shiftr size 10) ++ lit " KB saved"))
          else ret (snprintf 64 (utoa (Cache.length c) ++ lit " bytes sent"))) ;;
       blePrint buf ;;
       Serial_println buf ;;
       modify (fun s => set_cache (Cache.header (feedid s) (cache s)) s)
     else
       modify (fun s => set_connErrors (connErrors s + 1) s) ;;
       Serial_println (lit "Unsent") ;;
       blePrint (lit "Unsent") ;;
       modify (fun s => set_cache (Cache.untailer (cache s)) s)) ;;
    led <- gets m_ledMode ;;
    when (led =? 0) (digitalWrite PIN_LED LOW) ;;
    errs <- getConnErrors ;;
    when (MAX_CONN_ERRORS_RECONNECT <=? errs)
      (netClose ;;
       _ <- netOpen ;;
       modify (set_lastSyncTime 0)) ;;
    modify (set_lastSentTime t)
  else ret tt.

(** *** loop: serial input (lines 439-451) *)

Definition CR : ascii := ascii_of_nat 13.
Definition LF : ascii := ascii_of_nat 10.

(** One iteration of the [while] for the character [c] read from the
    port.  [executeCommand] is handed [c_str()], a pointer into the buffer
    of the String: behind the terminator of the command lie the bytes
    that earlier, longer lines left there. *)
Definition serial_char (c : ascii) : M unit :=
  pending <- gets serialCommand ;;
  if Ascii.eqb c CR || Ascii.eqb c LF then
    if (0 <? WString.length pending)%nat then
      result <- executeCommand (WString.c_str pending) ;;
      modify (fun s =>
        set_serialCommand (WString.assign_empty (serialCommand s)) s) ;;
      Serial_println result
    else ret tt
  else if (WString.length pending <? 32)%nat then
    modify (fun s => set_serialCommand (WString.concat (serialCommand s) c) s)
  else ret tt.

(** The [while (Serial.available())] loop run on the characters [input]
    waiting at the port. *)
Fixpoint loop_serial (input : list ascii) : M unit :=
  match input with
  | [] => ret tt
  | c :: rest => serial_char c ;; loop_serial rest
  end.

(** *** readSpeed (lines 702-714) *)

(** [(value + lastSpeed) * (t - lastSpeedTime) / 3600 / 2]: the sum is an
    [int], converted to [uint32_t] for the product with the elapsed time. *)
Definition trip_increment (value last t lastTime : Z) : Z :=
  uint32 (uint32 (int32 (value + last)) * uint32 (t - lastTime)) / 3600 / 2.

Definition readSpeed : M Z :=
  r <- readPID PID_SPEED ;;
  match r with
  | Some value =>
      t <- millis ;;
      modify (fun s =>
        set_distance
          (uint32 (distance s
                   + trip_increment value (lastSpeed s) t (lastSpeedTime s))) s) ;;
      modify (set_lastSpeedTime t) ;;
      modify (set_lastSpeed value) ;;
      ret value
  | None => ret (-1)
  end.

(** *** processOBD (lines 675-701) *)

Definition cache_log (pid value : Z) : M unit :=
  modify (fun s => set_cache (Cache.log pid [value] (cache s)) s).

(** Lines 686-691. *)
Fixpoint poll_pids (pids : list Z) : M unit :=
  match pids with
  | [] => ret tt
  | pid :: rest =>
      r <- readPID pid ;;
      match r with
      | Some value => cache_log (Z.lor 0x100 pid) value
      | None => ret tt
      end ;;
      delay 1 ;;
      poll_pids rest
  end.

Definition pidTier2 : list Z :=
  map uint8 [PID_INTAKE_TEMP; PID_COOLANT_TEMP; PID_BAROMETRIC;
             PID_AMBIENT_TEMP; PID_ENGINE_FUEL_RATE].

(** Lines 692-700; [old] is the static counter before its increment, [new]
    after it. *)
Definition tier2_rotation : M unit :=
  old <- gets count ;;
  modify (set_count (uint8 (old + 1))) ;;
  if old mod 50 =? 0 then
    new <- gets count ;;
    match nth_error pidTier2 (Z.to_nat (new / 50)) with
    | None => abort OutOfBounds
    | Some pid =>
        valid <- isValidPID pid ;;
        (if valid then
           r <- readPID pid ;;
           match r with
           | Some value => cache_log (Z.lor 0x100 pid) value
           | None => ret tt
           end
         else ret tt) ;;
        delay 1
    end
  else ret tt.

Definition processOBD : M unit :=
  speed <- readSpeed ;;
  if speed =? -1 then ret tt
  else
    cache_log (Z.lor 0x100 PID_SPEED) speed ;;
    d <- gets distance ;;
    cache_log PID_TRIP_DISTANCE d ;;
    poll_pids (map uint8 [PID_RPM; PID_ENGINE_LOAD; PID_THROTTLE]) ;;
    tier2_rotation.

End Sketch.

(** ** Specification-side definitions *)

(** The values of the fields when the sketch starts (lines 35-40 and
    794-797), with empty caches. *)
Definition power_on : Logger :=
  mkLogger 0 0 0 WString.empty 0 0 0 0 0 0 0 0 [] (Cache.init 0) (Cache.init 0)
           0 0%nat [].

(** Splitting a text at its last occurrence of [c], searched from the
    right end. *)
Fixpoint split_last (c : ascii) (text : list ascii)
    : option (list ascii * list ascii) :=
  match text with
  | [] => None
  | x :: rest =>
      match split_last c rest with
      | Some (pre, post) => Some (x :: pre, post)
      | None => if Ascii.eqb x c then Some ([], rest) else None
      end
  end.

(** The sum of the bytes of a text. *)
Definition byte_sum (text : list ascii) : Z :=
  fold_right (fun c acc => code c + acc) 0 text.

(** Validation as the wire protocol describes it: split at the last star,
    sum the bytes before it modulo 256, compare with the hexadecimal
    value after it. *)
Definition checksum_valid `{Library} (text : list ascii) : bool :=
  match split_last "*" text with
  | None => false
  | Some (pre, post) => hex2uint8 post =? byte_sum pre mod 256
  end.

(** Network events of a trace. *)
Definition is_send (e : Event) : bool :=
  match e with EvNetSend _ => true | _ => false end.
Definition is_open (e : Event) : bool :=
  match e with EvNetOpen => true | _ => false end.
Definition is_net (e : Event) : bool :=
  match e with
  | EvNetOpen | EvNetClose | EvNetSend _ => true
  | _ => false
  end.
Definition is_pin (e : Event) : bool :=
  match e with EvDigitalWrite _ _ => true | _ => false end.

Definition occurrences (p : Event -> bool) (tr : list Event) : nat :=
  List.length (filter p tr).

(** The datagrams sent in a trace, oldest first. *)
Definition datagrams (tr : list Event) : list (list ascii) :=
  flat_map (fun e => match e with EvNetSend d => [d] | _ => [] end) tr.

(** Does a text contain [pat]? *)
Definition contains (text pat : list ascii) : bool :=
  match strstr text pat with Some _ => true | None => false end.

(** A reply (or its absence) that does not complete a round trip for
    [event]: nothing was received, or the checksum is wrong, or the
    payload lacks the echo of the event. *)
Definition rejected `{Library} (event : Z) (reply : option (list ascii)) : Prop :=
  match reply with
  | None => True
  | Some bytes =>
      fst (verifyChecksum (bytes ++ [NUL])) = false
      \/ contains (snd (verifyChecksum (bytes ++ [NUL]))) (lit "EV=" ++ utoa event)
         = false
  end.

(** The state after an attempt whose reply arrived and was turned down
    with the diagnostics [prints]. *)
Definition after_attempt (s : Logger) (prints : list Event) : Logger :=
  set_trace (trace s ++ EvNetSend (Cache.buffer (netbuf s)) :: EvNetReceive :: prints)
            (set_tick (S (S (tick s))) s).

(** The state in which [notifyServer] enters its retry loop: the request
    is in [netbuf], sealed. *)
Definition request_prepared `{Config} `{Hardware} `{Library} (event : Z)
    (key payload : option (list ascii)) (s : Logger) : Logger :=
  let s1 := set_netbuf (Cache.header (feedid s) (netbuf s)) s in
  let s2 := set_tick (S (tick s1)) (set_trace (trace s1 ++ [EvCall "millis"]) s1) in
  let req := request (uint8 event) (uint32 (hw_millis (tick s1))) key payload in
  let s3 := set_netbuf (Cache.dispatch req (netbuf s2)) s2 in
  set_netbuf (Cache.tailer (netbuf s3)) s3.

(** Runs without network traffic. *)
Definition quiet (s s' : Logger) : Prop :=
  exists tr, trace s' = trace s ++ tr
             /\ occurrences is_send tr = 0%nat /\ occurrences is_open tr = 0%nat.

(** Runs that leave the SessionConnected flag (bit 5 of [m_state]) as it
    was. *)
Definition same_session (s s' : Logger) : Prop :=
  Z.testbit (m_state s') 5 = Z.testbit (m_state s) 5.

(** The state after a successful speed read of [value] at time [t]
    (lines 706-710). *)
Definition speed_read `{Config} (s : Logger) (value t : Z) : Logger :=
  set_lastSpeed value
    (set_lastSpeedTime t
       (set_distance
          (uint32 (distance s
                   + trip_increment value (lastSpeed s) t (lastSpeedTime s)))
          (set_tick (S (S (tick s)))
             (set_trace (trace s ++ [EvReadPID PID_SPEED; EvCall "millis"]) s)))).

(** The trip distance after each of a list of readings (speed, time),
    from the distance [d], the last speed [last] and its time [lastT]. *)
Fixpoint odometer (readings : list (Z * Z)) (d last lastT : Z) : list Z :=
  match readings with
  | [] => []
  | (v, t) :: rest =>
      let d' := uint32 (d + trip_increment v last t lastT) in
      d' :: odometer rest d' v t
  end.

(** Is a list of numbers non-decreasing? *)
Fixpoint nondecreasingb (l : list Z) : bool :=
  match l with
  | [] => true
  | a :: rest =>
      match rest with
      | [] => true
      | b :: _ => (a <=? b) && nondecreasingb rest
      end
  end.

(** The invariant that keeps the 32-bit accumulator from wrapping: what is
    accumulated plus what speeds up to [B] can still add before the clock
    wraps stays below [2^32]. *)
Definition headroom (B : Z) (s : Logger) : Prop :=
  0 <= lastSpeed s <= B
  /\ 0 <= distance s
  /\ 0 <= lastSpeedTime s
  /\ 7200 * distance s + 2 * B * (4294967295 - lastSpeedTime s)
     < 7200 * 4294967296.

(** The parameters read from the vehicle bus in a trace, oldest first. *)
Definition pid_reads (tr : list Event) : list Z :=
  flat_map (fun e => match e with EvReadPID pid => [pid] | _ => [] end) tr.

(** [frame proj m]: whatever the state and however the run of [m] ends,
    the part [proj] of the state is the same after it. *)
Definition frame {A B} (proj : Logger -> B) (m : M A) : Prop :=
  forall s, proj (final (m s)) = proj s.

(** [total R P m]: from every state the run of [m] returns, with a result
    satisfying [P], in a state related by [R] to the initial one. *)
Definition total {A} (R : Logger -> Logger -> Prop) (P : A -> Prop) (m : M A)
    : Prop :=
  forall s, exists a s', m s = Ret a s' /\ P a /\ R s s'.

(** The characters that end a line of the serial channel. *)
Definition is_line_end (c : ascii) : bool := Ascii.eqb c CR || Ascii.eqb c LF.



(** [k] successive runs of [m]. *)
Fixpoint times {A} (k : nat) (m : M A) : M unit :=
  match k with
  | O => ret tt
  | S k' => m ;; times k' m
  end.

(** The trip distance after each of [k] successive calls of [readSpeed]. *)
Fixpoint distances `{Config} `{Hardware} (k : nat) (s : Logger) : list Z :=
  match k with
  | O => []
  | S k' =>
      match readSpeed s with
      | Ret _ s' => distance s' :: distances k' s'
      | Abort _ _ => []
      end
  end.

(** ** A concrete platform *)

Module Demo.

(** Modelled from the spec: [hex2uint8] of the FreematicsONE library is
    not part of the sketch.  Spec 4.4: the value of the (at most two)
    hexadecimal digits after the star. *)
Definition hex_digit (c : ascii) : option Z :=
  let n := code c in
  if (48 <=? n) && (n <=? 57) then Some (n - 48)
  else if (65 <=? n) && (n <=? 70) then Some (n - 55)
  else if (97 <=? n) && (n <=? 102) then Some (n - 87)
  else None.

Definition hex2uint8_ref (text : list ascii) : Z :=
  match text with
  | [] => 0
  | c1 :: rest =>
      match hex_digit c1 with
      | None => 0
      | Some d1 =>
          match rest with
          | [] => d1
          | c2 :: _ =>
              match hex_digit c2 with
              | None => 0
              | Some d2 => 16 * d1 + d2
              end
          end
      end
  end.

(** Modelled from the spec: [hex2uint16] of the FreematicsONE library is
    not part of the sketch.  Spec 4.4: the numeric feed identifier at the
    start of the LOGIN reply, read as hexadecimal digits. *)
Fixpoint hex_value (text : list ascii) (acc : Z) : Z :=
  match text with
  | [] => acc
  | c :: rest =>
      match hex_digit c with
      | Some d => hex_value rest (16 * acc + d)
      | None => acc
      end
  end.

Definition hex2uint16_ref (text : list ascii) : Z :=
  hex_value text 0 mod 65536.

#[local] Instance library : Library := {|
  hex2uint8 := hex2uint8_ref;
  hex2uint16 := hex2uint16_ref;
  header_text := fun feed => xtoa feed ++ lit "#";
  sample_text := fun pid values =>
    xtoa pid ++ lit "="
    ++ List.concat (map (fun v => utoa (uint32 v) ++ lit ";") values)
|}.

#[local] Instance config : Config := {|
  MEMS_MODE := false;
  ENABLE_OBD := true;
  ENABLE_GPS := false;
  NET_DEVICE := NET_WIFI;
  netDeviceName := lit "WIFI";
  STORAGE_TYPE := STORAGE_NONE;
  WIFI_SSID := lit "HOMEWIFI";
  CELL_APN := [];
  SERVER_KEY := Some (lit "TEST_SERVER_KEY");
  DEFAULT_VIN := lit "DEFAULT_VIN";
  RAM_CACHE_SIZE := 4096;
  SERVER_SYNC_INTERVAL := 60;
  DATA_SENDING_INTERVAL := 1000;
  MAX_CONN_ERRORS_RECONNECT := 3;
  EVENT_LOGIN := 1;
  EVENT_SYNC := 3;
  EVENT_COMMAND := 5;
  EVENT_ACK := 6;
  PID_SPEED := 0x0D;
  PID_RPM := 0x0C;
  PID_ENGINE_LOAD := 0x04;
  PID_THROTTLE := 0x11;
  PID_INTAKE_TEMP := 0x0F;
  PID_COOLANT_TEMP := 0x05;
  PID_BAROMETRIC := 0x33;
  PID_AMBIENT_TEMP := 0x46;
  PID_ENGINE_FUEL_RATE := 0x5E;
  PID_TRIP_DISTANCE := 0x30;
  PID_CSQ := 0x81
|}.

(** A platform given by its clock, its transport and its vehicle bus;
    everything else succeeds and is silent. *)
Definition platform (clock : nat -> Z) (send : nat -> bool)
    (receive : nat -> option (list ascii)) (pid : nat -> Z -> option Z)
    : Hardware := {|
  hw_millis := clock;
  hw_netBegin := fun _ => true;
  hw_netSetup := fun _ => true;
  hw_netOpen := fun _ => true;
  hw_netSend := send;
  hw_netReceive := receive;
  hw_getOperatorName := fun _ => [];
  hw_getIP := fun _ => lit "10.0.0.2";
  hw_getSignal := fun _ => 0;
  hw_memsInit := fun _ => true;
  hw_obdInit := fun _ => true;
  hw_gpsInit := fun _ => true;
  hw_gpsDate := fun _ => 0;
  hw_gmtime := fun _ => mkTm 70 0 1 0 0 0;
  hw_storeInit := fun _ => false;
  hw_storeBegin := fun _ => false;
  hw_storeSize := fun _ => 0;
  hw_readPID := pid;
  hw_isValidPID := fun _ _ => true;
  hw_getVIN := fun _ => None;
  hw_readDTC := fun _ => [];
  hw_sendCommand := fun _ => (0, [])
|}.

Definition clock (n : nat) : Z := 1000 * Z.of_nat n.

(** The server never answers; every send succeeds. *)
Definition silent : Hardware :=
  platform clock (fun _ => true) (fun _ => None) (fun _ _ => None).

(** Every reply of the server arrives with a wrong checksum. *)
Definition corrupting : Hardware :=
  platform clock (fun _ => true) (fun _ => Some (lit "1#EV=1,TM=0*00"))
           (fun _ _ => None).

(** Every reply of the server has a good checksum and echoes event 2. *)
Definition misechoing : Hardware :=
  platform clock (fun _ => true) (fun _ => Some (lit "1#EV=2*5E"))
           (fun _ _ => None).

(** No send succeeds. *)
Definition offline : Hardware :=
  platform clock (fun _ => false) (fun _ => None) (fun _ _ => None).

(** The vehicle bus answers every request with 60. *)
Definition cruising : Hardware :=
  platform clock (fun _ => true) (fun _ => None) (fun _ _ => Some 60).

(** The vehicle bus is silent. *)
Definition parked : Hardware := silent.

(** A speed of [2^30 - 1] is read every millisecond. *)
Definition racing : Hardware :=
  platform (fun n => Z.of_nat n) (fun _ => true) (fun _ => None)
           (fun _ _ => Some 1073741823).

(** The inbound datagram [EV=5,TK=5,CMD=LED=2], sealed. *)
Definition led_command : list ascii := lit "1#EV=5,TK=5,CMD=LED=2*1F".

(** The inbound datagram [EV=5,TK=18,CMD=LED] of feed 1F, sealed: a
    command without argument, whose checksum is 2A. *)
Definition bare_led_command : list ascii := lit "1F#EV=5,TK=18,CMD=LED*2A".

(** The server sends this datagram. *)
Definition commanding : Hardware :=
  platform clock (fun _ => true) (fun _ => Some bare_led_command)
           (fun _ _ => None).

(** The server sends the same command datagram again and again. *)
Definition replaying : Hardware :=
  platform clock (fun _ => true) (fun _ => Some led_command) (fun _ _ => None).

(** The state after lines 179-181 of [setup]: both caches initialised. *)
Definition booted : Logger :=
  set_netbuf (Cache.init 256) (set_cache (Cache.init RAM_CACHE_SIZE) power_on).

(** A session with one speed sample waiting in the cache. *)
Definition loaded : Logger :=
  set_cache (Cache.log (Z.lor 0x100 PID_SPEED) [60]
               (Cache.header 1 (Cache.init RAM_CACHE_SIZE)))
            (set_feedid 1 booted).

(** The command datagram as [loop] hands it to [processCommand]: verified,
    with the terminator in place of the star. *)
Definition led_command_buffer : list ascii :=
  lit "1#EV=5,TK=5,CMD=LED=2" ++ [NUL] ++ lit "1F" ++ [NUL].

(** [k] readings of the speed [2^30 - 1], two milliseconds apart from
    time [t] on. *)
Fixpoint racing_readings (k : nat) (t : Z) : list (Z * Z) :=
  match k with
  | O => []
  | S k' => (1073741823, uint32 t) :: racing_readings k' (t + 2)
  end.

(** The number of readings after which the racing platform has
    overflowed the accumulator. *)
Definition many : nat := Z.to_nat 7201.

End Demo.

(** * The rest of the sketch *)

(** The constants of config.h and of the FreematicsONE headers used by
    [standby], [shutDownNet] and [processGPS]. *)
Class ConfigRest : Type := {
  EVENT_LOGOUT : Z;
  MAX_OBD_ERRORS : Z;
  PID_GPS_TIME : Z;
  PID_GPS_DATE : Z;
  PID_GPS_LATITUDE : Z;
  PID_GPS_LONGITUDE : Z;
  PID_GPS_ALTITUDE : Z;
  PID_GPS_SPEED : Z;
  PID_GPS_SAT_COUNT : Z
}.

(** The fields of [GPS_DATA] that the sketch reads. *)
Record GPS_DATA : Type := mkGps {
  gd_date : Z;
  gd_time : Z;
  gd_lat : Z;
  gd_lng : Z;
  gd_alt : Z;
  gd_speed : Z;
  gd_sat : Z
}.

(** [gpsGetData(&gd)] ([None] when it returns false) and the error counter
    [errors] kept by the vehicle-bus base class. *)
Class HardwareRest : Type := {
  hw_gpsGetData : nat -> option GPS_DATA;
  hw_errors : nat -> Z
}.

(** The textual form the cache gives to a coordinate sample. *)
Class LibraryRest : Type := {
  coordinate_text : Z -> Z -> list ascii
}.

(** Modelled from the spec: [CStorageRAM::logCoordinate] is not part of
    the sketch.  Spec 4.2: appending encodes a sample and grows the buffer,
    or drops the sample when the capacity would be exceeded.  The encoding
    of a coordinate is left to [coordinate_text]. *)
Definition Cache_logCoordinate `{LibraryRest} (pid value : Z) (c : CStorageRAM)
    : CStorageRAM :=
  let bytes := coordinate_text pid value in
  if Cache.fits c bytes
  then mkCache (m_cache c ++ bytes) (m_samples c + 1) (m_cacheSize c)
  else c.

(** The function-local statics of [processGPS] (lines 730-731). *)
Record GpsStatics : Type := mkGpsStatics {
  lastUTC : Z;
  lastGPSDay : Z
}.

Definition uint16 (z : Z) : Z := z mod 65536.

Section SketchRest.

Context {cfg : Config} {hw : Hardware} {lib : Library}.
Context {cfg' : ConfigRest} {hw' : HardwareRest} {lib' : LibraryRest}.

(** *** shutDownNet (lines 606-613) *)

Definition shutDownNet : M unit :=
  Serial_print (cstr netDeviceName) ;;
  netClose ;;
  emit (EvCall "netEnd") ;;
  clearState STATE_NET_READY ;;
  Serial_println (lit " OFF").

(** *** standby (lines 614-643): the teardown, up to the wait for motion *)

(** Lines 616-621. *)
Definition standby_network : M unit :=
  net <- checkState STATE_NET_READY ;;
  when net
    (conn <- checkState STATE_CONNECTED ;;
     when conn (_ <- notifyServer EVENT_LOGOUT SERVER_KEY None ;; ret tt) ;;
     shutDownNet).

(** Lines 622-639.  [ENABLE_GPS] is tested with [#if] here and with
    [#ifdef] in [setup]; [errors] is read from the vehicle-bus base
    class. *)
Definition standby_devices : M unit :=
  when has_storage
    (ready <- checkState STATE_STORAGE_READY ;;
     when ready
       (emit (EvCall "cache.uninit") ;;
        emit EvStoreEnd ;;
        clearState STATE_STORAGE_READY)) ;;
  when ENABLE_GPS
    (gps <- checkState STATE_GPS_READY ;;
     when gps
       (Serial_println (lit "GPS OFF") ;;
        _ <- call (EvCall "gpsInit") hw_gpsInit ;;
        ret tt)) ;;
  when ENABLE_OBD
    (errors <- call (EvCall "errors") hw_errors ;;
     when (errors >? MAX_OBD_ERRORS) (modify (set_feedid 0))).

Definition standby_teardown : M unit :=
  standby_network ;;
  standby_devices ;;
  clearState (Z.lor STATE_OBD_READY
                (Z.lor STATE_GPS_READY (Z.lor STATE_NET_READY STATE_CONNECTED))) ;;
  Serial_println (lit "Standby") ;;
  blePrint (lit "Standby").

(** *** processGPS (lines 728-754) *)

Definition cache_logCoordinate (pid value : Z) : M unit :=
  modify (fun s => set_cache (Cache_logCoordinate pid value (cache s)) s).

(** The statics are passed in and returned. *)
Definition processGPS (st : GpsStatics) : M GpsStatics :=
  r <- call (EvCall "gpsGetData") hw_gpsGetData ;;
  match r with
  | None => ret st
  | Some gd =>
      if negb (gd_date gd =? 0) && negb (lastUTC st =? uint16 (gd_time gd)) then
        let day := uint8 (gd_date gd / 10000) in
        cache_log PID_GPS_TIME (gd_time gd) ;;
        st1 <-
          (if negb (lastGPSDay st =? day) then
             cache_log PID_GPS_DATE (gd_date gd) ;;
             ret (mkGpsStatics (lastUTC st) day)
           else ret st) ;;
        cache_logCoordinate PID_GPS_LATITUDE (gd_lat gd) ;;
        cache_logCoordinate PID_GPS_LONGITUDE (gd_lng gd) ;;
        cache_log PID_GPS_ALTITUDE (gd_alt gd) ;;
        cache_log PID_GPS_SPEED (gd_speed gd) ;;
        cache_log PID_GPS_SAT_COUNT (gd_sat gd) ;;
        let buf := lit "UTC:" ++ utoa_pad 8 (gd_time gd)
                   ++ lit " SAT:" ++ utoa (gd_sat gd) in
        Serial_println buf ;;
        blePrint buf ;;
        ret (mkGpsStatics (uint16 (gd_time gd)) (lastGPSDay st1))
      else ret st
  end.

End SketchRest.

(** ** Judgements about runs *)

(** [always R m]: however the run of [m] ends, its final state is related
    by [R] to the initial one. *)
Definition always {A} (R : Logger -> Logger -> Prop) (m : M A) : Prop :=
  forall s, R s (final (m s)).

(** [returns P m]: when the run of [m] returns, its result satisfies
    [P]. *)
Definition returns {A} (P : A -> Prop) (m : M A) : Prop :=
  forall s, match m s with Ret a _ => P a | Abort _ _ => True end.

(** The flags of [s'] are among those of [s]. *)
Definition flags_shrink (s s' : Logger) : Prop :=
  forall n, Z.testbit (m_state s') n = true -> Z.testbit (m_state s) n = true.

(** The trace of [s'] extends that of [s] by events that all satisfy
    [P]. *)
Definition extends_by (P : Event -> Prop) (s s' : Logger) : Prop :=
  exists tr, trace s' = trace s ++ tr /\ Forall P tr.

(** The state in which the device restarts on REBOOT: the command echoed,
    the storage closed and its flag cleared if it was ready. *)
Definition rebooted `{Config} (s : Logger) : Logger :=
  if has_storage && checkState_in s STATE_STORAGE_READY
  then set_trace (trace s ++ [EvSerial (lit "REBOOT" ++ CRLF); EvStoreEnd; EvRestart])
         (set_m_state (uint8 (Z.land (m_state s) (Z.lnot STATE_STORAGE_READY))) s)
  else set_trace (trace s ++ [EvSerial (lit "REBOOT" ++ CRLF); EvRestart]) s.

(** The part of the state that lies outside a round trip with the server:
    everything but the request buffer, the feed identifier, the server
    name, the error counter, the call counter and the trace. *)
Definition outside_round_trip (s : Logger) :=
  (m_state s, m_ledMode s, lastCmdToken s, serialCommand s, lastSpeed s,
   lastSpeedTime s, distance s, lastSentTime s, lastSyncTime s, txCount s,
   cache s, count s).

(** Events that leave the link as it is. *)
Definition keeps_link (e : Event) : Prop := e <> EvNetOpen /\ e <> EvNetClose.

(** Events that are neither traffic nor a change of the link. *)
Definition off_line (e : Event) : Prop := is_net e = false /\ e <> EvNetReceive.

(** [outcome proj Q m]: when the run of [m] returns, [Q] relates the part
    [proj] of the initial state, the result and the final state. *)
Definition outcome {A B} (proj : Logger -> B) (Q : B -> A -> Logger -> Prop)
    (m : M A) : Prop :=
  forall s, match m s with Ret a s' => Q (proj s) a s' | Abort _ _ => True end.

(** The flags SessionConnected (bit 5) and AllSystemsGo (bit 6). *)
Definition session_bits (s : Logger) : bool * bool :=
  (Z.testbit (m_state s) 5, Z.testbit (m_state s) 6).

(** What [setup] leaves behind: both flags set on success; on failure
    the flags as they were. *)
Definition setup_result (before : bool * bool) (ok : bool) (s' : Logger) : Prop :=
  if ok then session_bits s' = (true, true) else session_bits s' = before.

(** Events of a run that does not reach the network. *)
Definition before_network (e : Event) : Prop :=
  off_line e /\ e <> EvCall "netBegin" /\ e <> EvCall "netSetup".

(** What the steps after a successful login leave behind: success, with
    AllSystemsGo set and SessionConnected as it was when they began. *)
Definition established (before : bool * bool) (ok : bool) (s' : Logger) : Prop :=
  ok = true /\ session_bits s' = (fst before, true).

(** Runs that stay off the network and leave the vehicle-bus flag as it
    was. *)
Definition before_link (s s' : Logger) : Prop :=
  extends_by before_network s s'
  /\ checkState_in s' STATE_OBD_READY = checkState_in s STATE_OBD_READY.

(** The two tests of the transmission step of [loop] (lines 391 and 394). *)
Definition sync_overdue `{Config} (t : Z) (s : Logger) : bool :=
  negb (SERVER_SYNC_INTERVAL =? 0)
  && (uint32 (SERVER_SYNC_INTERVAL * 1000) <=? uint32 (t - lastSyncTime s)).

Definition send_due `{Config} (t : Z) (s : Logger) : bool :=
  (uint32 DATA_SENDING_INTERVAL <=? uint32 (t - lastSentTime s))
  && (Cache.samples (cache s) >? 0).

(** The transmission steps of successive iterations of [loop], run at the
    times [ts]. *)
Fixpoint transmit_rounds `{Config} `{Hardware} `{Library} (ts : list Z) : M unit :=
  match ts with
  | [] => ret tt
  | t :: rest => loop_transmit t ;; transmit_rounds rest
  end.

(** What the handling of an incoming datagram leaves alone. *)
Definition outside_incoming (s : Logger) :=
  (lastSpeed s, lastSpeedTime s, distance s, lastSentTime s, txCount s,
   cache s, count s, serialCommand s).

(** Runs that set no flag and, of the eight flags of the state byte,
    clear those of [mask] only. *)
Definition only_clears (mask : Z) (s s' : Logger) : Prop :=
  forall n,
    (n < 8 -> Z.testbit mask n = false ->
     Z.testbit (m_state s') n = Z.testbit (m_state s) n)
    /\ (Z.testbit (m_state s') n = true -> Z.testbit (m_state s) n = true).

(** The flags that [standby] may clear: all but MEMS_READY and ALL_GOOD. *)
Definition standby_flags : Z :=
  Z.lor STATE_STORAGE_READY
    (Z.lor STATE_OBD_READY
       (Z.lor STATE_GPS_READY (Z.lor STATE_NET_READY STATE_CONNECTED))).

(** Runs that set no flag, clear flags of [mask] only and stay off the
    network. *)
Definition winds_down (mask : Z) (s s' : Logger) : Prop :=
  only_clears mask s s' /\ extends_by (fun e => is_net e = false) s s'.

(** The state after a call of [gpsGetData] that leads to nothing. *)
Definition gps_polled (s : Logger) : Logger :=
  set_tick (S (tick s)) (set_trace (trace s ++ [EvCall "gpsGetData"]) s).

(** ** A concrete platform for the rest of the sketch *)

Module DemoRest.

#[local] Instance config : ConfigRest := {|
  EVENT_LOGOUT := 2;
  MAX_OBD_ERRORS := 3;
  PID_GPS_TIME := 0x10;
  PID_GPS_DATE := 0x11;
  PID_GPS_LATITUDE := 0xA;
  PID_GPS_LONGITUDE := 0xB;
  PID_GPS_ALTITUDE := 0xC;
  PID_GPS_SPEED := 0xD;
  PID_GPS_SAT_COUNT := 0xF
|}.

#[local] Instance library : LibraryRest := {|
  coordinate_text := fun pid value =>
    xtoa pid ++ lit "=" ++ utoa (uint32 value) ++ lit ";"
|}.

(** A fix of 2 November 2026, 10:20:30. *)
Definition gps_fix : GPS_DATA := mkGps 21126 10203000 48856600 2352200 35 0 9.

(** The receiver reports the same fix at every call. *)
Definition tracking : HardwareRest := {|
  hw_gpsGetData := fun _ => Some gps_fix;
  hw_errors := fun _ => 0
|}.

(** The vehicle bus cannot be initialised; the server never answers. *)
Definition deaf_bus : Hardware := {|
  hw_millis := Demo.clock;
  hw_netBegin := fun _ => true;
  hw_netSetup := fun _ => true;
  hw_netOpen := fun _ => true;
  hw_netSend := fun _ => true;
  hw_netReceive := fun _ => None;
  hw_getOperatorName := fun _ => [];
  hw_getIP := fun _ => lit "10.0.0.2";
  hw_getSignal := fun _ => 0;
  hw_memsInit := fun _ => true;
  hw_obdInit := fun _ => false;
  hw_gpsInit := fun _ => true;
  hw_gpsDate := fun _ => 0;
  hw_gmtime := fun _ => mkTm 70 0 1 0 0 0;
  hw_storeInit := fun _ => false;
  hw_storeBegin := fun _ => false;
  hw_storeSize := fun _ => 0;
  hw_readPID := fun _ _ => None;
  hw_isValidPID := fun _ _ => true;
  hw_getVIN := fun _ => None;
  hw_readDTC := fun _ => [];
  hw_sendCommand := fun _ => (0, [])
|}.

(** The reply to a login, sealed: feed 1, event 1 echoed. *)
Definition login_answer : list ascii := lit "1#EV=1,TM=0*97".

(** The server answers every request with the login reply. *)
Definition answering : Hardware :=
  Demo.platform Demo.clock (fun _ => true) (fun _ => Some login_answer)
                (fun _ _ => None).

(** The command datagram [EV=5,TK=5,CMD=REBOOT] as [loop] hands it to
    [processCommand]. *)
Definition reboot_command_buffer : list ascii :=
  lit "1#EV=5,TK=5,CMD=REBOOT" ++ [NUL] ++ lit "00" ++ [NUL].

(** A state in which the rotation counter stands at 1. *)
Definition rolling : Logger := set_count 1 Demo.booted.

End DemoRest.

(** * Properties *)

(** ** C strings *)

Lemma star_not_NUL : "*"%char <> NUL.
Proof. discriminate. Qed.


Lemma cstr_no_NUL (buf : list ascii) : ~ In NUL (cstr buf).
Proof.
  induction buf as [|c rest IH]; simpl; [tauto|].
  destruct (Ascii.eqb_spec c NUL) as [->|Hc]; simpl; [tauto|].
  intros [H|H]; [now apply Hc | now apply IH].
Qed.

(** A buffer whose C string is [pre ++ c :: post] starts with [pre], and
    the C string after the [c] is [post]. *)
Lemma cstr_split (buf pre post : list ascii) (c : ascii) :
  cstr buf = pre ++ c :: post ->
  firstn (List.length pre) buf = pre
  /\ nth_error buf (List.length pre) = Some c
  /\ cstr (skipn (S (List.length pre)) buf) = post.
Proof.
  revert buf; induction pre as [|p pre IH]; intros buf H.
  - destruct buf as [|x rest]; simpl in H; [discriminate|].
    destruct (Ascii.eqb x NUL); [discriminate|].
    injection H as -> Hpost. simpl. auto.
  - destruct buf as [|x rest]; simpl in H; [discriminate|].
    destruct (Ascii.eqb x NUL); [discriminate|].
    injection H as -> Hrest.
    destruct (IH rest Hrest) as (H1 & H2 & H3).
    simpl. rewrite H1. auto.
Qed.

Lemma split_last_None (c : ascii) (text : list ascii) :
  split_last c text = None <-> ~ In c text.
Proof.
  induction text as [|x rest IH]; simpl.
  - tauto.
  - destruct (split_last c rest) as [[pre post]|].
    + split; [discriminate|]. intros H. exfalso.
      assert (Hr : ~ In c rest) by tauto.
      apply IH in Hr. discriminate.
    + destruct (Ascii.eqb_spec x c) as [->|Hx].
      * split; [discriminate|]. intros H. exfalso. apply H. now left.
      * split; [|reflexivity]. intros _ [H|H]; [congruence|].
        now apply (proj1 IH).
Qed.

Lemma split_last_sound (c : ascii) (text pre post : list ascii) :
  split_last c text = Some (pre, post) ->
  text = pre ++ c :: post /\ ~ In c post.
Proof.
  revert pre; induction text as [|x rest IH]; intros pre; simpl.
  - discriminate.
  - destruct (split_last c rest) as [[pre' post']|] eqn:E.
    + intros H; injection H as <- <-.
      destruct (IH pre' eq_refl) as [-> Hn]. auto.
    + destruct (Ascii.eqb_spec x c) as [->|Hx]; [|discriminate].
      intros H; injection H as <- <-.
      split; [reflexivity|]. now apply split_last_None.
Qed.

Lemma split_last_app (c : ascii) (pre post : list ascii) :
  ~ In c post -> split_last c (pre ++ c :: post) = Some (pre, post).
Proof.
  intros Hn. induction pre as [|p pre IH]; simpl.
  - rewrite (proj2 (split_last_None c post) Hn), Ascii.eqb_refl. reflexivity.
  - now rewrite IH.
Qed.

(** [strrchr] scans from the left what [split_last] finds from the
    right. *)
Lemma strrchr_from_split (buf : list ascii) (c : ascii) (i : nat)
    (last : option nat) :
  c <> NUL ->
  strrchr_from buf c i last =
  match split_last c (cstr buf) with
  | Some (pre, _) => Some (i + List.length pre)%nat
  | None => last
  end.
Proof.
  intros Hc. revert i last; induction buf as [|x rest IH]; intros i last; simpl.
  - reflexivity.
  - destruct (Ascii.eqb_spec x NUL) as [->|Hx]; simpl; [reflexivity|].
    rewrite IH.
    destruct (split_last c (cstr rest)) as [[pre post]|]; simpl.
    + f_equal. lia.
    + destruct (Ascii.eqb x c); simpl; [f_equal; lia | reflexivity].
Qed.

Lemma strrchr_split (buf : list ascii) (c : ascii) :
  c <> NUL ->
  strrchr buf c = option_map (fun p => List.length (fst p)) (split_last c (cstr buf)).
Proof.
  intros Hc. unfold strrchr. rewrite strrchr_from_split by assumption.
  now destruct (split_last c (cstr buf)) as [[pre post]|].
Qed.

(** The running 8-bit sum is the sum of the bytes modulo 256. *)
Lemma checksum_fold (text : list ascii) (acc : Z) :
  fold_left (fun sum c => uint8 (sum + code c)) text (uint8 acc)
  = uint8 (acc + byte_sum text).
Proof.
  revert acc; induction text as [|c rest IH]; intros acc; simpl.
  - now rewrite Z.add_0_r.
  - replace (uint8 (uint8 acc + code c)) with (uint8 (acc + code c))
      by (unfold uint8; now rewrite Zplus_mod_idemp_l).
    rewrite IH. f_equal. lia.
Qed.

Lemma checksum_sum (text : list ascii) :
  fold_left (fun sum c => uint8 (sum + code c)) text 0 = byte_sum text mod 256.
Proof. exact (checksum_fold text 0). Qed.

Lemma cstr_cut (pre rest : list ascii) :
  ~ In NUL pre -> cstr (pre ++ NUL :: rest) = pre.
Proof.
  induction pre as [|p pre IH]; simpl; intros Hn.
  - reflexivity.
  - destruct (Ascii.eqb_spec p NUL) as [->|Hp]; [tauto|].
    rewrite IH; [reflexivity | tauto].
Qed.


Lemma in_app_l_not {A} (x : A) (l1 l2 : list A) : ~ In x (l1 ++ l2) -> ~ In x l1.
Proof. intros H Hin. apply H, in_or_app. now left. Qed.

(** ** The monad *)

Ltac run :=
  unfold Serial_print, Serial_println, blePrint, digitalWrite, delay,
    checkState, setState, clearState;
  unfold emit, when; unfold bind, ret, gets, modify, call, abort; simpl.

Lemma emitted_app {A} (s s' : Logger) (a : A) (tr : list Event) :
  trace s' = trace s ++ tr -> emitted s (Ret a s') = tr.
Proof.
  intros H. unfold emitted. simpl. rewrite H.
  rewrite skipn_app, skipn_all, Nat.sub_diag. reflexivity.
Qed.

(** ** Checksum validation *)

Section Checksum.

Context {cfg : Config} {hw : Hardware} {lib : Library}.

(** [verifyChecksum] accepts exactly the texts that the description of the
    wire protocol accepts. *)
Lemma verifyChecksum_valid (data : list ascii) :
  fst (verifyChecksum data) = checksum_valid (cstr data).
Proof.
  unfold verifyChecksum, checksum_valid.
  rewrite strrchr_split by exact star_not_NUL.
  destruct (split_last "*" (cstr data)) as [[pre post]|] eqn:E;
    cbn [option_map fst]; [|reflexivity].
  apply split_last_sound in E. destruct E as [E _].
  apply cstr_split in E. destruct E as (Hpre & _ & Hpost).
  unfold advance. rewrite Hpre, Hpost, checksum_sum.
  now destruct (hex2uint8 post =? byte_sum pre mod 256).
Qed.


(** The two results of [verifyChecksum]: the buffer with its last star
    overwritten, or the buffer as it was. *)
Lemma verifyChecksum_cases (data : list ascii) :
  match verifyChecksum data with
  | (true, data') =>
      exists pre post,
        cstr data = pre ++ "*"%char :: post
        /\ ~ In "*"%char post
        /\ data' = poke data (List.length pre) NUL
        /\ cstr data' = pre
        /\ List.length data' = List.length data
        /\ data' <> data
  | (false, data') => data' = data
  end.
Proof.
  unfold verifyChecksum.
  rewrite strrchr_split by exact star_not_NUL.
  destruct (split_last "*" (cstr data)) as [[pre post]|] eqn:E;
    cbn [option_map fst]; [|reflexivity].
  destruct (_ =? _); [|reflexivity].
  apply split_last_sound in E. destruct E as [E Hpost].
  exists pre, post.
  assert (Hnul : ~ In NUL pre).
  { apply in_app_l_not with (l2 := "*"%char :: post). rewrite <- E.
    apply cstr_no_NUL. }
  destruct (cstr_split _ _ _ _ E) as (Hpre & Hnth & _).
  repeat split; auto.
  - unfold poke. rewrite Hpre. now apply cstr_cut.
  - unfold poke. rewrite length_app. cbn [List.length].
    rewrite length_firstn, length_skipn.
    assert (List.length pre < List.length data)%nat
      by (apply nth_error_Some; congruence).
    lia.
  - intros Heq. unfold poke in Heq.
    assert (Hn : nth_error (firstn (List.length pre) data
                            ++ NUL :: skipn (S (List.length pre)) data)
                           (List.length pre) = Some NUL).
    { rewrite nth_error_app2; rewrite Hpre; [|lia].
      now rewrite Nat.sub_diag. }
    rewrite Heq, Hnth in Hn. discriminate.
Qed.

(** [verifyChecksum] writes to its buffer exactly when the checksum is
    valid.  It then returns true, and the buffer differs from the input
    in one byte, the last star of its C string, now the terminator: the
    C string seen afterwards is the payload before the star.  Otherwise
    (no star, or a sum that does not match) it returns false and the
    buffer is the input. *)
Lemma verifyChecksum_effect (data : list ascii) :
  if checksum_valid (cstr data) then
    exists pre post,
      cstr data = pre ++ "*"%char :: post
      /\ ~ In "*"%char post
      /\ verifyChecksum data = (true, poke data (List.length pre) NUL)
      /\ cstr (poke data (List.length pre) NUL) = pre
      /\ List.length (poke data (List.length pre) NUL) = List.length data
      /\ poke data (List.length pre) NUL <> data
  else verifyChecksum data = (false, data).
Proof.
  pose proof (verifyChecksum_valid data) as Hv.
  pose proof (verifyChecksum_cases data) as Hc.
  destruct (verifyChecksum data) as [ok data']. cbn [fst] in Hv.
  rewrite <- Hv. destruct ok.
  - destruct Hc as (pre & post & Hsplit & Hpost & -> & Hcstr & Hlen & Hne).
    exists pre, post. auto 10.
  - now subst.
Qed.


End Checksum.

(** ** The sample cache *)

Lemma rindex_from_app (l1 l2 : list ascii) (c : ascii) (i : nat)
    (last : option nat) :
  Cache.rindex_from (l1 ++ l2) c i last
  = Cache.rindex_from l2 c (i + List.length l1) (Cache.rindex_from l1 c i last).
Proof.
  revert i last; induction l1 as [|x l1 IH]; intros i last; simpl.
  - now rewrite Nat.add_0_r.
  - rewrite IH. f_equal. lia.
Qed.

Lemma hex_char_not_star (d : Z) : 0 <= d < 16 -> hex_char d <> "*"%char.
Proof.
  intros Hd.
  assert (H : d = 0 \/ d = 1 \/ d = 2 \/ d = 3 \/ d = 4 \/ d = 5 \/ d = 6
              \/ d = 7 \/ d = 8 \/ d = 9 \/ d = 10 \/ d = 11 \/ d = 12
              \/ d = 13 \/ d = 14 \/ d = 15) by lia.
  repeat (destruct H as [->|H]; [discriminate|]). subst d. discriminate.
Qed.

Lemma checksum_range (bytes : list ascii) : 0 <= Cache.checksum bytes < 256.
Proof.
  unfold Cache.checksum. rewrite checksum_sum. apply Z.mod_pos_bound. lia.
Qed.

(** Unsealing a sealed cache gives the cache back: bytes, sample count and
    capacity. *)
Lemma untailer_tailer (c : CStorageRAM) : Cache.untailer (Cache.tailer c) = c.
Proof.
  destruct c as [bytes n size]. unfold Cache.untailer, Cache.tailer. simpl.
  pose proof (checksum_range bytes) as Hr.
  rewrite rindex_from_app. unfold Cache.hex2. cbn [Cache.rindex_from].
  rewrite Ascii.eqb_refl.
  assert (H1 : Ascii.eqb (hex_char (Cache.checksum bytes / 16)) "*" = false).
  { apply Ascii.eqb_neq, hex_char_not_star.
    split; [apply Z.div_pos; lia | apply Z.div_lt_upper_bound; lia]. }
  assert (H2 : Ascii.eqb (hex_char (Cache.checksum bytes mod 16)) "*" = false).
  { apply Ascii.eqb_neq, hex_char_not_star. apply Z.mod_pos_bound. lia. }
  rewrite H1, H2. cbn [Nat.add].
  rewrite firstn_app, Nat.sub_diag, firstn_all. simpl.
  now rewrite app_nil_r.
Qed.

(** ** Vehicle-bus polling *)

Section Polling.

Context {cfg : Config} {hw : Hardware} {lib : Library}.

(** C8.  [processOBD] reads the speed first; when this read fails the run
    ends at once: the only effect is the read itself (one [EvReadPID] for
    the speed in the trace, one oracle consumed).  The cache, the trip
    distance, the last speed and its time, and the tier-2 counter are
    those of the state before. *)
Theorem failed_speed_read_aborts_polling (s : Logger) :
  hw_readPID (tick s) PID_SPEED = None ->
  processOBD s =
  Ret tt (set_trace (trace s ++ [EvReadPID PID_SPEED]) (set_tick (S (tick s)) s)).
Proof.
  intros Hfail. unfold processOBD, readSpeed, readPID. run.
  rewrite Hfail. simpl. now destruct s.
Qed.

End Polling.

(** ** Transmission *)

Section Transmission.

Context {cfg : Config} {hw : Hardware} {lib : Library}.

(** C4.  A send cycle of [loop] in which the send fails: the error counter
    is incremented; the cache is sealed for the send and unsealed after
    it, which gives back the cache as it was, with the same bytes and the
    same sample count; the time of the last send is updated; and when the
    error counter has reached [MAX_CONN_ERRORS_RECONNECT] the link is
    closed and reopened and the time of the last sync is cleared, while
    below the threshold the link and that time are left alone. *)
Theorem failed_send_keeps_samples (t : Z) (s : Logger) :
  negb (SERVER_SYNC_INTERVAL =? 0)
  && (uint32 (SERVER_SYNC_INTERVAL * 1000) <=? uint32 (t - lastSyncTime s))
  = false ->
  uint32 DATA_SENDING_INTERVAL <= uint32 (t - lastSentTime s) ->
  0 < Cache.samples (cache s) ->
  hw_netSend (tick s) = false ->
  exists s',
    loop_transmit t s = Ret tt s'
    /\ connErrors s' = connErrors s + 1
    /\ cache s' = Cache.untailer (Cache.tailer (cache s))
    /\ Cache.samples (cache s') = Cache.samples (cache s)
    /\ Cache.buffer (cache s') = Cache.buffer (cache s)
    /\ lastSentTime s' = t
    /\ (if MAX_CONN_ERRORS_RECONNECT <=? connErrors s + 1
        then filter is_net (emitted s (Ret tt s'))
             = [EvNetSend (Cache.buffer (Cache.tailer (cache s)));
                EvNetClose; EvNetOpen]
             /\ lastSyncTime s' = 0
        else filter is_net (emitted s (Ret tt s'))
             = [EvNetSend (Cache.buffer (Cache.tailer (cache s)))]
             /\ lastSyncTime s' = lastSyncTime s).
Proof.
  intros Hsync Hdue Hsamples Hsend.
  unfold loop_transmit, getConnErrors, netSend, netClose, netOpen. run.
  rewrite Hsync.
  apply Z.leb_le in Hdue. rewrite Hdue.
  apply Z.gtb_lt in Hsamples. unfold Cache.samples in *.
  rewrite Hsamples. simpl.
  destruct (m_ledMode s =? 0) eqn:Hled; simpl; rewrite Hsend; simpl;
    rewrite ?Hled; simpl;
    destruct (MAX_CONN_ERRORS_RECONNECT <=? connErrors s + 1) eqn:Hmax; simpl;
    (eexists; split; [reflexivity|]; simpl;
     rewrite untailer_tailer;
     repeat split; try reflexivity;
     erewrite emitted_app by (simpl; rewrite <- ?app_assoc; reflexivity);
     reflexivity).
Qed.

End Transmission.

(** ** Frames: what a run leaves alone *)

Section Frame.

Context {B : Type} (proj : Logger -> B).

Lemma frame_ret {A} (a : A) : frame proj (ret a).
Proof. intros s. reflexivity. Qed.

Lemma frame_abort {A} (why : Stop) : frame proj (@abort A why).
Proof. intros s. reflexivity. Qed.

Lemma frame_gets {A} (f : Logger -> A) : frame proj (gets f).
Proof. intros s. reflexivity. Qed.

Lemma frame_bind {A C} (m : M A) (k : A -> M C) :
  frame proj m -> (forall a, frame proj (k a)) -> frame proj (bind m k).
Proof.
  intros Hm Hk s. unfold bind. specialize (Hm s).
  destruct (m s) as [a s'|why s']; simpl in *.
  - now rewrite Hk.
  - exact Hm.
Qed.

Lemma frame_modify (f : Logger -> Logger) :
  (forall s, proj (f s) = proj s) -> frame proj (modify f).
Proof. intros H s. apply H. Qed.

Lemma frame_emit (e : Event) :
  (forall s tr, proj (set_trace tr s) = proj s) -> frame proj (emit e).
Proof. intros H s. apply H. Qed.

Lemma frame_call {A} (e : Event) (oracle : nat -> A) :
  (forall s n tr, proj (set_tick n (set_trace tr s)) = proj s) ->
  frame proj (call e oracle).
Proof. intros H s. apply H. Qed.

Lemma frame_when (b : bool) (m : M unit) :
  frame proj m -> frame proj (when b m).
Proof. intros H. destruct b; [exact H | apply frame_ret]. Qed.

End Frame.

(** Decompose a frame goal along the structure of the code. *)
Ltac frame_step :=
  match goal with
  | |- frame _ (bind _ _) => apply frame_bind; [|intros]
  | |- frame _ (ret _) => apply frame_ret
  | |- frame _ (abort _) => apply frame_abort
  | |- frame _ (gets _) => apply frame_gets
  | |- frame _ (when _ _) => apply frame_when
  | |- frame _ (modify _) => apply frame_modify; intros; reflexivity
  | |- frame _ (emit _) => apply frame_emit; intros; reflexivity
  | |- frame _ (call _ _) => apply frame_call; intros; reflexivity
  | |- frame _ (Serial_print _) => apply frame_emit; intros; reflexivity
  | |- frame _ (Serial_println _) => apply frame_emit; intros; reflexivity
  | |- frame _ (blePrint _) => apply frame_emit; intros; reflexivity
  | |- frame _ (digitalWrite _ _) => apply frame_emit; intros; reflexivity
  | |- frame _ (delay _) => apply frame_emit; intros; reflexivity
  | |- frame _ (checkState _) => apply frame_gets
  | |- frame _ (setState _) => apply frame_modify; intros; reflexivity
  | |- frame _ (clearState _) => apply frame_modify; intros; reflexivity
  | |- frame _ (match ?x with _ => _ end) => destruct x
  | |- frame _ (if ?b then _ else _) => destruct b
  | H : _ |- _ => solve [apply H]
  end.

Ltac frame_auto := repeat frame_step.

Section Frames.

Context {cfg : Config} {hw : Hardware} {lib : Library}.

(** The command token is written nowhere in the command path. *)
Lemma notify_attempts_keeps_token (attempts : nat) (event : Z) :
  frame lastCmdToken (notify_attempts attempts event).
Proof.
  induction attempts as [|n IH]; simpl; unfold netSend, netReceive, login_reply;
    frame_auto.
Qed.

Lemma notifyServer_keeps_token (event : Z) (key payload : option (list ascii)) :
  frame lastCmdToken (notifyServer event key payload).
Proof.
  unfold notifyServer, millis. frame_auto. apply notify_attempts_keeps_token.
Qed.

Lemma executeCommand_keeps_token (cmd : list ascii) :
  frame lastCmdToken (executeCommand cmd).
Proof. unfold executeCommand. frame_auto. Qed.

Lemma ack_attempts_keeps_token (attempts : nat) (buf : list ascii) :
  frame lastCmdToken (ack_attempts attempts buf).
Proof.
  induction attempts as [|n IH]; simpl; frame_auto.
  apply notifyServer_keeps_token.
Qed.

(** [processCommand] never writes [lastCmdToken]. *)
Lemma processCommand_keeps_token (data : list ascii) :
  frame lastCmdToken (processCommand data).
Proof.
  unfold processCommand. frame_auto;
    try apply executeCommand_keeps_token; apply ack_attempts_keeps_token.
Qed.


(** The readiness flags are not touched by the login. *)
Lemma notify_attempts_keeps_state (attempts : nat) (event : Z) :
  frame m_state (notify_attempts attempts event).
Proof.
  induction attempts as [|n IH]; simpl; unfold netSend, netReceive, login_reply;
    frame_auto.
Qed.

Lemma notifyServer_keeps_state (event : Z) (key payload : option (list ascii)) :
  frame m_state (notifyServer event key payload).
Proof.
  unfold notifyServer, millis. frame_auto. apply notify_attempts_keeps_state.
Qed.

Lemma login_attempts_keeps_state (attempts : nat) (data : list ascii) :
  frame m_state (login_attempts attempts data).
Proof.
  induction attempts as [|n IH]; simpl; unfold netOpen, netClose; frame_auto;
    apply notifyServer_keeps_state.
Qed.

Lemma login_keeps_state : frame m_state login.
Proof.
  unfold login, login_data. frame_auto; apply login_attempts_keeps_state.
Qed.

End Frames.

(** ** The serial command channel *)

Section SerialChannel.

Context {cfg : Config} {hw : Hardware} {lib : Library}.




Lemma loop_serial_app (l1 l2 : list ascii) (s : Logger) :
  loop_serial (l1 ++ l2) s = bind (loop_serial l1) (fun _ => loop_serial l2) s.
Proof.
  revert s; induction l1 as [|c l1 IH]; intros s; simpl.
  - reflexivity.
  - unfold bind. destruct (serial_char c s) as [[] s'|why s']; [|reflexivity].
    rewrite IH. reflexivity.
Qed.








End SerialChannel.

(** ** Request/response round trips *)

Lemma occurrences_app (p : Event -> bool) (a b : list Event) :
  occurrences p (a ++ b) = (occurrences p a + occurrences p b)%nat.
Proof. unfold occurrences. now rewrite filter_app, length_app. Qed.

Section RoundTrip.

Context {cfg : Config} {hw : Hardware} {lib : Library}.

(** One attempt whose reply passes the checksum and lacks the echo. *)
Lemma notify_attempt_unechoed (attempts : nat) (event : Z) (s : Logger)
    (bytes data' : list ascii) :
  is_net_ble = false ->
  event <> EVENT_ACK ->
  hw_netSend (tick s) = true ->
  hw_netReceive (S (tick s)) = Some bytes ->
  verifyChecksum (bytes ++ [NUL]) = (true, data') ->
  contains data' (lit "EV=" ++ utoa event) = false ->
  notify_attempts (S attempts) event s
  = notify_attempts attempts event
      (after_attempt s [EvSerial (lit "Invalid reply")]).
Proof.
  intros Hble Hack Hsend Hrecv Hsum Hecho.
  cbn [notify_attempts]. unfold netSend, netReceive. run.
  rewrite Hsend, Hble. simpl.
  apply Z.eqb_neq in Hack. rewrite Hack. simpl. rewrite Hrecv. simpl.
  rewrite Hsum. simpl.
  unfold contains in Hecho.
  destruct (strstr data' _); [discriminate|].
  unfold after_attempt. f_equal. destruct s; simpl. now rewrite <- !app_assoc.
Qed.

(** A successful round trip has received an echoing reply. *)
Lemma notify_attempts_success (attempts : nat) (event : Z) (s s' : Logger) :
  is_net_ble = false ->
  event <> EVENT_ACK ->
  notify_attempts attempts event s = Ret true s' ->
  exists k bytes data',
    hw_netReceive k = Some bytes
    /\ verifyChecksum (bytes ++ [NUL]) = (true, data')
    /\ contains data' (lit "EV=" ++ utoa event) = true.
Proof.
  intros Hble Hack. apply Z.eqb_neq in Hack.
  revert s; induction attempts as [|n IH]; intros s.
  - discriminate.
  - cbn [notify_attempts]. unfold netSend, netReceive. run.
    destruct (hw_netSend (tick s)); simpl; [|apply IH].
    rewrite Hble, Hack. simpl.
    destruct (hw_netReceive (S (tick s))) as [bytes|] eqn:Hrecv; simpl;
      [|apply IH].
    destruct (verifyChecksum (bytes ++ [NUL])) as [ok data'] eqn:Hsum.
    destruct ok; simpl; [|apply IH].
    destruct (strstr data' _) eqn:Hecho; [|apply IH].
    intros _. exists (S (tick s)), bytes, data'.
    repeat split; auto. unfold contains. simpl. now rewrite Hecho.
Qed.

(** When every send succeeds and no reply completes the round trip, the
    loop gives up after as many sends as it had attempts. *)
Lemma notify_attempts_rejected (attempts : nat) (event : Z) (s : Logger) :
  is_net_ble = false ->
  event <> EVENT_ACK ->
  (forall k, hw_netSend k = true) ->
  (forall k, rejected event (hw_netReceive k)) ->
  exists s' tr,
    notify_attempts attempts event s = Ret false s'
    /\ trace s' = trace s ++ tr
    /\ occurrences is_send tr = attempts
    /\ occurrences is_open tr = 0%nat.
Proof.
  intros Hble Hack Hsend Hrej. apply Z.eqb_neq in Hack.
  revert s; induction attempts as [|n IH]; intros s.
  - exists s, []. simpl. now rewrite app_nil_r.
  - cbn [notify_attempts]. unfold netSend, netReceive. run.
    rewrite Hsend. simpl. rewrite Hble, Hack. simpl.
    pose proof (Hrej (S (tick s))) as Hr. unfold rejected in Hr.
    destruct (hw_netReceive (S (tick s))) as [bytes|]; simpl.
    + destruct (verifyChecksum (bytes ++ [NUL])) as [ok data'].
      simpl in Hr. unfold contains in Hr.
      destruct ok; simpl.
      * destruct (strstr data' _); [destruct Hr; discriminate|].
        match goal with |- context [notify_attempts n event ?s1] =>
          destruct (IH s1) as (s' & tr & Hrun & Htr & Hs & Ho) end.
        simpl in Htr. rewrite <- !app_assoc in Htr.
        eexists; eexists; split; [exact Hrun|]. split; [exact Htr|].
        rewrite !occurrences_app, Hs, Ho. split; reflexivity.
      * match goal with |- context [notify_attempts n event ?s1] =>
          destruct (IH s1) as (s' & tr & Hrun & Htr & Hs & Ho) end.
        simpl in Htr. rewrite <- !app_assoc in Htr.
        eexists; eexists; split; [exact Hrun|]. split; [exact Htr|].
        rewrite !occurrences_app, Hs, Ho. split; reflexivity.
    + match goal with |- context [notify_attempts n event ?s1] =>
        destruct (IH s1) as (s' & tr & Hrun & Htr & Hs & Ho) end.
      simpl in Htr. rewrite <- !app_assoc in Htr.
      eexists; eexists; split; [exact Hrun|]. split; [exact Htr|].
      rewrite !occurrences_app, Hs, Ho. split; reflexivity.
Qed.

Lemma notifyServer_eq (event : Z) (key payload : option (list ascii))
    (s : Logger) :
  notifyServer event key payload s
  = notify_attempts 3 (uint8 event) (request_prepared event key payload s).
Proof. reflexivity. Qed.

Lemma notifyServer_rejected (event : Z) (key payload : option (list ascii))
    (s : Logger) :
  is_net_ble = false ->
  uint8 event <> EVENT_ACK ->
  (forall k, hw_netSend k = true) ->
  (forall k, rejected (uint8 event) (hw_netReceive k)) ->
  exists s' tr,
    notifyServer event key payload s = Ret false s'
    /\ trace s' = trace s ++ tr
    /\ occurrences is_send tr = 3%nat
    /\ occurrences is_open tr = 0%nat.
Proof.
  intros Hble Hack Hsend Hrej.
  rewrite notifyServer_eq.
  destruct (notify_attempts_rejected 3 (uint8 event)
              (request_prepared event key payload s) Hble Hack Hsend Hrej)
    as (s' & tr & Hrun & Htr & Hs & Ho).
  simpl in Htr. rewrite <- app_assoc in Htr.
  eexists; eexists; split; [exact Hrun|]. split; [exact Htr|].
  rewrite !occurrences_app, Hs, Ho. split; reflexivity.
Qed.

(** C6.  In a round trip of [notifyServer] (an event other than ACK, not
    over BLE): an attempt whose reply passes the checksum but does not
    contain [EV=<event>] prints "Invalid reply" and continues with the
    attempts that are left, none when it was the third; [notifyServer]
    returns success only if some reply that passed the checksum contained
    the echo; and when no reply does, it returns failure after 3 sends. *)
Theorem unechoed_reply_is_retried (event : Z) (key payload : option (list ascii)) :
  is_net_ble = false ->
  uint8 event <> EVENT_ACK ->
  (forall attempts s bytes data',
      hw_netSend (tick s) = true ->
      hw_netReceive (S (tick s)) = Some bytes ->
      verifyChecksum (bytes ++ [NUL]) = (true, data') ->
      contains data' (lit "EV=" ++ utoa (uint8 event)) = false ->
      notify_attempts (S attempts) (uint8 event) s
      = notify_attempts attempts (uint8 event)
          (after_attempt s [EvSerial (lit "Invalid reply")]))
  /\ (forall s s',
      notifyServer event key payload s = Ret true s' ->
      exists k bytes data',
        hw_netReceive k = Some bytes
        /\ verifyChecksum (bytes ++ [NUL]) = (true, data')
        /\ contains data' (lit "EV=" ++ utoa (uint8 event)) = true)
  /\ (forall s,
      (forall k, hw_netSend k = true) ->
      (forall k, rejected (uint8 event) (hw_netReceive k)) ->
      exists s',
        notifyServer event key payload s = Ret false s'
        /\ occurrences is_send (emitted s (Ret false s')) = 3%nat).
Proof.
  intros Hble Hack. split; [|split].
  - intros attempts s bytes data'. now apply notify_attempt_unechoed.
  - intros s s'. rewrite notifyServer_eq.
    now apply notify_attempts_success.
  - intros s Hsend Hrej.
    destruct (notifyServer_rejected event key payload s Hble Hack Hsend Hrej)
      as (s' & tr & Hrun & Htr & Hs & _).
    exists s'. split; [exact Hrun|].
    now rewrite (emitted_app _ _ _ _ Htr).
Qed.

End RoundTrip.

(** ** Runs that return *)

Section Total.

Context (R : Logger -> Logger -> Prop) `{!PreOrder R}.

Lemma total_ret {A} (P : A -> Prop) (a : A) : P a -> total R P (ret a).
Proof. intros H s. exists a, s. repeat split; [exact H | reflexivity]. Qed.

Lemma total_gets {A} (P : A -> Prop) (f : Logger -> A) :
  (forall s, P (f s)) -> total R P (gets f).
Proof. intros H s. exists (f s), s. repeat split; [apply H | reflexivity]. Qed.

Lemma total_bind {A C} (P1 : A -> Prop) (P2 : C -> Prop) (m : M A)
    (k : A -> M C) :
  total R P1 m -> (forall a, P1 a -> total R P2 (k a)) ->
  total R P2 (bind m k).
Proof.
  intros Hm Hk s. destruct (Hm s) as (a & s1 & E1 & Ha & R1).
  destruct (Hk a Ha s1) as (c & s2 & E2 & Hc & R2).
  exists c, s2. unfold bind. rewrite E1.
  repeat split; [exact E2 | exact Hc | now transitivity s1].
Qed.

Lemma total_seq {A C} (P : C -> Prop) (m : M A) (k : A -> M C) :
  total R (fun _ => True) m -> (forall a, total R P (k a)) ->
  total R P (bind m k).
Proof. intros Hm Hk. apply total_bind with (P1 := fun _ => True); auto. Qed.

Lemma total_modify (P : unit -> Prop) (f : Logger -> Logger) :
  (forall s, R s (f s)) -> P tt -> total R P (modify f).
Proof. intros H Hp s. exists tt, (f s). auto. Qed.

Lemma total_emit (P : unit -> Prop) (e : Event) :
  (forall s, R s (set_trace (trace s ++ [e]) s)) -> P tt -> total R P (emit e).
Proof. intros H Hp. now apply total_modify. Qed.

Lemma total_call {A} (e : Event) (oracle : nat -> A) :
  (forall s, R s (set_tick (S (tick s)) (set_trace (trace s ++ [e]) s))) ->
  total R (fun _ => True) (call e oracle).
Proof. intros H s. eexists; eexists. split; [reflexivity|]. auto. Qed.

Lemma total_when (P : unit -> Prop) (b : bool) (m : M unit) :
  total R P m -> P tt -> total R P (when b m).
Proof. intros H Hp. destruct b; [exact H | now apply total_ret]. Qed.

End Total.

(** Decompose a [total] goal along the code; [side] proves the facts
    about [R] asked for by the primitive steps. *)
Ltac total_step side :=
  match goal with
  | |- total _ _ (bind _ _) => apply total_seq; [exact _| |intros]
  | |- total _ _ (ret _) =>
      apply total_ret; [exact _|first [exact I | reflexivity]]
  | |- total _ _ (gets _) => apply total_gets; [exact _|intros; exact I]
  | |- total _ _ (checkState _) => apply total_gets; [exact _|intros; exact I]
  | |- total _ _ (when _ _) => apply total_when; [exact _| |exact I]
  | |- total _ _ (modify _) => apply total_modify; [intros; side|exact I]
  | |- total _ _ (setState _) => apply total_modify; [intros; side|exact I]
  | |- total _ _ (clearState _) => apply total_modify; [intros; side|exact I]
  | |- total _ _ (emit _) => apply total_emit; [intros; side|exact I]
  | |- total _ _ (Serial_print _) => apply total_emit; [intros; side|exact I]
  | |- total _ _ (Serial_println _) => apply total_emit; [intros; side|exact I]
  | |- total _ _ (blePrint _) => apply total_emit; [intros; side|exact I]
  | |- total _ _ (call _ _) => apply total_call; intros; side
  | |- total _ _ (match ?x with _ => _ end) => destruct x
  | |- total _ _ (if ?b then _ else _) => destruct b
  | H : _ |- _ => solve [apply H]
  end.

(** ** Login against a server that cannot be understood *)

#[local] Instance quiet_preorder : PreOrder quiet.
Proof.
  split.
  - intros s. exists []. now rewrite app_nil_r.
  - intros s1 s2 s3 (tr1 & E1 & S1 & O1) (tr2 & E2 & S2 & O2).
    exists (tr1 ++ tr2). rewrite E2, E1, app_assoc, !occurrences_app, S1, S2, O1, O2.
    auto.
Qed.

#[local] Instance same_session_preorder : PreOrder same_session.
Proof.
  split.
  - intros s. reflexivity.
  - intros s1 s2 s3 H1 H2. unfold same_session in *. congruence.
Qed.

Lemma checkState_connected (s : Logger) :
  checkState_in s STATE_CONNECTED = Z.testbit (m_state s) 5.
Proof.
  unfold checkState_in, STATE_CONNECTED.
  assert (H : Z.land (m_state s) 32 = if Z.testbit (m_state s) 5 then 32 else 0).
  { apply Z.bits_inj'. intros n Hn. rewrite Z.land_spec.
    change 32 with (2 ^ 5). rewrite Z.pow2_bits_eqb by lia.
    destruct (Z.testbit (m_state s) 5) eqn:Hb.
    - rewrite Z.pow2_bits_eqb by lia.
      destruct (Z.eqb_spec 5 n) as [<-|Hne].
      + now rewrite Hb.
      + apply andb_false_r.
    - rewrite Z.bits_0.
      destruct (Z.eqb_spec 5 n) as [<-|Hne].
      + now rewrite Hb.
      + apply andb_false_r. }
  rewrite H. now destruct (Z.testbit (m_state s) 5).
Qed.

Lemma session_setState (flags : Z) (s : Logger) :
  Z.testbit flags 5 = false ->
  same_session s (set_m_state (uint8 (Z.lor (m_state s) flags)) s).
Proof.
  intros Hf. unfold same_session, uint8, set_m_state. cbn [m_state].
  change 256 with (2 ^ 8). rewrite Z.mod_pow2_bits_low by lia.
  now rewrite Z.lor_spec, Hf, orb_false_r.
Qed.

Lemma session_clearState (flags : Z) (s : Logger) :
  Z.testbit flags 5 = false ->
  same_session s (set_m_state (uint8 (Z.land (m_state s) (Z.lnot flags))) s).
Proof.
  intros Hf. unfold same_session, uint8, set_m_state. cbn [m_state].
  change 256 with (2 ^ 8). rewrite Z.mod_pow2_bits_low by lia.
  rewrite Z.land_spec, Z.lnot_spec, Hf by lia. now rewrite andb_true_r.
Qed.

Ltac quiet_side :=
  first
    [ exists []; split; [simpl; now rewrite app_nil_r | split; reflexivity]
    | eexists [_]; split; [reflexivity | split; reflexivity] ].

Ltac session_side :=
  first
    [ reflexivity
    | apply session_setState; reflexivity
    | apply session_clearState; reflexivity ].

Section LoginFailure.

Context {cfg : Config} {hw : Hardware} {lib : Library}.

#[local] Arguments notifyServer : simpl never.
#[local] Arguments login : simpl never.

Lemma login_data_quiet : total quiet (fun _ => True) login_data.
Proof. unfold login_data. repeat total_step quiet_side. Qed.

Hypothesis link_device : is_net_wifi_or_sim = true.
Hypothesis login_is_not_ack : uint8 EVENT_LOGIN <> EVENT_ACK.
Hypothesis opens : forall k, hw_netOpen k = true.
Hypothesis sends : forall k, hw_netSend k = true.
Hypothesis replies_rejected : forall k, rejected (uint8 EVENT_LOGIN) (hw_netReceive k).

Lemma not_ble : is_net_ble = false.
Proof.
  unfold is_net_ble, is_net_wifi_or_sim in *.
  now destruct NET_DEVICE.
Qed.

(** Each iteration of the login loop opens the link once and lets
    [notifyServer] send the request three times. *)
Lemma login_attempts_rejected (attempts : nat) (data : list ascii) (s : Logger) :
  exists s' tr,
    login_attempts attempts data s = Ret false s'
    /\ trace s' = trace s ++ tr
    /\ occurrences is_send tr = (3 * attempts)%nat
    /\ occurrences is_open tr = attempts.
Proof.
  revert s; induction attempts as [|n IH]; intros s.
  - exists s, []. simpl. now rewrite app_nil_r.
  - cbn [login_attempts]. unfold netOpen, netClose. run. rewrite opens. simpl.
    match goal with |- context [notifyServer ?e ?k ?p ?s1] =>
      destruct (notifyServer_rejected e k p s1 not_ble login_is_not_ack sends
                  replies_rejected) as (s2 & tr2 & Hrun & Htr2 & Hs2 & Ho2)
    end.
    rewrite Hrun. simpl.
    match goal with |- context [login_attempts n data ?s3] =>
      destruct (IH s3) as (s' & tr & Hrun' & Htr & Hs & Ho) end.
    simpl in Htr. rewrite Htr2 in Htr. simpl in Htr.
    rewrite <- !app_assoc in Htr.
    eexists; eexists; split; [exact Hrun'|]. split; [exact Htr|].
    rewrite !occurrences_app, Hs, Ho, Hs2, Ho2. simpl. split; lia.
Qed.

Lemma login_rejected (s : Logger) :
  exists s' tr,
    login s = Ret false s'
    /\ trace s' = trace s ++ tr
    /\ occurrences is_send tr = 9%nat
    /\ occurrences is_open tr = 3%nat
    /\ m_state s' = m_state s.
Proof.
  assert (Hlogin : login = (data <- login_data ;; login_attempts 3 data)).
  { unfold login, is_net_wifi_or_sim in *. now destruct NET_DEVICE. }
  pose proof (login_keeps_state s) as Hstate.
  rewrite Hlogin in *. unfold bind in *.
  destruct (login_data_quiet s) as (data & s1 & Hdata & _ & tr1 & Htr1 & Hs1 & Ho1).
  rewrite Hdata in *.
  destruct (login_attempts_rejected 3 data s1) as (s' & tr & Hrun & Htr & Hs & Ho).
  rewrite Hrun in *. simpl in Hstate.
  exists s', (tr1 ++ tr). split; [reflexivity|].
  rewrite Htr, Htr1, app_assoc, !occurrences_app, Hs, Ho, Hs1, Ho1. auto.
Qed.

Lemma login_fails_session : total same_session (fun ok => ok = false) login.
Proof.
  intros s. destruct (login_rejected s) as (s' & tr & Hrun & _ & _ & _ & Hstate).
  exists false, s'. repeat split; auto.
  unfold same_session. now rewrite Hstate.
Qed.

Lemma setup_session_fails (csq : Z) :
  total same_session (fun ok => ok = false) (setup_session csq).
Proof.
  unfold setup_session.
  do 3 (apply total_seq; [exact _|total_step session_side|intros]).
  apply total_bind with (P1 := fun ok => ok = false);
    [exact _|exact login_fails_session|].
  intros ok ->. simpl. apply total_ret; [exact _|reflexivity].
Qed.

Lemma setup_link_up_fails :
  total same_session (fun ok => ok = false) setup_link_up.
Proof.
  pose proof setup_session_fails as Hs.
  unfold setup_link_up. repeat total_step session_side.
Qed.

Lemma wifi_attempts_session (attempts : nat) :
  total same_session (fun _ => True) (wifi_attempts attempts).
Proof.
  induction attempts as [|n IH]; cbn [wifi_attempts];
    repeat total_step session_side.
Qed.

Lemma setup_network_fails :
  total same_session (fun ok => ok = false) setup_network.
Proof.
  pose proof setup_link_up_fails as Hs.
  pose proof (wifi_attempts_session 3) as Hw.
  unfold setup_network. repeat total_step session_side.
Qed.

Lemma setup_fails : total same_session (fun ok => ok = false) setup.
Proof.
  pose proof setup_network_fails as Hs.
  unfold setup. repeat total_step session_side.
Qed.

End LoginFailure.

Section CorruptedLogin.

Context {cfg : Config} {hw : Hardware} {lib : Library}.

(** C5 (amended).  When every link open and every send succeeds and every
    reply of the server arrives with a wrong checksum, [login] returns
    failure after exactly 3 iterations of its loop: the link is opened 3
    times, and each iteration lets [notifyServer] send the LOGIN request
    3 times, 9 sends in all.  [setup] then returns failure with the
    SessionConnected flag as it was before (unset if it was unset). *)
Theorem corrupted_login_gives_up (s : Logger) :
  is_net_wifi_or_sim = true ->
  uint8 EVENT_LOGIN <> EVENT_ACK ->
  (forall k, hw_netOpen k = true) ->
  (forall k, hw_netSend k = true) ->
  (forall k, exists bytes,
      hw_netReceive k = Some bytes
      /\ fst (verifyChecksum (bytes ++ [NUL])) = false) ->
  (exists s',
      login s = Ret false s'
      /\ occurrences is_open (emitted s (Ret false s')) = 3%nat
      /\ occurrences is_send (emitted s (Ret false s')) = 9%nat)
  /\ (exists s',
      setup s = Ret false s'
      /\ checkState_in s' STATE_CONNECTED = checkState_in s STATE_CONNECTED).
Proof.
  intros Hdev Hack Hopen Hsend Hcorrupt.
  assert (Hrej : forall k, rejected (uint8 EVENT_LOGIN) (hw_netReceive k)).
  { intros k. destruct (Hcorrupt k) as (bytes & -> & Hbad). now left. }
  split.
  - destruct (login_rejected Hdev Hack Hopen Hsend Hrej s)
      as (s' & tr & Hrun & Htr & Hs & Ho & _).
    exists s'. rewrite (emitted_app _ _ _ _ Htr). auto.
  - destruct (setup_fails Hdev Hack Hopen Hsend Hrej s)
      as (ok & s' & Hrun & -> & Hconn).
    exists s'. split; [exact Hrun|].
    now rewrite !checkState_connected.
Qed.

End CorruptedLogin.

(** ** Trip distance *)

Lemma uint32_int32 (z : Z) : uint32 (int32 z) = uint32 z.
Proof.
  unfold int32, uint32.
  destruct (z mod 4294967296 <? 2147483648).
  - apply Z.mod_mod. lia.
  - replace (z mod 4294967296 - 4294967296)
      with (z mod 4294967296 + (-1) * 4294967296) by lia.
    rewrite Z_mod_plus_full. apply Z.mod_mod. lia.
Qed.

Lemma int32_small (z : Z) : 0 <= z < 2147483648 -> int32 z = z.
Proof.
  intros Hz. unfold int32, uint32. rewrite Z.mod_small by lia.
  destruct (Z.ltb_spec z 2147483648); lia.
Qed.

(** The increment is never negative and at most the exact trapezoid. *)
Lemma trip_increment_bound (B v last t lastT : Z) :
  0 <= v <= B -> 0 <= last <= B ->
  0 <= lastT <= t -> t < 4294967296 ->
  0 <= trip_increment v last t lastT
  /\ 7200 * trip_increment v last t lastT <= 2 * B * (t - lastT).
Proof.
  intros Hv Hl Ht Htop. unfold trip_increment.
  rewrite uint32_int32.
  set (x := uint32 (uint32 (v + last) * uint32 (t - lastT))).
  assert (Hsum : 0 <= uint32 (v + last) <= v + last).
  { unfold uint32. split; [apply Z.mod_pos_bound; lia | apply Z.mod_le; lia]. }
  assert (Hdt : uint32 (t - lastT) = t - lastT)
    by (unfold uint32; apply Z.mod_small; lia).
  assert (Hx : 0 <= x <= uint32 (v + last) * (t - lastT)).
  { unfold x. rewrite Hdt. unfold uint32 at 1.
    split; [apply Z.mod_pos_bound; lia|].
    apply Z.mod_le; [|lia]. apply Z.mul_nonneg_nonneg; lia. }
  assert (Hle : uint32 (v + last) * (t - lastT) <= 2 * B * (t - lastT)).
  { apply Z.mul_le_mono_nonneg_r; lia. }
  pose proof (Z.mul_div_le x 3600 ltac:(lia)) as H1.
  pose proof (Z.mul_div_le (x / 3600) 2 ltac:(lia)) as H2.
  assert (0 <= x / 3600) by (apply Z.div_pos; lia).
  assert (0 <= x / 3600 / 2) by (apply Z.div_pos; lia).
  split; lia.
Qed.

Section TripDistance.

Context {cfg : Config} {hw : Hardware}.

Lemma readSpeed_reads (s : Logger) (v : Z) :
  hw_readPID (tick s) PID_SPEED = Some v ->
  readSpeed s
  = Ret (int32 v) (speed_read s (int32 v) (uint32 (hw_millis (S (tick s))))).
Proof.
  intros Hread. unfold readSpeed, readPID, millis. run.
  rewrite Hread. simpl. unfold speed_read. f_equal.
  destruct s; simpl. now rewrite <- !app_assoc.
Qed.

Lemma distances_sorted (B : Z) (k : nat) :
  0 <= B < 2147483648 ->
  forall s,
    headroom B s ->
    (forall i, (i < k)%nat ->
       exists v, hw_readPID (tick s + 2 * i) PID_SPEED = Some v /\ 0 <= v <= B) ->
    (forall i, (i < k)%nat ->
       0 <= hw_millis (tick s + 2 * i + 1) < 4294967296) ->
    (k > 0)%nat -> lastSpeedTime s <= hw_millis (tick s + 1) ->
    (forall i, (S i < k)%nat ->
       hw_millis (tick s + 2 * i + 1) < hw_millis (tick s + 2 * S i + 1)) ->
    Sorted Z.le (distance s :: distances k s)
    /\ List.length (distances k s) = k.
Proof.
  intros HB. induction k as [|k IH]; intros s Hroom Hread Hclock Hk Hfirst Hinc.
  - lia.
  - destruct Hroom as (Hlast & Hd & Hlt & Hcap).
    destruct (Hread 0%nat ltac:(lia)) as (v & Hv & Hvr).
    replace (tick s + 2 * 0)%nat with (tick s) in Hv by lia.
    pose proof (Hclock 0%nat ltac:(lia)) as Ht.
    replace (tick s + 2 * 0 + 1)%nat with (S (tick s)) in Ht by lia.
    replace (tick s + 1)%nat with (S (tick s)) in Hfirst by lia.
    cbn [distances]. rewrite (readSpeed_reads s v Hv).
    rewrite (int32_small v) by lia.
    assert (Hu : uint32 (hw_millis (S (tick s))) = hw_millis (S (tick s)))
      by (unfold uint32; apply Z.mod_small; lia).
    rewrite Hu. set (t := hw_millis (S (tick s))) in *.
    destruct (trip_increment_bound B v (lastSpeed s) t (lastSpeedTime s))
      as [Hinc0 Hinc1]; try lia.
    set (inc := trip_increment v (lastSpeed s) t (lastSpeedTime s)) in *.
    assert (Hp1 : 0 <= B * (4294967295 - t)) by (apply Z.mul_nonneg_nonneg; lia).
    assert (Hsmall : uint32 (distance s + inc) = distance s + inc).
    { unfold uint32. apply Z.mod_small. lia. }
    set (s1 := speed_read s v t).
    assert (Hd1 : distance s1 = distance s + inc) by exact Hsmall.
    assert (Hroom1 : headroom B s1).
    { unfold headroom. rewrite Hd1.
      change (lastSpeed s1) with v. change (lastSpeedTime s1) with t. lia. }
    destruct k as [|k].
    + cbn [distances]. split; [|reflexivity].
      repeat constructor. lia.
    + destruct (IH s1 Hroom1) as [Hsorted Hlen].
      * intros i Hi. destruct (Hread (S i) ltac:(lia)) as (w & Hw & Hwr).
        exists w. split; [|exact Hwr].
        change (tick s1) with (S (S (tick s))).
        replace (S (S (tick s)) + 2 * i)%nat with (tick s + 2 * S i)%nat by lia.
        exact Hw.
      * intros i Hi. change (tick s1) with (S (S (tick s))).
        replace (S (S (tick s)) + 2 * i + 1)%nat
          with (tick s + 2 * S i + 1)%nat by lia.
        apply Hclock. lia.
      * lia.
      * change (tick s1) with (S (S (tick s))). change (lastSpeedTime s1) with t.
        replace (S (S (tick s)) + 1)%nat with (tick s + 2 * 1 + 1)%nat by lia.
        pose proof (Hinc 0%nat ltac:(lia)) as H0.
        replace (tick s + 2 * 0 + 1)%nat with (S (tick s)) in H0 by lia.
        fold t in H0. lia.
      * intros i Hi. change (tick s1) with (S (S (tick s))).
        replace (S (S (tick s)) + 2 * i + 1)%nat
          with (tick s + 2 * S i + 1)%nat by lia.
        replace (S (S (tick s)) + 2 * S i + 1)%nat
          with (tick s + 2 * S (S i) + 1)%nat by lia.
        apply Hinc. lia.
      * split; [|cbn [List.length]; now rewrite Hlen].
        constructor; [exact Hsorted|]. constructor. lia.
Qed.

(** C7 (amended).  For [k] speed readings between 0 and [B], taken at
    strictly increasing 32-bit times after the time of the last reading,
    from a state whose distance leaves room for what such speeds can add
    ([headroom]; it holds after the reset of [setup] when [B] is below
    3600): every call of [readSpeed] returns and the trip distance never
    decreases over the sequence. *)
Theorem trip_distance_monotone (B : Z) (k : nat) (s : Logger) :
  0 <= B < 2147483648 ->
  headroom B s ->
  (forall i, (i < k)%nat ->
     exists v, hw_readPID (tick s + 2 * i) PID_SPEED = Some v /\ 0 <= v <= B) ->
  (forall i, (i < k)%nat -> 0 <= hw_millis (tick s + 2 * i + 1) < 4294967296) ->
  lastSpeedTime s <= hw_millis (tick s + 1) ->
  (forall i, (S i < k)%nat ->
     hw_millis (tick s + 2 * i + 1) < hw_millis (tick s + 2 * S i + 1)) ->
  Sorted Z.le (distance s :: distances k s)
  /\ List.length (distances k s) = k.
Proof.
  intros HB Hroom Hread Hclock Hfirst Hinc.
  destruct k as [|k].
  - simpl. split; [repeat constructor | reflexivity].
  - apply (distances_sorted B (S k) HB s); auto. lia.
Qed.

(** After the reset of [setup], speeds below 3600 leave the room. *)
Lemma headroom_after_reset (B : Z) (s : Logger) :
  0 <= B < 3600 -> 0 <= lastSpeed s <= B -> 0 <= lastSpeedTime s ->
  headroom B (set_distance 0 s).
Proof.
  intros HB Hl Ht. unfold headroom, set_distance.
  cbn [lastSpeed distance lastSpeedTime].
  assert (0 <= B * lastSpeedTime s) by (apply Z.mul_nonneg_nonneg; lia).
  lia.
Qed.

End TripDistance.

Lemma Sorted_nondecreasingb (l : list Z) :
  Sorted Z.le l -> nondecreasingb l = true.
Proof.
  induction 1 as [|a l Hs IH Hd]; [reflexivity|].
  destruct l as [|b l]; [reflexivity|].
  cbn [nondecreasingb] in *. inversion Hd; subst.
  apply andb_true_intro. split; [now apply Z.leb_le | exact IH].
Qed.

(** On the racing platform the monadic runs compute the odometer of the
    readings. *)
Lemma distances_racing (k : nat) (s : Logger) :
  @distances Demo.config Demo.racing k s
  = odometer (Demo.racing_readings k (Z.of_nat (S (tick s))))
             (distance s) (lastSpeed s) (lastSpeedTime s).
Proof.
  revert s; induction k as [|k IH]; intros s; [reflexivity|].
  cbn [distances Demo.racing_readings odometer].
  rewrite (@readSpeed_reads Demo.config Demo.racing s 1073741823 eq_refl).
  rewrite IH. unfold speed_read at 2 3 4 5.
  cbn [distance lastSpeed lastSpeedTime tick set_lastSpeed set_lastSpeedTime
       set_distance set_tick set_trace].
  change (int32 1073741823) with 1073741823.
  change (@hw_millis Demo.racing (S (tick s))) with (Z.of_nat (S (tick s))).
  replace (Z.of_nat (S (S (S (tick s))))) with (Z.of_nat (S (tick s)) + 2) by lia.
  reflexivity.
Qed.

(** ** The tier-2 rotation *)

Section Tier2.

Context {cfg : Config} {hw : Hardware} {lib : Library}.

(** With the counter at 250 the gate fires and the index is 251 / 50 = 5,
    outside the 5-element table. *)
Lemma tier2_rotation_overrun (s : Logger) :
  count s = 250 ->
  tier2_rotation s = Abort OutOfBounds (set_count 251 s).
Proof.
  intros Hcount. destruct s; cbn [count] in Hcount; subst.
  reflexivity.
Qed.

(** The gate fires exactly when the counter is a multiple of 50, and the
    index read is the quotient by 50 of the counter after its increment:
    it is 5 when the counter is 250. *)
Lemma tier2_index_range (c : Z) :
  0 <= c < 256 -> c mod 50 = 0 ->
  0 <= uint8 (c + 1) / 50 <= 5
  /\ (uint8 (c + 1) / 50 = 5 <-> c = 250).
Proof.
  intros Hc Hmod. unfold uint8.
  assert (Hcases : c = 0 \/ c = 50 \/ c = 100 \/ c = 150 \/ c = 200 \/ c = 250).
  { pose proof (Z.div_mod c 50 ltac:(lia)) as Hdm. rewrite Hmod in Hdm.
    assert (0 <= c / 50 <= 5)
      by (split; [apply Z.div_pos; lia | apply Z.div_le_upper_bound; lia]).
    lia. }
  destruct Hcases as [->|[->|[->|[->|[->| ->]]]]]; vm_compute;
    repeat split; intros; try discriminate; try reflexivity.
Qed.

End Tier2.

(** C3.  On a vehicle bus that answers every request, the first 250
    polling iterations fire the rotation five times and read the five
    tier-2 parameters in turn; the 251st iteration finds the counter at
    250, fires again, and indexes the table at 251 / 50 = 5, past its
    last element. *)
Theorem tier2_table_overrun :
  let run := times 250 (@processOBD Demo.config Demo.cruising Demo.library)
                   power_on in
  (exists s, run = Ret tt s)
  /\ count (final run) = 250
  /\ filter (fun pid => existsb (Z.eqb pid) (@pidTier2 Demo.config))
            (pid_reads (trace (final run)))
     = @pidTier2 Demo.config
  /\ nth_error (@pidTier2 Demo.config) 5 = None
  /\ exists s',
      @processOBD Demo.config Demo.cruising Demo.library (final run)
      = Abort OutOfBounds s'.
Proof.
  cbv zeta. split; [|split; [|split; [|split]]].
  - eexists. vm_compute. reflexivity.
  - vm_compute. reflexivity.
  - vm_compute. reflexivity.
  - reflexivity.
  - eexists. vm_compute. reflexivity.
Qed.

(** ** Replayed commands *)

Example led_command_verified :
  @verifyChecksum Demo.library (Demo.led_command ++ [NUL])
  = (true, Demo.led_command_buffer).
Proof. vm_compute. reflexivity. Qed.

(** C1.  The verified datagram [EV=5,TK=5,CMD=LED=2] handed twice to
    [processCommand], with the stored token 0 at the start: the stored
    token is still 0 after the first call, the second call drives the LED
    pin again, and its ACK carries [TK=5,MSG=OK] and no duplicate
    marker. *)
Theorem replayed_command_runs_twice :
  let process := @processCommand Demo.config Demo.silent Demo.library
                   Demo.led_command_buffer in
  let first := process Demo.booted in
  let second := process (final first) in
  lastCmdToken (final first) = 0
  /\ filter is_pin (emitted Demo.booted first) = [EvDigitalWrite PIN_LED HIGH]
  /\ filter is_pin (emitted (final first) second) = [EvDigitalWrite PIN_LED HIGH]
  /\ map (fun d => contains d (lit "TK=5,MSG=OK")) (datagrams (emitted (final first) second))
     = [true]
  /\ map (fun d => contains d (lit "DUP=1")) (datagrams (emitted (final first) second))
     = [false].
Proof.
  cbv zeta. split; [|split; [|split; [|split]]]; vm_compute; reflexivity.
Qed.

(** ** The checksum read as an argument *)

(** C9.  The sealed datagram [1F#EV=5,TK=18,CMD=LED*2A], a command without
    argument, received by [loop].  [verifyChecksum] succeeds and
    overwrites the star, and the C string of the buffer is the payload.
    The command is run all the same with the checksum as its argument:
    [executeCommand] reads the byte two places behind the terminator, the
    indicator mode becomes 2, the pin is driven and the ACK reports OK.
    On the payload without its trailer the same command does nothing and
    the ACK carries an empty result. *)
Theorem checksum_trailer_read_as_argument :
  let payload := lit "1F#EV=5,TK=18,CMD=LED" in
  let verified :=
    @verifyChecksum Demo.library (Demo.bare_led_command ++ [NUL]) in
  let received :=
    @loop_incoming Demo.config Demo.commanding Demo.library 0 Demo.booted in
  let bare :=
    @processCommand Demo.config Demo.commanding Demo.library (payload ++ [NUL])
      Demo.booted in
  verified = (true, payload ++ [NUL] ++ lit "2A" ++ [NUL])
  /\ cstr (snd verified) = payload
  /\ m_ledMode (final received) = 2
  /\ filter is_pin (emitted Demo.booted received)
     = [EvDigitalWrite PIN_LED HIGH]
  /\ map (fun d => contains d (lit "TK=18,MSG=OK"))
         (datagrams (emitted Demo.booted received))
     = [true]
  /\ m_ledMode (final bare) = 0
  /\ filter is_pin (emitted Demo.booted bare) = []
  /\ map (fun d => contains d (lit "TK=18,MSG=OK"))
         (datagrams (emitted Demo.booted bare))
     = [false].
Proof.
  cbv zeta.
  split; [|split; [|split; [|split; [|split; [|split; [|split]]]]]];
    vm_compute; reflexivity.
Qed.

(** ** Counterexamples *)

(** C5, as stated: against a server whose every reply has a wrong
    checksum, [login] fails, but it has sent the LOGIN request 9 times,
    not 3. *)
Lemma corrupted_login_sends_nine :
  let run := @login Demo.config Demo.corrupting Demo.library Demo.booted in
  (forall k, exists bytes,
      @hw_netReceive Demo.corrupting k = Some bytes
      /\ fst (@verifyChecksum Demo.library (bytes ++ [NUL])) = false)
  /\ (exists s', run = Ret false s')
  /\ occurrences is_open (emitted Demo.booted run) = 3%nat
  /\ occurrences is_send (emitted Demo.booted run) = 9%nat
  /\ occurrences is_send (emitted Demo.booted run) <> 3%nat.
Proof.
  cbv zeta. split; [|split; [|split; [|split]]].
  - intros k. eexists. split; [reflexivity|]. vm_compute. reflexivity.
  - eexists. vm_compute. reflexivity.
  - vm_compute. reflexivity.
  - vm_compute. reflexivity.
  - vm_compute. discriminate.
Qed.

(** C7, as stated: 7201 readings of the non-negative speed [2^30 - 1]
    at the strictly increasing times 1, 3, 5, ... ms, from the state at
    power on.  Each reading after the first adds 596523; the 32-bit
    accumulator wraps at the last reading, where the distance falls from
    4294518207 to 147434. *)
Lemma trip_distance_wraps :
  (forall n, @hw_readPID Demo.racing n (@PID_SPEED Demo.config) = Some 1073741823)
  /\ (forall n m, (n < m)%nat ->
        0 <= @hw_millis Demo.racing n < @hw_millis Demo.racing m)
  /\ nth (Z.to_nat 7199) (@distances Demo.config Demo.racing Demo.many power_on) 0 = 4294518207
  /\ nth (Z.to_nat 7200) (@distances Demo.config Demo.racing Demo.many power_on) 0 = 147434
  /\ ~ Sorted Z.le (distance power_on
                    :: @distances Demo.config Demo.racing Demo.many power_on).
Proof.
  split; [|split; [|split; [|split]]].
  - intros n. reflexivity.
  - intros n m Hnm. unfold hw_millis, Demo.racing, Demo.platform. lia.
  - rewrite distances_racing. vm_compute. reflexivity.
  - rewrite distances_racing. vm_compute. reflexivity.
  - intros Hsorted. apply Sorted_nondecreasingb in Hsorted.
    rewrite distances_racing in Hsorted. vm_compute in Hsorted. discriminate.
Qed.

(** ** Runs on the concrete platform *)

Example utoa_ex : utoa 4294967295 = lit "4294967295".
Proof. reflexivity. Qed.

Example xtoa_ex : xtoa 255 = lit "FF".
Proof. reflexivity. Qed.

Example strstr_ex : strstr (lit "EV=5,TK=7,CMD=LED=2") (lit "TK=") = Some 5%nat.
Proof. reflexivity. Qed.

Example strrchr_ex : strrchr (lit "a*b*c") "*" = Some 3%nat.
Proof. reflexivity. Qed.

Example atoi_ex : atoi (lit "42,x") = 42.
Proof. reflexivity. Qed.

Example hex2uint8_ex : Demo.hex2uint8_ref (lit "1F") = 31.
Proof. reflexivity. Qed.

(** The same sealed command received twice by [loop]: both datagrams pass
    the checksum and both drive the LED pin. *)
Example replayed_datagram :
  let first := @loop_incoming Demo.config Demo.replaying Demo.library 0
                 Demo.booted in
  let second := @loop_incoming Demo.config Demo.replaying Demo.library 0
                  (final first) in
  m_ledMode (final first) = 2
  /\ filter is_pin (emitted (final first) second)
     = [EvDigitalWrite PIN_LED HIGH].
Proof. cbv zeta. split; vm_compute; reflexivity. Qed.

(** A serial line of 40 characters: 32 are kept. *)
Example long_serial_line :
  WString.chars
    (serialCommand
       (final (@loop_serial Demo.config Demo.silent
                 (lit "0123456789012345678901234567890123456789") power_on)))
  = lit "01234567890123456789012345678901".
Proof. vm_compute. reflexivity. Qed.

(** The serial line [LED=2] sets the indicator mode and prints the
    command and its result.  Afterwards the String holds no character;
    its buffer still holds the line behind the new terminator. *)
Example serial_led_command :
  let run := @loop_serial Demo.config Demo.silent (lit "LED=2" ++ [LF])
               power_on in
  m_ledMode (final run) = 2
  /\ serialCommand (final run) = WString.mk [] (lit "ED=2" ++ [NUL])
  /\ emitted power_on run
     = [EvSerial (lit "LED=2" ++ CRLF); EvDigitalWrite PIN_LED HIGH;
        EvSerial (lit "OK" ++ CRLF)].
Proof. cbv zeta. split; [|split]; vm_compute; reflexivity. Qed.

(** The line [LED] typed after the line [LED=2]: the command handed over
    is [LED], with the [2] of the earlier line two bytes behind it, where
    [executeCommand] looks for the argument.  The pin is driven and the
    result is [OK], as for [LED=2]. *)
Example serial_led_after_led_2 :
  let first := @loop_serial Demo.config Demo.silent (lit "LED=2" ++ [LF])
                 power_on in
  let second := @loop_serial Demo.config Demo.silent (lit "LED" ++ [LF])
                  (set_m_ledMode 0 (final first)) in
  m_ledMode (final second) = 2
  /\ emitted (set_m_ledMode 0 (final first)) second
     = [EvSerial (lit "LED" ++ CRLF); EvDigitalWrite PIN_LED HIGH;
        EvSerial (lit "OK" ++ CRLF)].
Proof. cbv zeta. split; vm_compute; reflexivity. Qed.

(** Three readings of 60 km/h one second (two clock calls) apart. *)
Example cruising_distances :
  @distances Demo.config Demo.cruising 3 power_on = [8; 41; 74].
Proof. vm_compute. reflexivity. Qed.

(** ** Instances of the theorems on the concrete platform *)


Lemma failed_send_keeps_samples_witness :
  exists s',
    @loop_transmit Demo.config Demo.offline Demo.library 5000 Demo.loaded
    = Ret tt s'
    /\ connErrors s' = connErrors Demo.loaded + 1
    /\ cache s' = Cache.untailer (Cache.tailer (cache Demo.loaded))
    /\ Cache.samples (cache s') = Cache.samples (cache Demo.loaded)
    /\ Cache.buffer (cache s') = Cache.buffer (cache Demo.loaded)
    /\ lastSentTime s' = 5000
    /\ (if @MAX_CONN_ERRORS_RECONNECT Demo.config <=? connErrors Demo.loaded + 1
        then filter is_net (emitted Demo.loaded (Ret tt s'))
             = [EvNetSend (Cache.buffer (Cache.tailer (cache Demo.loaded)));
                EvNetClose; EvNetOpen]
             /\ lastSyncTime s' = 0
        else filter is_net (emitted Demo.loaded (Ret tt s'))
             = [EvNetSend (Cache.buffer (Cache.tailer (cache Demo.loaded)))]
             /\ lastSyncTime s' = lastSyncTime Demo.loaded).
Proof.
  apply (@failed_send_keeps_samples Demo.config Demo.offline Demo.library 5000
           Demo.loaded).
  - reflexivity.
  - vm_compute. discriminate.
  - reflexivity.
  - reflexivity.
Defined.

Lemma corrupted_login_gives_up_witness :
  (exists s',
      @login Demo.config Demo.corrupting Demo.library Demo.booted = Ret false s'
      /\ occurrences is_open (emitted Demo.booted (Ret false s')) = 3%nat
      /\ occurrences is_send (emitted Demo.booted (Ret false s')) = 9%nat)
  /\ (exists s',
      @setup Demo.config Demo.corrupting Demo.library Demo.booted = Ret false s'
      /\ checkState_in s' STATE_CONNECTED
         = checkState_in Demo.booted STATE_CONNECTED).
Proof.
  apply (@corrupted_login_gives_up Demo.config Demo.corrupting Demo.library
           Demo.booted).
  - reflexivity.
  - vm_compute. discriminate.
  - intros k. reflexivity.
  - intros k. reflexivity.
  - intros k. eexists. split; [reflexivity|]. vm_compute. reflexivity.
Defined.

Lemma unechoed_reply_is_retried_witness :
  (exists s',
      @notifyServer Demo.config Demo.misechoing Demo.library 1
        (Some (lit "KEY")) None Demo.booted = Ret false s'
      /\ occurrences is_send (emitted Demo.booted (Ret false s')) = 3%nat).
Proof.
  apply (@unechoed_reply_is_retried Demo.config Demo.misechoing Demo.library 1
           (Some (lit "KEY")) None).
  - reflexivity.
  - vm_compute. discriminate.
  - intros k. reflexivity.
  - intros k. right. vm_compute. reflexivity.
Defined.

Lemma trip_distance_monotone_witness :
  Sorted Z.le (distance power_on
               :: @distances Demo.config Demo.cruising 3 power_on)
  /\ List.length (@distances Demo.config Demo.cruising 3 power_on) = 3%nat.
Proof.
  apply (@trip_distance_monotone Demo.config Demo.cruising 255 3 power_on).
  - lia.
  - vm_compute. repeat split; discriminate.
  - intros i Hi. exists 60. split; [reflexivity | lia].
  - intros i Hi. unfold hw_millis, Demo.cruising, Demo.platform, Demo.clock.
    change (tick power_on) with 0%nat. lia.
  - vm_compute. discriminate.
  - intros i Hi. unfold hw_millis, Demo.cruising, Demo.platform, Demo.clock.
    change (tick power_on) with 0%nat. lia.
Defined.

Lemma failed_speed_read_witness :
  @processOBD Demo.config Demo.parked Demo.library Demo.loaded
  = Ret tt (set_trace (trace Demo.loaded ++ [EvReadPID (@PID_SPEED Demo.config)])
              (set_tick (S (tick Demo.loaded)) Demo.loaded)).
Proof.
  apply (@failed_speed_read_aborts_polling Demo.config Demo.parked Demo.library
           Demo.loaded).
  reflexivity.
Defined.



(** * Further properties of the sketch *)

(** ** Readiness flags (lines 670-672) *)

Lemma byte_bits_low (f n : Z) :
  0 <= f < 256 -> Z.testbit f n = true -> 0 <= n < 8.
Proof.
  intros Hf Hbit.
  destruct (Z.ltb_spec n 0) as [Hneg|Hpos].
  - now rewrite Z.testbit_neg_r in Hbit.
  - split; [exact Hpos|].
    destruct (Z.ltb_spec n 8) as [Hlt|Hge]; [exact Hlt|].
    destruct (Z.eq_dec f 0) as [->|Hnz].
    + now rewrite Z.bits_0 in Hbit.
    + rewrite Z.bits_above_log2 in Hbit; [discriminate|lia|].
      assert (Z.log2 f < 8) by (apply Z.log2_lt_pow2; lia). lia.
Qed.

Lemma uint8_bit (x n : Z) :
  Z.testbit (uint8 x) n = Z.testbit x n && (n <? 8).
Proof.
  unfold uint8. change 256 with (2 ^ 8).
  destruct (Z.ltb_spec n 8) as [Hlt|Hge].
  - rewrite Z.mod_pow2_bits_low by lia. now rewrite andb_true_r.
  - rewrite Z.mod_pow2_bits_high by lia. now rewrite andb_false_r.
Qed.

Section Flags.

(** X1.  After [setState(flags)], [checkState(flags)] holds, whatever the
    flags were before. *)
Theorem setState_then_checkState (flags : Z) (s : Logger) :
  0 <= flags < 256 ->
  exists s', setState flags s = Ret tt s' /\ checkState_in s' flags = true.
Proof.
  intros Hf. eexists. split; [reflexivity|].
  unfold checkState_in, set_m_state. cbn [m_state].
  apply Z.eqb_eq. apply Z.bits_inj'. intros n Hn.
  rewrite Z.land_spec, uint8_bit, Z.lor_spec.
  destruct (Z.testbit flags n) eqn:Hbit.
  - apply byte_bits_low in Hbit; [|exact Hf].
    destruct (Z.ltb_spec n 8); [|lia].
    now rewrite orb_true_r.
  - apply andb_false_r.
Qed.

Lemma cleared_flag_fails (flags other : Z) (s : Logger) :
  Z.land flags other <> 0 ->
  checkState_in (set_m_state (uint8 (Z.land (m_state s) (Z.lnot flags))) s) other
  = false.
Proof.
  intros Hshare.
  unfold checkState_in, set_m_state. cbn [m_state].
  apply Z.eqb_neq. intros Heq. apply Hshare.
  apply Z.bits_inj'. intros n Hn. rewrite Z.bits_0, Z.land_spec.
  destruct (Z.testbit flags n) eqn:Hbit; [|reflexivity].
  destruct (Z.testbit other n) eqn:Hother; [|reflexivity].
  exfalso.
  assert (Hb : Z.testbit (Z.land (uint8 (Z.land (m_state s) (Z.lnot flags))) other) n
               = true) by now rewrite Heq.
  rewrite Z.land_spec, uint8_bit, Z.land_spec, Z.lnot_spec, Hbit in Hb by lia.
  simpl in Hb. rewrite andb_false_r in Hb. simpl in Hb. discriminate.
Qed.

(** X2.  After [clearState(flags)] with some flag in it, [checkState] of
    these flags fails, and so does [checkState] of any set of flags that
    shares a flag with them. *)
Theorem clearState_then_checkState (flags other : Z) (s : Logger) :
  Z.land flags other <> 0 ->
  exists s', clearState flags s = Ret tt s' /\ checkState_in s' other = false.
Proof.
  intros Hshare. eexists. split; [reflexivity|].
  now apply cleared_flag_fails.
Qed.

Lemma checkState_disjoint (flags other : Z) (s : Logger) :
  0 <= other < 256 ->
  Z.land flags other = 0 ->
  checkState_in (set_m_state (uint8 (Z.lor (m_state s) flags)) s) other
  = checkState_in s other
  /\ checkState_in (set_m_state (uint8 (Z.land (m_state s) (Z.lnot flags))) s)
       other
     = checkState_in s other.
Proof.
  intros Ho Hdisj.
  assert (Hbits : forall n, Z.testbit other n = true -> Z.testbit flags n = false).
  { intros n Hn.
    assert (Hz : Z.testbit (Z.land flags other) n = false)
      by (rewrite Hdisj; apply Z.bits_0).
    rewrite Z.land_spec, Hn, andb_true_r in Hz. exact Hz. }
  unfold checkState_in, set_m_state.
  cbn [m_state].
  split; f_equal; apply Z.bits_inj'; intros n Hn;
    rewrite !Z.land_spec, uint8_bit;
    destruct (Z.testbit other n) eqn:Hother;
    rewrite ?andb_false_r; try reflexivity;
    pose proof (byte_bits_low _ _ Ho Hother) as Hlow;
    destruct (Z.ltb_spec n 8); try lia;
    rewrite !andb_true_r.
  - now rewrite Z.lor_spec, (Hbits n Hother), orb_false_r.
  - rewrite Z.land_spec, Z.lnot_spec, (Hbits n Hother) by lia.
    now rewrite andb_true_r.
Qed.

(** X3.  Setting or clearing flags leaves [checkState] of disjoint flags
    as it was. *)
Theorem disjoint_flags_independent (flags other : Z) (s : Logger) :
  0 <= other < 256 ->
  Z.land flags other = 0 ->
  checkState_in (final (setState flags s)) other = checkState_in s other
  /\ checkState_in (final (clearState flags s)) other = checkState_in s other.
Proof. intros Ho Hdisj. exact (checkState_disjoint flags other s Ho Hdisj). Qed.

End Flags.

(** ** Judgements about runs *)

Section Always.

Context (R : Logger -> Logger -> Prop) `{!PreOrder R}.

Lemma always_ret {A} (a : A) : always R (ret a).
Proof. intros s. simpl. reflexivity. Qed.

Lemma always_abort {A} (why : Stop) : always R (@abort A why).
Proof. intros s. simpl. reflexivity. Qed.

Lemma always_gets {A} (f : Logger -> A) : always R (gets f).
Proof. intros s. simpl. reflexivity. Qed.

Lemma always_bind {A C} (m : M A) (k : A -> M C) :
  always R m -> (forall a, always R (k a)) -> always R (bind m k).
Proof.
  intros Hm Hk s. unfold bind. specialize (Hm s).
  destruct (m s) as [a s'|why s']; simpl in *.
  - transitivity s'; [exact Hm | apply Hk].
  - exact Hm.
Qed.

Lemma always_modify (f : Logger -> Logger) :
  (forall s, R s (f s)) -> always R (modify f).
Proof. intros H s. apply H. Qed.

Lemma always_emit (e : Event) :
  (forall s, R s (set_trace (trace s ++ [e]) s)) -> always R (emit e).
Proof. intros H s. apply H. Qed.

Lemma always_call {A} (e : Event) (oracle : nat -> A) :
  (forall s, R s (set_tick (S (tick s)) (set_trace (trace s ++ [e]) s))) ->
  always R (call e oracle).
Proof. intros H s. apply H. Qed.

Lemma always_when (b : bool) (m : M unit) : always R m -> always R (when b m).
Proof. intros H. destruct b; [exact H | apply always_ret]. Qed.

End Always.

(** Decompose an [always] goal along the code; [side] proves the facts
    about [R] asked for by the primitive steps. *)
Ltac always_step side :=
  match goal with
  | |- always _ (bind _ _) => apply always_bind; [exact _| |intros]
  | |- always _ (ret _) => apply always_ret; exact _
  | |- always _ (abort _) => apply always_abort; exact _
  | |- always _ (gets _) => apply always_gets; exact _
  | |- always _ (checkState _) => apply always_gets; exact _
  | |- always _ (when _ _) => apply always_when; [exact _|]
  | |- always _ (modify _) => apply always_modify; intros; side
  | |- always _ (setState _) => apply always_modify; intros; side
  | |- always _ (clearState _) => apply always_modify; intros; side
  | |- always _ (cache_log _ _) => apply always_modify; intros; side
  | |- always _ (emit _) => apply always_emit; intros; side
  | |- always _ (Serial_print _) => apply always_emit; intros; side
  | |- always _ (Serial_println _) => apply always_emit; intros; side
  | |- always _ (blePrint _) => apply always_emit; intros; side
  | |- always _ (digitalWrite _ _) => apply always_emit; intros; side
  | |- always _ (delay _) => apply always_emit; intros; side
  | |- always _ (netClose) => apply always_emit; intros; side
  | |- always _ (call _ _) => apply always_call; intros; side
  | |- always _ (match ?x with _ => _ end) => destruct x
  | |- always _ (if ?b then _ else _) => destruct b
  | H : _ |- _ => solve [apply H]
  end.

Lemma returns_ret {A} (P : A -> Prop) (a : A) : P a -> returns P (ret a).
Proof. intros H s. exact H. Qed.

Lemma returns_abort {A} (P : A -> Prop) (why : Stop) : returns P (abort why).
Proof. intros s. exact I. Qed.

Lemma returns_bind {A C} (P : C -> Prop) (m : M A) (k : A -> M C) :
  (forall a, returns P (k a)) -> returns P (bind m k).
Proof.
  intros Hk s. unfold bind. destruct (m s) as [a s'|why s']; [apply Hk | exact I].
Qed.

#[local] Instance flags_shrink_preorder : PreOrder flags_shrink.
Proof.
  split.
  - intros s n H. exact H.
  - intros s1 s2 s3 H12 H23 n H. apply H12, H23, H.
Qed.

#[local] Instance extends_by_preorder (P : Event -> Prop) : PreOrder (extends_by P).
Proof.
  split.
  - intros s. exists []. split; [now rewrite app_nil_r | constructor].
  - intros s1 s2 s3 (t1 & E1 & F1) (t2 & E2 & F2).
    exists (t1 ++ t2). split; [now rewrite E2, E1, app_assoc|].
    apply Forall_app. auto.
Qed.

Lemma shrink_clearState (flags : Z) (s : Logger) :
  flags_shrink s (set_m_state (uint8 (Z.land (m_state s) (Z.lnot flags))) s).
Proof.
  intros n. unfold set_m_state. cbn [m_state].
  rewrite uint8_bit, Z.land_spec. intros H.
  apply andb_prop in H. destruct H as [H _].
  apply andb_prop in H. tauto.
Qed.

Ltac shrink_side :=
  first [ intros ? ?; assumption | apply shrink_clearState ].

Ltac extends_side :=
  first
    [ exists []; split; [simpl; now rewrite app_nil_r | constructor]
    | eexists [_]; split;
      [reflexivity | constructor; [try discriminate; try exact I; simpl; auto | constructor]] ].

(** ** Commands *)

Lemma fold_line_ends_clean (reply : list ascii) :
  ~ In CR (fold_line_ends reply) /\ ~ In LF (fold_line_ends reply).
Proof.
  unfold fold_line_ends.
  split; intros Hin; apply in_map_iff in Hin; destruct Hin as (c & Hc & _);
    destruct (Ascii.eqb c (ascii_of_nat 13)) eqn:Hcr;
    destruct (Ascii.eqb c (ascii_of_nat 10)) eqn:Hlf;
    simpl in Hc; try discriminate;
    subst c; vm_compute in Hcr; vm_compute in Hlf; discriminate.
Qed.

Section Commands.

Context {cfg : Config} {hw : Hardware} {lib : Library}.

(** X4.  A datagram without [TK=] or without [CMD=] is ignored by
    [processCommand]: it returns false, executes nothing, sends no ACK
    and leaves the state as it is. *)
Theorem processCommand_ignores_malformed (data : list ascii) (s : Logger) :
  contains data (lit "TK=") = false \/ contains data (lit "CMD=") = false ->
  processCommand data s = Ret (Some false) s.
Proof.
  unfold contains, processCommand. intros [H|H].
  - destruct (strstr data (lit "TK=")); [discriminate | reflexivity].
  - destruct (strstr data (lit "TK=")); [|reflexivity].
    destruct (strstr data (lit "CMD=")); [discriminate | reflexivity].
Qed.

(** X5.  Whatever the command, the result text of [executeCommand] holds
    no carriage return and no line feed: the reply of the vehicle bus is
    folded into one line. *)
Theorem executeCommand_result_one_line (cmd : list ascii) (s s' : Logger)
    (result : list ascii) :
  executeCommand cmd s = Ret result s' ->
  ~ In CR result /\ ~ In LF result.
Proof.
  intros Hrun.
  assert (H : returns (fun r => ~ In CR r /\ ~ In LF r) (executeCommand cmd)).
  { unfold executeCommand.
    repeat first
      [ apply returns_bind; intros
      | apply returns_abort
      | apply returns_ret;
        first [ apply fold_line_ends_clean
              | split; intros Hin; simpl in Hin; intuition discriminate ]
      | match goal with
        | |- returns _ (if ?b then _ else _) => destruct b
        | |- returns _ (match ?x with _ => _ end) => destruct x
        end ]. }
  specialize (H s). now rewrite Hrun in H.
Qed.

(** X6.  No command sets a readiness flag: after [executeCommand],
    however it ends, every flag that is set was set before. *)
Theorem executeCommand_sets_no_flag (cmd : list ascii) :
  always flags_shrink (executeCommand cmd).
Proof.
  unfold executeCommand. repeat always_step shrink_side.
Qed.

Lemma starts_with_cstr (pat buf : list ascii) :
  starts_with pat buf = true -> exists rest, cstr buf = pat ++ rest.
Proof.
  revert buf; induction pat as [|p pat IH]; intros buf H.
  - exists (cstr buf). reflexivity.
  - destruct buf as [|x rest]; simpl in H; [discriminate|].
    simpl. destruct (Ascii.eqb x NUL); [discriminate|].
    apply andb_prop in H. destruct H as [Hx Hrest].
    apply Ascii.eqb_eq in Hx. subst x.
    destruct (IH rest Hrest) as (r & ->). now exists r.
Qed.

Lemma strcmp_eq_cstr (pat buf : list ascii) :
  strcmp_eq buf pat = true -> cstr buf = pat.
Proof.
  unfold strcmp_eq, at_. revert buf; induction pat as [|p pat IH]; intros buf H.
  - simpl in H. destruct buf as [|x rest]; [reflexivity|].
    simpl in *. now rewrite H.
  - destruct buf as [|x rest]; simpl in H; [discriminate|].
    simpl. destruct (Ascii.eqb x NUL); [discriminate|].
    apply andb_prop in H. destruct H as [H Hend].
    apply andb_prop in H. destruct H as [Hx Hrest].
    apply Ascii.eqb_eq in Hx. subst x.
    rewrite (IH rest); [reflexivity|]. now rewrite Hrest, Hend.
Qed.

Lemma emitted_app_abort {A} (s s' : Logger) (why : Stop) (tr : list Event) :
  trace s' = trace s ++ tr -> emitted s (@Abort A why s') = tr.
Proof.
  intros H. unfold emitted. simpl. rewrite H.
  rewrite skipn_app, skipn_all, Nat.sub_diag. reflexivity.
Qed.

Lemma executeCommand_reboot (cmd : list ascii) (s : Logger) :
  strcmp_eq cmd (lit "REBOOT") = true ->
  executeCommand cmd s = Abort Restart (rebooted s).
Proof.
  intros Hcmd. pose proof (strcmp_eq_cstr _ _ Hcmd) as Hstr.
  assert (Hled : strncmp_eq cmd (lit "LED") = false).
  { unfold strncmp_eq. destruct (starts_with (lit "LED") cmd) eqn:E; [|reflexivity].
    apply starts_with_cstr in E. destruct E as (r & E).
    rewrite Hstr in E. discriminate. }
  unfold executeCommand, rebooted. rewrite Hled, Hcmd, Hstr.
  destruct s. run. unfold checkState_in. cbn [m_state set_trace].
  destruct has_storage; simpl.
  - destruct (Z.land _ STATE_STORAGE_READY =? STATE_STORAGE_READY);
      simpl; rewrite <- ?app_assoc; reflexivity.
  - rewrite <- ?app_assoc. reflexivity.
Qed.

(** X7.  The command REBOOT never returns: the device restarts, after
    closing the storage and clearing its flag when the storage was
    ready, and without any other effect. *)
Theorem reboot_closes_storage_first (cmd : list ascii) (s : Logger) :
  strcmp_eq cmd (lit "REBOOT") = true ->
  executeCommand cmd s = Abort Restart (rebooted s).
Proof. exact (executeCommand_reboot cmd s). Qed.

(** X8.  A remote REBOOT command with a new token is never acknowledged:
    [processCommand] ends in the restart and no datagram is sent. *)
Theorem remote_reboot_sends_no_ack (data : list ascii) (s : Logger) (p q : nat) :
  strstr data (lit "TK=") = Some p ->
  strstr data (lit "CMD=") = Some q ->
  lastCmdToken s < uint32 (atol (advance (p + 3) data)) ->
  strcmp_eq (advance (q + 4) data) (lit "REBOOT") = true ->
  exists s',
    processCommand data s = Abort Restart s'
    /\ datagrams (emitted s (@Abort (option bool) Restart s')) = [].
Proof.
  intros Htk Hcmd Hnew Hreboot.
  unfold processCommand. rewrite Htk, Hcmd.
  unfold bind at 1. unfold gets at 1.
  apply Z.gtb_lt in Hnew. rewrite Hnew.
  unfold bind at 1. rewrite (executeCommand_reboot _ _ Hreboot).
  eexists. split; [reflexivity|].
  unfold rebooted.
  destruct (has_storage && checkState_in s STATE_STORAGE_READY);
    erewrite emitted_app_abort by reflexivity; reflexivity.
Qed.

End Commands.

(** ** Round trips, in every environment *)

Lemma datagrams_app (a b : list Event) :
  datagrams (a ++ b) = datagrams a ++ datagrams b.
Proof. unfold datagrams. apply flat_map_app. Qed.

Lemma occurrences_send_datagrams (tr : list Event) :
  occurrences is_send tr = List.length (datagrams tr).
Proof.
  unfold occurrences, datagrams. induction tr as [|e tr IH]; [reflexivity|].
  destruct e; simpl; auto.
Qed.

Lemma off_line_trace (tr : list Event) :
  Forall off_line tr ->
  datagrams tr = [] /\ Forall keeps_link tr /\ ~ In EvNetReceive tr
  /\ occurrences is_open tr = 0%nat.
Proof.
  induction 1 as [|e tr [Hnet Hrecv] _ (Hd & Hk & Hr & Ho)].
  - split; [reflexivity|]. split; [constructor|]. split; [intros []|reflexivity].
  - split; [|split; [|split]].
    + destruct e; simpl in *; try discriminate; exact Hd.
    + constructor; [|exact Hk].
      split; intros ->; discriminate.
    + intros [Heq|Hin]; [now apply Hrecv | now apply Hr].
    + unfold occurrences in *. destruct e; simpl in *; try discriminate; exact Ho.
Qed.

Ltac off_line_side :=
  first
    [ exists []; split; [simpl; now rewrite app_nil_r | constructor]
    | eexists [_]; split;
      [reflexivity
      | constructor; [split; [reflexivity | discriminate] | constructor]] ].

Section RoundTripAlways.

Context {cfg : Config} {hw : Hardware} {lib : Library}.

Lemma login_reply_off_line (data : list ascii) :
  total (extends_by off_line) (fun _ => True) (login_reply data).
Proof. unfold login_reply. repeat total_step off_line_side. Qed.

Lemma login_reply_keeps_connErrors (data : list ascii) :
  frame connErrors (login_reply data).
Proof. unfold login_reply. frame_auto. Qed.

(** Every run of the retry loop, whatever the transport does. *)
Lemma notify_attempts_run (attempts : nat) (event : Z) (s : Logger) :
  exists b s' tr k,
    notify_attempts attempts event s = Ret b s'
    /\ trace s' = trace s ++ tr
    /\ datagrams tr = repeat (Cache.buffer (netbuf s)) k
    /\ (k <= attempts)%nat
    /\ Forall keeps_link tr
    /\ (is_net_ble = true \/ event = EVENT_ACK ->
        ~ In EvNetReceive tr /\ connErrors s' = connErrors s
        /\ feedid s' = feedid s /\ m_serverName s' = m_serverName s)
    /\ connErrors s'
       = (if b && negb is_net_ble && negb (event =? EVENT_ACK)
          then 0 else connErrors s).
Proof.
  revert s; induction attempts as [|n IH]; intros s.
  - exists false, s, [], 0%nat. simpl. rewrite app_nil_r.
    repeat split; auto; constructor.
  - cbn [notify_attempts]. unfold netSend, netReceive. run.
    destruct (hw_netSend (tick s)) eqn:Hsend; simpl.
    + destruct is_net_ble eqn:Hble.
      { (* BLE: done after the send *)
        exists true, (set_tick (S (tick s))
                        (set_trace (trace s ++ [EvNetSend (Cache.buffer (netbuf s))]) s)),
          [EvNetSend (Cache.buffer (netbuf s))], 1%nat.
        simpl. repeat split; auto; try lia.
        - repeat constructor; discriminate.
        - intros [H1|H2]; [discriminate|exact H2]. }
      destruct (event =? EVENT_ACK) eqn:Hack.
      { (* ACK: no reply is awaited *)
        exists true, (set_tick (S (tick s))
                        (set_trace (trace s ++ [EvNetSend (Cache.buffer (netbuf s))]) s)),
          [EvNetSend (Cache.buffer (netbuf s))], 1%nat.
        simpl. repeat split; auto; try lia.
        - repeat constructor; discriminate.
        - intros [H1|H2]; [discriminate|exact H2]. }
      apply Z.eqb_neq in Hack.
      simpl.
      destruct (hw_netReceive (S (tick s))) as [bytes|]; simpl.
      * destruct (verifyChecksum (bytes ++ [NUL])) as [ok data'].
        destruct ok; simpl.
        -- destruct (strstr data' _); simpl.
           ++ (* a good reply *)
              match goal with
              | |- context [match ?m ?s1 with Ret _ _ => _ | Abort _ _ => _ end] =>
                  assert (Hreply : total (extends_by off_line) (fun _ => True) m)
                    by (destruct (event =? EVENT_LOGIN);
                        [apply login_reply_off_line
                        | apply total_ret; [exact _|exact I]]);
                  assert (Hce : frame connErrors m)
                    by (destruct (event =? EVENT_LOGIN);
                        [apply login_reply_keeps_connErrors
                        | apply frame_ret]);
                  destruct (Hreply s1) as ([] & s2 & Hrun & _ & tr2 & Htr2 & Hoff);
                  specialize (Hce s1); rewrite Hrun in *
              end.
              simpl in Htr2. rewrite <- !app_assoc in Htr2.
              destruct (off_line_trace _ Hoff) as (Hd2 & Hk2 & _ & _).
              eexists true, _, _, 1%nat. split; [reflexivity|]. simpl.
              rewrite Htr2. rewrite <- !app_assoc. simpl.
              split; [reflexivity|]. split.
              { unfold datagrams in *. simpl. now rewrite flat_map_app, Hd2. }
              split; [lia|]. split.
              { repeat (constructor; [split; discriminate|]).
                apply Forall_app. split; [exact Hk2|].
                repeat constructor; discriminate. }
              split; [intros [H|H]; congruence|]. reflexivity.
           ++ (* no echo *)
              match goal with |- context [notify_attempts n event ?s1] =>
                destruct (IH s1) as (b & s' & tr & k & Hrun & Htr & Hd & Hk & Hl & _ & Hc)
              end.
              simpl in Htr, Hd, Hc. rewrite <- !app_assoc in Htr.
              exists b, s', (EvNetSend (Cache.buffer (netbuf s)) :: EvNetReceive
                             :: EvSerial (lit "Invalid reply") :: tr), (S k).
              split; [exact Hrun|]. split; [exact Htr|].
              unfold datagrams in *. simpl.
              rewrite Hd. split; [reflexivity|]. split; [lia|]. split.
              { repeat (constructor; [split; discriminate|]). exact Hl. }
              split; [intros [H|H]; congruence|]. exact Hc.
        -- (* checksum mismatch *)
           match goal with |- context [notify_attempts n event ?s1] =>
             destruct (IH s1) as (b & s' & tr & k & Hrun & Htr & Hd & Hk & Hl & _ & Hc)
           end.
           simpl in Htr, Hd, Hc. rewrite <- !app_assoc in Htr.
           eexists b, s', _, (S k).
           split; [exact Hrun|]. split; [exact Htr|].
           unfold datagrams in *. simpl.
           rewrite Hd. split; [reflexivity|]. split; [lia|]. split.
           { repeat (constructor; [split; discriminate|]). exact Hl. }
           split; [intros [H|H]; congruence|]. exact Hc.
      * (* no reply *)
        match goal with |- context [notify_attempts n event ?s1] =>
          destruct (IH s1) as (b & s' & tr & k & Hrun & Htr & Hd & Hk & Hl & _ & Hc)
        end.
        simpl in Htr, Hd, Hc. rewrite <- !app_assoc in Htr.
        eexists b, s', _, (S k).
        split; [exact Hrun|]. split; [exact Htr|].
        unfold datagrams in *. simpl.
        rewrite Hd. split; [reflexivity|]. split; [lia|]. split.
        { repeat (constructor; [split; discriminate|]). exact Hl. }
        split; [intros [H|H]; congruence|]. exact Hc.
    + (* the send failed *)
      match goal with |- context [notify_attempts n event ?s1] =>
        destruct (IH s1) as (b & s' & tr & k & Hrun & Htr & Hd & Hk & Hl & Hq & Hc)
      end.
      simpl in Htr, Hd, Hc, Hq. rewrite <- !app_assoc in Htr.
      eexists b, s', _, (S k).
      split; [exact Hrun|]. split; [exact Htr|].
      unfold datagrams in *. simpl.
      rewrite Hd. split; [reflexivity|]. split; [lia|]. split.
      { repeat (constructor; [split; discriminate|]). exact Hl. }
      split; [|exact Hc].
      intros Hcase. destruct (Hq Hcase) as (Hr & Hrest).
      split; [|exact Hrest].
      intros [H|[H|H]]; try discriminate. now apply Hr.
Qed.

End RoundTripAlways.

Lemma keeps_link_no_open (tr : list Event) :
  Forall keeps_link tr -> occurrences is_open tr = 0%nat.
Proof.
  unfold occurrences. induction 1 as [|e tr [Ho _] _ IH]; [reflexivity|].
  destruct e; simpl; try exact IH. congruence.
Qed.

Section RoundTripTheorems.

Context {cfg : Config} {hw : Hardware} {lib : Library}.

#[local] Arguments notifyServer : simpl never.

Lemma notifyServer_run (event : Z) (key payload : option (list ascii))
    (s : Logger) :
  exists b s' tr k,
    notifyServer event key payload s = Ret b s'
    /\ trace s' = trace s ++ tr
    /\ datagrams tr
       = repeat (Cache.buffer (netbuf (request_prepared event key payload s))) k
    /\ (k <= 3)%nat
    /\ Forall keeps_link tr
    /\ (is_net_ble = true \/ uint8 event = EVENT_ACK ->
        ~ In EvNetReceive tr /\ connErrors s' = connErrors s
        /\ feedid s' = feedid s /\ m_serverName s' = m_serverName s)
    /\ connErrors s'
       = (if b && negb is_net_ble && negb (uint8 event =? EVENT_ACK)
          then 0 else connErrors s).
Proof.
  rewrite notifyServer_eq.
  destruct (notify_attempts_run 3 (uint8 event)
              (request_prepared event key payload s))
    as (b & s' & tr & k & Hrun & Htr & Hd & Hk & Hl & Hq & Hc).
  simpl in Htr. rewrite <- app_assoc in Htr.
  exists b, s', (EvCall "millis" :: tr), k.
  split; [exact Hrun|]. split; [exact Htr|]. split; [exact Hd|].
  split; [exact Hk|]. split.
  { constructor; [split; discriminate | exact Hl]. }
  split; [|exact Hc].
  intros Hcase. destruct (Hq Hcase) as (Hr & Hrest).
  split; [|exact Hrest].
  intros [H|H]; [discriminate | now apply Hr].
Qed.

(** X9.  [notifyServer] always returns, after at most 3 sends, and every
    send carries the same datagram: the request is built once, with one
    timestamp, and resent unchanged.  It never opens or closes the
    link. *)
Theorem notifyServer_resends_one_datagram (event : Z)
    (key payload : option (list ascii)) (s : Logger) :
  exists b s' k,
    notifyServer event key payload s = Ret b s'
    /\ (k <= 3)%nat
    /\ datagrams (emitted s (Ret b s'))
       = repeat (Cache.buffer (netbuf (request_prepared event key payload s))) k
    /\ Forall keeps_link (emitted s (Ret b s')).
Proof.
  destruct (notifyServer_run event key payload s)
    as (b & s' & tr & k & Hrun & Htr & Hd & Hk & Hl & _).
  exists b, s', k. rewrite (emitted_app _ _ _ _ Htr). auto.
Qed.

(** X10.  The connection error counter after [notifyServer]: reset to 0
    by a completed round trip, left as it was by a failure, and also left
    as it was by a success that awaits no reply (an ACK, or any request
    over BLE). *)
Theorem notifyServer_error_counter (event : Z)
    (key payload : option (list ascii)) (s : Logger) :
  exists b s',
    notifyServer event key payload s = Ret b s'
    /\ connErrors s'
       = (if b && negb is_net_ble && negb (uint8 event =? EVENT_ACK)
          then 0 else connErrors s).
Proof.
  destruct (notifyServer_run event key payload s)
    as (b & s' & tr & k & Hrun & _ & _ & _ & _ & _ & Hc).
  exists b, s'. auto.
Qed.

(** X11.  An ACK is fire and forget: [notifyServer] never reads a reply
    for it, and leaves the feed identifier, the server name and the error
    counter alone. *)
Theorem ack_awaits_no_reply (event : Z) (key payload : option (list ascii))
    (s : Logger) :
  uint8 event = EVENT_ACK ->
  exists b s',
    notifyServer event key payload s = Ret b s'
    /\ ~ In EvNetReceive (emitted s (Ret b s'))
    /\ connErrors s' = connErrors s
    /\ feedid s' = feedid s
    /\ m_serverName s' = m_serverName s.
Proof.
  intros Hack.
  destruct (notifyServer_run event key payload s)
    as (b & s' & tr & k & Hrun & Htr & _ & _ & _ & Hq & _).
  exists b, s'. rewrite (emitted_app _ _ _ _ Htr).
  split; [exact Hrun|]. apply Hq. now right.
Qed.

Lemma notify_attempts_outside (attempts : nat) (event : Z) :
  frame outside_round_trip (notify_attempts attempts event).
Proof.
  induction attempts as [|n IH]; simpl; unfold netSend, netReceive, login_reply;
    frame_auto.
Qed.

Lemma notifyServer_outside (event : Z) (key payload : option (list ascii)) :
  frame outside_round_trip (notifyServer event key payload).
Proof.
  unfold notifyServer, millis. frame_auto. apply notify_attempts_outside.
Qed.

Lemma login_attempts_outside (attempts : nat) (data : list ascii) :
  frame outside_round_trip (login_attempts attempts data).
Proof.
  induction attempts as [|n IH]; simpl; unfold netOpen, netClose; frame_auto;
    apply notifyServer_outside.
Qed.

Lemma login_outside : frame outside_round_trip login.
Proof.
  unfold login, login_data. frame_auto; apply login_attempts_outside.
Qed.

(** X12.  A round trip and a login change nothing but the request
    buffer, the feed identifier, the server name and the error counter:
    the readiness flags, the LED mode, the command token, the pending
    serial command, the trip data, the timers, the transmit counter, the
    sample cache and the rotation counter are as before, however the run
    ends. *)
Theorem round_trip_touches_no_sample (event : Z)
    (key payload : option (list ascii)) :
  frame outside_round_trip (notifyServer event key payload)
  /\ frame outside_round_trip login.
Proof. split; [apply notifyServer_outside | apply login_outside]. Qed.

(** Every run of the login loop. *)
Lemma login_attempts_run (attempts : nat) (data : list ascii) (s : Logger) :
  exists b s' tr,
    login_attempts attempts data s = Ret b s'
    /\ trace s' = trace s ++ tr
    /\ (occurrences is_open tr <= attempts)%nat
    /\ (occurrences is_send tr <= 3 * attempts)%nat.
Proof.
  revert s; induction attempts as [|n IH]; intros s.
  - exists false, s, []. simpl. rewrite app_nil_r. auto.
  - cbn [login_attempts]. unfold netOpen, netClose. run.
    destruct (hw_netOpen (tick s)) eqn:Hopen; simpl.
    + match goal with |- context [notifyServer ?e ?k ?p ?s1] =>
        destruct (notifyServer_run e k p s1)
          as (b2 & s2 & tr2 & k2 & Hrun2 & Htr2 & Hd2 & Hk2 & Hl2 & _)
      end.
      rewrite Hrun2. simpl in Htr2.
      pose proof (keeps_link_no_open _ Hl2) as Ho2.
      assert (Hs2 : occurrences is_send tr2 = k2)
        by (rewrite occurrences_send_datagrams, Hd2; apply repeat_length).
      destruct b2; simpl.
      * eexists true, _, _. split; [reflexivity|]. simpl.
        rewrite Htr2. rewrite <- !app_assoc. split; [reflexivity|].
        rewrite !occurrences_app, Ho2, Hs2. unfold occurrences. simpl.
        split; lia.
      * match goal with |- context [login_attempts n data ?s3] =>
          destruct (IH s3) as (b & s' & tr & Hrun & Htr & Ho & Hs)
        end.
        simpl in Htr. rewrite Htr2 in Htr. rewrite <- !app_assoc in Htr.
        eexists b, s', _. split; [exact Hrun|]. split; [exact Htr|].
        rewrite !occurrences_app, Ho2, Hs2. unfold occurrences in *. simpl.
        split; lia.
    + match goal with |- context [login_attempts n data ?s3] =>
        destruct (IH s3) as (b & s' & tr & Hrun & Htr & Ho & Hs)
      end.
      simpl in Htr. rewrite <- !app_assoc in Htr.
      eexists b, s', _. split; [exact Hrun|]. split; [exact Htr|].
      rewrite !occurrences_app. unfold occurrences in *. simpl. split; lia.
Qed.

(** X13.  With a WiFi or cellular link, [login] always returns, having
    opened the link at most 3 times and sent at most 9 datagrams,
    whatever the transport and the server do. *)
Theorem login_is_bounded (s : Logger) :
  is_net_wifi_or_sim = true ->
  exists b s',
    login s = Ret b s'
    /\ (occurrences is_open (emitted s (Ret b s')) <= 3)%nat
    /\ (occurrences is_send (emitted s (Ret b s')) <= 9)%nat.
Proof.
  intros Hdev.
  assert (Hlogin : login = (data <- login_data ;; login_attempts 3 data)).
  { unfold login, is_net_wifi_or_sim in *. now destruct NET_DEVICE. }
  rewrite Hlogin. unfold bind.
  destruct (login_data_quiet s) as (data & s1 & Hdata & _ & tr1 & Htr1 & Hs1 & Ho1).
  rewrite Hdata.
  destruct (login_attempts_run 3 data s1) as (b & s' & tr & Hrun & Htr & Ho & Hs).
  exists b, s'. split; [exact Hrun|].
  rewrite Htr1, <- app_assoc in Htr.
  rewrite (emitted_app _ _ _ _ Htr), !occurrences_app, Hs1, Ho1. simpl. lia.
Qed.

Lemma login_attempts_success (attempts : nat) (data : list ascii)
    (s s' : Logger) :
  is_net_ble = false ->
  uint8 EVENT_LOGIN <> EVENT_ACK ->
  login_attempts attempts data s = Ret true s' ->
  exists k bytes data',
    hw_netReceive k = Some bytes
    /\ verifyChecksum (bytes ++ [NUL]) = (true, data')
    /\ contains data' (lit "EV=" ++ utoa (uint8 EVENT_LOGIN)) = true.
Proof.
  intros Hble Hack. revert s; induction attempts as [|n IH]; intros s.
  - discriminate.
  - cbn [login_attempts]. unfold netOpen, netClose. run.
    destruct (hw_netOpen (tick s)); simpl; [|apply IH].
    match goal with |- context [notifyServer ?e ?k ?p ?s1] =>
      destruct (notifyServer e k p s1) as [[|] s2|why s2] eqn:Hrun
    end; simpl.
    + intros _. rewrite notifyServer_eq in Hrun.
      now apply notify_attempts_success in Hrun.
    + apply IH.
    + discriminate.
Qed.

(** X14.  [login] succeeds only if some reply of the server passed the
    checksum and echoed the LOGIN event. *)
Theorem login_success_needs_echo (s s' : Logger) :
  is_net_wifi_or_sim = true ->
  uint8 EVENT_LOGIN <> EVENT_ACK ->
  login s = Ret true s' ->
  exists k bytes data',
    hw_netReceive k = Some bytes
    /\ verifyChecksum (bytes ++ [NUL]) = (true, data')
    /\ contains data' (lit "EV=" ++ utoa (uint8 EVENT_LOGIN)) = true.
Proof.
  intros Hdev Hack.
  assert (Hlogin : login = (data <- login_data ;; login_attempts 3 data)).
  { unfold login, is_net_wifi_or_sim in *. now destruct NET_DEVICE. }
  rewrite Hlogin. unfold bind.
  destruct (login_data s) as [data s1|why s1]; [|discriminate].
  apply login_attempts_success; [|exact Hack].
  unfold is_net_ble, is_net_wifi_or_sim in *. now destruct NET_DEVICE.
Qed.

End RoundTripTheorems.

(** ** Setup *)

Lemma outcome_seq {A B C} (proj : Logger -> B) (Q : B -> C -> Logger -> Prop)
    (m : M A) (k : A -> M C) :
  frame proj m -> (forall a, outcome proj Q (k a)) -> outcome proj Q (bind m k).
Proof.
  intros Hm Hk s. unfold bind. specialize (Hm s).
  destruct (m s) as [a s1|why s1]; [|exact I].
  simpl in Hm. specialize (Hk a s1). now rewrite Hm in Hk.
Qed.

Lemma outcome_ret {A B} (proj : Logger -> B) (Q : B -> A -> Logger -> Prop)
    (a : A) :
  (forall s, Q (proj s) a s) -> outcome proj Q (ret a).
Proof. intros H s. apply H. Qed.

Lemma frame_map {A B C} (proj : Logger -> B) (f : B -> C) (m : M A) :
  frame proj m -> frame (fun s => f (proj s)) m.
Proof. intros H s. now rewrite H. Qed.

Lemma session_bits_setState (flags : Z) (s : Logger) :
  Z.testbit flags 5 = false -> Z.testbit flags 6 = false ->
  session_bits (set_m_state (uint8 (Z.lor (m_state s) flags)) s) = session_bits s.
Proof.
  intros H5 H6. unfold session_bits, set_m_state. cbn [m_state].
  rewrite !uint8_bit, !Z.lor_spec, H5, H6. simpl.
  now rewrite !orb_false_r, !andb_true_r.
Qed.

Lemma checkState_bit (n : Z) (s : Logger) :
  0 <= n -> checkState_in s (2 ^ n) = Z.testbit (m_state s) n.
Proof.
  intros Hn. unfold checkState_in.
  assert (H : Z.land (m_state s) (2 ^ n)
              = if Z.testbit (m_state s) n then 2 ^ n else 0).
  { apply Z.bits_inj'. intros k Hk. rewrite Z.land_spec.
    rewrite Z.pow2_bits_eqb by lia.
    destruct (Z.testbit (m_state s) n) eqn:Hb.
    - rewrite Z.pow2_bits_eqb by lia.
      destruct (Z.eqb_spec n k) as [<-|Hne]; [now rewrite Hb | apply andb_false_r].
    - rewrite Z.bits_0.
      destruct (Z.eqb_spec n k) as [<-|Hne]; [now rewrite Hb | apply andb_false_r]. }
  rewrite H. destruct (Z.testbit (m_state s) n).
  - apply Z.eqb_refl.
  - apply Z.eqb_neq. pose proof (Z.pow_pos_nonneg 2 n). lia.
Qed.

(** Frames of the two session flags. *)
Ltac session_frame_step :=
  match goal with
  | |- frame session_bits (setState _) =>
      apply frame_modify; intros; apply session_bits_setState; reflexivity
  | |- frame session_bits (modify _) => apply frame_modify; intros; reflexivity
  | |- frame session_bits (emit _) => apply frame_emit; intros; reflexivity
  | |- frame session_bits (call _ _) => apply frame_call; intros; reflexivity
  | |- frame session_bits (Serial_print _) =>
      apply frame_emit; intros; reflexivity
  | |- frame session_bits (Serial_println _) =>
      apply frame_emit; intros; reflexivity
  | |- frame session_bits (blePrint _) => apply frame_emit; intros; reflexivity
  | |- frame _ (bind _ _) => apply frame_bind; [|intros]
  | |- frame _ (ret _) => apply frame_ret
  | |- frame _ (gets _) => apply frame_gets
  | |- frame _ (checkState _) => apply frame_gets
  | |- frame _ (when _ _) => apply frame_when
  | |- frame _ (match ?x with _ => _ end) => destruct x
  | |- frame _ (if ?b then _ else _) => destruct b
  | H : _ |- _ => solve [apply H]
  end.

(** Decompose an [outcome] goal: every step but the last is framed. *)
Ltac setup_step :=
  match goal with
  | |- outcome _ _ (bind _ _) =>
      apply outcome_seq; [repeat session_frame_step|intros]
  | |- outcome _ _ (ret false) => apply outcome_ret; intros; reflexivity
  | |- outcome _ _ (match ?x with _ => _ end) => destruct x
  | |- outcome _ _ (if ?b then _ else _) => destruct b
  | H : _ |- _ => solve [apply H]
  end.

Section Setup.

Context {cfg : Config} {hw : Hardware} {lib : Library}.

#[local] Arguments login : simpl never.

Lemma login_session_frame : frame session_bits login.
Proof.
  apply (frame_map m_state (fun m => (Z.testbit m 5, Z.testbit m 6))).
  apply login_keeps_state.
Qed.

Lemma gps_wait_session_frame (polls : nat) (date : Z) :
  frame session_bits (gps_wait polls date).
Proof.
  revert date; induction polls as [|n IH]; intros date; cbn [gps_wait];
    repeat session_frame_step.
Qed.

Lemma wifi_attempts_session_frame (attempts : nat) :
  frame session_bits (wifi_attempts attempts).
Proof.
  induction attempts as [|n IH]; cbn [wifi_attempts];
    repeat session_frame_step.
Qed.

Lemma all_good_leaf :
  outcome session_bits established (setState STATE_ALL_GOOD ;; ret true).
Proof.
  intros s. unfold bind, setState, modify, ret, established.
  split; [reflexivity|].
  unfold session_bits, set_m_state. cbn [m_state fst].
  rewrite !uint8_bit, !Z.lor_spec.
  change (Z.testbit STATE_ALL_GOOD 5) with false.
  change (Z.testbit STATE_ALL_GOOD 6) with true.
  now rewrite orb_false_r, orb_true_r, andb_true_r.
Qed.

Lemma connected_then (tail : M bool) :
  outcome session_bits established tail ->
  outcome session_bits setup_result (setState STATE_CONNECTED ;; tail).
Proof.
  intros Htail s. unfold bind at 1. unfold setState at 1, modify at 1.
  set (s1 := set_m_state (uint8 (Z.lor (m_state s) STATE_CONNECTED)) s).
  assert (H5 : fst (session_bits s1) = true).
  { unfold s1, session_bits, set_m_state. cbn [m_state fst].
    rewrite uint8_bit, Z.lor_spec.
    change (Z.testbit STATE_CONNECTED 5) with true.
    now rewrite orb_true_r. }
  specialize (Htail s1). destruct (tail s1) as [ok s'|why s']; [|exact I].
  destruct Htail as [-> Hbits]. unfold setup_result. now rewrite Hbits, H5.
Qed.

Ltac established_step :=
  first
    [ apply all_good_leaf
    | match goal with
      | |- outcome _ _ (bind _ _) =>
          apply outcome_seq; [repeat session_frame_step|intros]
      | |- outcome _ _ (match ?x with _ => _ end) => destruct x
      | |- outcome _ _ (if ?b then _ else _) => destruct b
      end ].

Lemma setup_session_outcome (csq : Z) :
  outcome session_bits setup_result (setup_session csq).
Proof.
  pose proof login_session_frame as Hlogin.
  pose proof gps_wait_session_frame as Hgps.
  unfold setup_session.
  do 4 (apply outcome_seq; [repeat session_frame_step|intros]).
  destruct a2; cbn [negb].
  - apply connected_then. unfold millis. repeat established_step.
  - apply outcome_ret. intros; reflexivity.
Qed.

Lemma setup_link_up_outcome : outcome session_bits setup_result setup_link_up.
Proof.
  pose proof setup_session_outcome as Hs.
  unfold setup_link_up. repeat setup_step.
Qed.

Lemma setup_network_outcome : outcome session_bits setup_result setup_network.
Proof.
  pose proof setup_link_up_outcome as Hs.
  pose proof wifi_attempts_session_frame as Hw.
  unfold setup_network. repeat setup_step.
Qed.

(** X15.  What [setup] leaves in the readiness flags when it returns:
    AllSystemsGo is set exactly when it returns success; SessionConnected
    is set on success and is what it was before on failure. *)
Theorem setup_outcome (s : Logger) :
  match setup s with
  | Ret ok s' =>
      checkState_in s' STATE_ALL_GOOD = ok
      /\ checkState_in s' STATE_CONNECTED
         = (if ok then true else checkState_in s STATE_CONNECTED)
  | Abort _ _ => True
  end.
Proof.
  pose proof setup_network_outcome as Hn.
  assert (Hrest : forall rest : M bool,
             outcome session_bits setup_result rest ->
             forall s0,
               match (clearState STATE_ALL_GOOD ;; rest) s0 with
               | Ret ok s' =>
                   session_bits s'
                   = (if ok then (true, true)
                      else (Z.testbit (m_state s0) 5, false))
               | Abort _ _ => True
               end).
  { intros rest Hr s0. unfold bind at 1. unfold clearState at 1, modify at 1.
    set (s1 := set_m_state _ s0).
    assert (H1 : session_bits s1 = (Z.testbit (m_state s0) 5, false)).
    { unfold s1, session_bits, set_m_state. cbn [m_state].
      rewrite !uint8_bit, !Z.land_spec, !Z.lnot_spec by lia.
      change (Z.testbit STATE_ALL_GOOD 5) with false.
      change (Z.testbit STATE_ALL_GOOD 6) with true.
      cbn [negb]. now rewrite andb_false_r, !andb_true_r. }
    specialize (Hr s1). destruct (rest s1) as [ok s'|why s']; [|exact I].
    unfold setup_result in Hr. rewrite H1 in Hr. now destruct ok. }
  unfold setup.
  match goal with
  | |- match bind _ ?k s with _ => _ end =>
      assert (Hsetup : outcome session_bits setup_result (k tt))
        by (cbv beta; repeat setup_step);
      pose proof (Hrest (k tt) Hsetup s) as H; cbv beta in H
  end.
  match goal with
  | |- match ?run with _ => _ end => destruct run as [ok s'|why s']; [|exact I]
  end.
  change STATE_ALL_GOOD with (2 ^ 6). change STATE_CONNECTED with (2 ^ 5).
  rewrite !checkState_bit by lia.
  unfold session_bits in H.
  destruct ok; apply pair_equal_spec in H; destruct H as [H5 H6];
    rewrite ?H5, ?H6; auto.
Qed.

Lemma wifi_attempts_keeps_distance (attempts : nat) :
  frame distance (wifi_attempts attempts).
Proof. induction attempts as [|n IH]; cbn [wifi_attempts]; frame_auto. Qed.

Lemma gps_wait_keeps_distance (polls : nat) (date : Z) :
  frame distance (gps_wait polls date).
Proof.
  revert date; induction polls as [|n IH]; intros date; cbn [gps_wait];
    frame_auto.
Qed.

Lemma login_keeps_distance : frame distance login.
Proof.
  exact (frame_map outside_round_trip
           (fun '(_, _, _, _, _, _, d, _, _, _, _, _) => d) login login_outside).
Qed.

(** X16.  [setup] resets the trip distance, and it stays 0 to the end of
    the run, whether setup succeeds, fails or stops. *)
Theorem setup_resets_distance (s : Logger) : distance (final (setup s)) = 0.
Proof.
  pose proof login_keeps_distance as Hl.
  pose proof gps_wait_keeps_distance as Hg.
  pose proof (wifi_attempts_keeps_distance 3) as Hw.
  unfold setup. unfold bind at 1. unfold clearState at 1, modify at 1.
  unfold bind at 1. unfold modify at 1.
  match goal with
  | |- distance (final (?rest ?s1)) = 0 =>
      assert (Hframe : frame distance rest)
        by (unfold setup_network, setup_link_up, setup_session, millis;
            frame_auto);
      rewrite (Hframe s1)
  end.
  reflexivity.
Qed.

#[local] Instance before_link_preorder : PreOrder before_link.
Proof.
  split.
  - intros s. split; reflexivity.
  - intros s1 s2 s3 [E1 C1] [E2 C2]. split.
    + now transitivity s2.
    + congruence.
Qed.

Ltac before_link_side :=
  split;
  [ first
      [ exists []; split; [simpl; now rewrite app_nil_r | constructor]
      | eexists [_]; split;
        [reflexivity
        | constructor;
          [repeat split; first [reflexivity | discriminate] | constructor]] ]
  | first
      [ reflexivity
      | refine (proj1 (checkState_disjoint _ _ _ _ _));
        [unfold STATE_OBD_READY; lia | reflexivity]
      | refine (proj2 (checkState_disjoint _ _ _ _ _));
        [unfold STATE_OBD_READY; lia | reflexivity] ] ].

(** X17.  When the vehicle bus is enabled and not yet ready and its
    initialisation fails, [setup] returns failure at once: nothing has
    touched the network (no begin, setup, open, send, receive or close)
    and the vehicle-bus flag is still clear. *)
Theorem obd_failure_is_fatal (s : Logger) :
  ENABLE_OBD = true ->
  checkState_in s STATE_OBD_READY = false ->
  (forall k, hw_obdInit k = false) ->
  exists s',
    setup s = Ret false s'
    /\ Forall before_network (emitted s (Ret false s'))
    /\ checkState_in s' STATE_OBD_READY = false.
Proof.
  intros Hobd Hready Hinit.
  unfold setup.
  match goal with
  | |- exists s', bind ?c1 (fun _ => bind ?c2 (fun _ => bind ?c3 ?k)) s = _ /\ _ =>
      change (bind c1 (fun _ => bind c2 (fun _ => bind c3 k)) s)
        with (bind (c1 ;; c2 ;; c3) k s);
      assert (Hpre : total before_link (fun _ => True) (c1 ;; c2 ;; c3))
  end.
  { repeat total_step before_link_side. }
  destruct (Hpre s) as ([] & s1 & Hrun & _ & (tr & Htr & Hoff) & Hflag).
  unfold bind at 1. rewrite Hrun. rewrite Hobd. run.
  rewrite Hflag, Hready. simpl. rewrite Hinit. simpl.
  eexists. split; [reflexivity|]. split.
  - erewrite emitted_app
      by (simpl; rewrite Htr, <- !app_assoc; reflexivity).
    apply Forall_app. split; [exact Hoff|].
    repeat constructor; discriminate.
  - simpl. unfold checkState_in in *. simpl in *. now rewrite Hflag.
Qed.

End Setup.

(** ** The transmission step of loop *)

Section Transmit.

Context {cfg : Config} {hw : Hardware} {lib : Library}.

Lemma transmit_stalled (t : Z) (s : Logger) :
  sync_overdue t s = true ->
  loop_transmit t s
  = Ret tt (set_connErrors (connErrors s + 1)
              (set_trace (trace s ++ [EvSerial (lit "NO SYNC" ++ CRLF)]) s)).
Proof.
  intros Hsync. unfold sync_overdue in Hsync.
  unfold loop_transmit. run. rewrite Hsync. reflexivity.
Qed.

(** X18.  Once the server sync is overdue the transmission step stalls:
    round after round it only prints the NO SYNC notice.  No datagram is
    sent although samples may be waiting, the link is not reopened, and
    the sync time that would end the stall is left as it was, like the
    cache, the send time and the transmit counter. *)
Theorem sync_timeout_stalls (ts : list Z) (s : Logger) :
  Forall (fun t => sync_overdue t s = true) ts ->
  exists s',
    transmit_rounds ts s = Ret tt s'
    /\ emitted s (Ret tt s')
       = repeat (EvSerial (lit "NO SYNC" ++ CRLF)) (List.length ts)
    /\ lastSyncTime s' = lastSyncTime s
    /\ lastSentTime s' = lastSentTime s
    /\ cache s' = cache s
    /\ txCount s' = txCount s
    /\ tick s' = tick s.
Proof.
  intros Hts.
  enough (H : exists s',
             transmit_rounds ts s = Ret tt s'
             /\ trace s' = trace s
                           ++ repeat (EvSerial (lit "NO SYNC" ++ CRLF))
                                (List.length ts)
             /\ lastSyncTime s' = lastSyncTime s
             /\ lastSentTime s' = lastSentTime s
             /\ cache s' = cache s
             /\ txCount s' = txCount s
             /\ tick s' = tick s).
  { destruct H as (s' & Hrun & Htr & Hrest). exists s'.
    split; [exact Hrun|]. split; [|exact Hrest].
    now apply emitted_app. }
  revert s Hts. induction ts as [|t ts IH]; intros s Hts.
  - exists s. cbn [transmit_rounds List.length repeat]. rewrite app_nil_r.
    repeat split; reflexivity.
  - inversion Hts as [|? ? Ht Hrest]; subst.
    cbn [transmit_rounds]. unfold bind at 1. rewrite (transmit_stalled t s Ht).
    match goal with |- context [transmit_rounds ts ?s1] =>
      destruct (IH s1) as (s' & Hrun & Htr & Hsync & Hsent & Hcache & Htx & Htick)
    end.
    { eapply Forall_impl; [|exact Hrest].
      intros t' Ht'. unfold sync_overdue in *. destruct s; exact Ht'. }
    exists s'. split; [exact Hrun|].
    rewrite Htr, Hsync, Hsent, Hcache, Htx, Htick.
    destruct s; cbn. rewrite <- app_assoc. repeat split; reflexivity.
Qed.

(** X19.  The transmission step always returns, and it sends exactly when
    the server sync is not overdue, the sending interval has elapsed and
    samples are waiting: then one datagram, the sealed cache; otherwise
    none. *)
Theorem transmit_sends_when_due (t : Z) (s : Logger) :
  exists s',
    loop_transmit t s = Ret tt s'
    /\ datagrams (emitted s (Ret tt s'))
       = if negb (sync_overdue t s) && send_due t s
         then [Cache.buffer (Cache.tailer (cache s))]
         else [].
Proof.
  unfold sync_overdue, send_due.
  unfold loop_transmit, getConnErrors, netSend, netClose, netOpen. run.
  destruct (negb (SERVER_SYNC_INTERVAL =? 0)
            && (uint32 (SERVER_SYNC_INTERVAL * 1000)
                <=? uint32 (t - lastSyncTime s))); simpl.
  { eexists. split; [reflexivity|].
    erewrite emitted_app by (simpl; reflexivity). reflexivity. }
  destruct ((uint32 DATA_SENDING_INTERVAL <=? uint32 (t - lastSentTime s))
            && (Cache.samples (cache s) >? 0)); simpl.
  2: { eexists. split; [reflexivity|]. unfold emitted. simpl.
       now rewrite skipn_all. }
  destruct (m_ledMode s =? 0) eqn:Hled; simpl;
    destruct (hw_netSend (tick s)); simpl;
    destruct has_storage; simpl; rewrite ?Hled; simpl;
    match goal with
    | |- context [MAX_CONN_ERRORS_RECONNECT <=? ?e] =>
        destruct (MAX_CONN_ERRORS_RECONNECT <=? e); simpl
    end;
    (eexists; split; [reflexivity|];
     erewrite emitted_app by (simpl; rewrite <- ?app_assoc; reflexivity);
     reflexivity).
Qed.

(** X20.  A send cycle in which the send succeeds: the error counter is
    cleared, the transmit counter advances by one, the cache is purged
    and opened again with the header of the current feed, so that no
    sample is waiting any more, and the send time is updated.  With a
    positive reconnection threshold the link is neither closed nor
    reopened and the sync time is left alone. *)
Theorem successful_send_rotates_cache (t : Z) (s : Logger) :
  sync_overdue t s = false ->
  send_due t s = true ->
  hw_netSend (tick s) = true ->
  0 < MAX_CONN_ERRORS_RECONNECT ->
  exists s',
    loop_transmit t s = Ret tt s'
    /\ connErrors s' = 0
    /\ txCount s' = txCount s + 1
    /\ cache s' = Cache.header (feedid s) (Cache.tailer (cache s))
    /\ Cache.samples (cache s') = 0
    /\ send_due t s' = false
    /\ lastSentTime s' = t
    /\ lastSyncTime s' = lastSyncTime s
    /\ filter is_net (emitted s (Ret tt s'))
       = [EvNetSend (Cache.buffer (Cache.tailer (cache s)))].
Proof.
  intros Hsync Hdue Hsend Hmax.
  unfold sync_overdue in Hsync. unfold send_due in *.
  unfold loop_transmit, getConnErrors, netSend, netClose, netOpen. run.
  rewrite Hsync, Hdue. simpl. 
  assert (Hno : (MAX_CONN_ERRORS_RECONNECT <=? 0) = false)
    by (apply Z.leb_gt; exact Hmax).
  destruct (m_ledMode s =? 0) eqn:Hled; simpl; rewrite Hsend; simpl;
    destruct has_storage; simpl; rewrite ?Hled; simpl; rewrite Hno; simpl;
    (eexists; split; [reflexivity|]; simpl;
     repeat split; try reflexivity;
     [ apply andb_false_r
     | erewrite emitted_app by (simpl; rewrite <- ?app_assoc; reflexivity);
       reflexivity ]).
Qed.

End Transmit.

(** ** The incoming datagram of loop *)

Section Incoming.

Context {cfg : Config} {hw : Hardware} {lib : Library}.

Lemma notifyServer_keeps_outside_incoming (event : Z)
    (key payload : option (list ascii)) :
  frame outside_incoming (notifyServer event key payload).
Proof.
  exact (frame_map outside_round_trip
           (fun '(_, _, _, sc, ls, lst, d, sent, _, tx, c, n) =>
              (ls, lst, d, sent, tx, c, n, sc))
           _ (notifyServer_outside event key payload)).
Qed.

Lemma ack_attempts_keeps_outside_incoming (attempts : nat) (buf : list ascii) :
  frame outside_incoming (ack_attempts attempts buf).
Proof.
  pose proof notifyServer_keeps_outside_incoming as Hn.
  induction attempts as [|n IH]; cbn [ack_attempts]; frame_auto.
Qed.

Lemma processCommand_keeps_outside_incoming (data : list ascii) :
  frame outside_incoming (processCommand data).
Proof.
  pose proof ack_attempts_keeps_outside_incoming as Ha.
  unfold processCommand, executeCommand. frame_auto.
Qed.

(** X21.  Handling an incoming datagram, whatever it holds and however
    the run ends, leaves the collected data alone: the sample cache, the
    trip distance with the last speed and its time, the send time, the
    transmit counter, the rotation counter and the pending serial
    command.  The sync time afterwards is the one before or the time of
    this iteration. *)
Theorem incoming_keeps_samples (t : Z) (s : Logger) :
  outside_incoming (final (loop_incoming t s)) = outside_incoming s
  /\ (lastSyncTime (final (loop_incoming t s)) = lastSyncTime s
      \/ lastSyncTime (final (loop_incoming t s)) = t).
Proof.
  split.
  - revert s. change (frame outside_incoming (loop_incoming t)).
    pose proof processCommand_keeps_outside_incoming as Hp.
    unfold loop_incoming, netReceive. frame_auto.
  - assert (Hc : forall data, frame lastSyncTime (processCommand data)).
    { intros data.
      assert (Hn : forall e k p, frame lastSyncTime (notifyServer e k p)).
      { intros e k p.
        exact (frame_map outside_round_trip
                 (fun '(_, _, _, _, _, _, _, _, sync, _, _, _) => sync)
                 _ (notifyServer_outside e k p)). }
      assert (Ha : forall n buf, frame lastSyncTime (ack_attempts n buf)).
      { intros n buf. induction n as [|n IH]; cbn [ack_attempts]; frame_auto. }
      unfold processCommand, executeCommand. frame_auto. }
    unfold loop_incoming, netReceive. run.
    destruct (hw_netReceive (tick s)) as [bytes|]; simpl; [|now left].
    destruct (verifyChecksum (bytes ++ [NUL])) as [ok data'].
    destruct ok; simpl; [|now left].
    destruct (strstr data' _) as [p|]; simpl; [|now left].
    destruct (_ =? EVENT_COMMAND).
    + left. unfold bind.
      match goal with |- context [processCommand ?d ?s1] =>
        pose proof (Hc d s1) as H; destruct (processCommand d s1)
      end; simpl in *; exact H.
    + destruct (_ =? EVENT_SYNC); simpl; [now right | now left].
Qed.

End Incoming.

(** ** Polling the vehicle bus *)

Lemma pid_reads_app (a b : list Event) :
  pid_reads (a ++ b) = pid_reads a ++ pid_reads b.
Proof. unfold pid_reads. apply flat_map_app. Qed.

Section PollingRounds.

Context {cfg : Config} {hw : Hardware} {lib : Library}.

Lemma poll_pids_run (pids : list Z) (s : Logger) :
  exists s' tr,
    poll_pids pids s = Ret tt s'
    /\ trace s' = trace s ++ tr
    /\ pid_reads tr = pids
    /\ tick s' = (tick s + List.length pids)%nat
    /\ count s' = count s
    /\ distance s' = distance s.
Proof.
  revert s; induction pids as [|pid rest IH]; intros s.
  - exists s, []. cbn [poll_pids]. unfold ret. rewrite app_nil_r, Nat.add_0_r.
    repeat split; reflexivity.
  - cbn [poll_pids]. unfold readPID, cache_log, delay. run.
    destruct (hw_readPID (tick s) pid) as [value|]; simpl;
      match goal with |- context [poll_pids rest ?s1] =>
        destruct (IH s1) as (s' & tr & Hrun & Htr & Hreads & Htick & Hcount & Hdist)
      end;
      rewrite Hrun; simpl in *;
      exists s', (EvReadPID pid :: EvDelay 1 :: tr);
      (split; [reflexivity|]);
      rewrite Htr, Htick, Hcount, Hdist, <- ?app_assoc;
      (split; [reflexivity|]);
      (split; [unfold pid_reads in *; simpl; now rewrite Hreads|]);
      repeat split; try reflexivity; lia.
Qed.

(** X22.  The polling loop asks for every parameter of its list once, in
    the order of the list, whether the reads succeed or fail: a failed
    read skips one sample, not the rest of the list. *)
Theorem poll_pids_reads_each_once (pids : list Z) (s : Logger) :
  exists s',
    poll_pids pids s = Ret tt s'
    /\ pid_reads (emitted s (Ret tt s')) = pids
    /\ tick s' = (tick s + List.length pids)%nat.
Proof.
  destruct (poll_pids_run pids s) as (s' & tr & Hrun & Htr & Hreads & Htick & _).
  exists s'. split; [exact Hrun|]. split; [|exact Htick].
  now rewrite (emitted_app s s' tt tr Htr).
Qed.

#[local] Arguments poll_pids : simpl never.

(** X23.  A polling round with a successful speed read, in an iteration
    that is not a tier-2 one: the speed and the three fast parameters
    are requested, in this order, and nothing else; the rotation counter
    advances by one, modulo 256. *)
Theorem regular_polling_round (s : Logger) (v : Z) :
  hw_readPID (tick s) PID_SPEED = Some v ->
  int32 v <> -1 ->
  count s mod 50 <> 0 ->
  exists s',
    processOBD s = Ret tt s'
    /\ pid_reads (emitted s (Ret tt s'))
       = PID_SPEED :: map uint8 [PID_RPM; PID_ENGINE_LOAD; PID_THROTTLE]
    /\ count s' = uint8 (count s + 1).
Proof.
  intros Hread Hv Hcount.
  unfold processOBD. unfold bind at 1. rewrite (readSpeed_reads s v Hread).
  apply Z.eqb_neq in Hv. rewrite Hv.
  unfold cache_log, tier2_rotation. unfold bind, modify, gets, ret. cbv beta.
  match goal with |- context [poll_pids ?pids ?s1] =>
    destruct (poll_pids_run pids s1)
      as (s2 & tr & Hrun & Htr & Hreads & _ & Hc & _)
  end.
  rewrite Hrun. cbv beta iota.
  apply Z.eqb_neq in Hcount.
  assert (Hc' : count s2 = count s) by (rewrite Hc; reflexivity).
  assert (Htr' : trace s2
                 = trace s ++ [EvReadPID PID_SPEED; EvCall "millis"] ++ tr)
    by (rewrite Htr, app_assoc; reflexivity).
  clear Hc Htr Hrun.
  rewrite Hc', Hcount.
  eexists. split; [reflexivity|]. split; [|reflexivity].
  rewrite (emitted_app s _ tt ([EvReadPID PID_SPEED; EvCall "millis"] ++ tr))
    by (unfold set_count; cbn [trace]; exact Htr').
  rewrite pid_reads_app, Hreads. reflexivity.
Qed.

End PollingRounds.

(** ** The trip distance of one reading *)

Section Trapezoid.

Context {cfg : Config} {hw : Hardware}.

(** X24.  Without overflow a successful speed read adds to the trip
    distance the trapezoid between the last speed and the new one over
    the elapsed time, [(v + last) * elapsed / 7200] rounded down, and
    records the new speed and its time. *)
Theorem readSpeed_trapezoid (s : Logger) (v : Z) :
  hw_readPID (tick s) PID_SPEED = Some v ->
  -2147483648 <= v < 2147483648 ->
  0 <= v + lastSpeed s < 2147483648 ->
  0 <= lastSpeedTime s <= uint32 (hw_millis (S (tick s))) ->
  (v + lastSpeed s) * (uint32 (hw_millis (S (tick s))) - lastSpeedTime s)
  < 4294967296 ->
  0 <= distance s ->
  distance s
  + (v + lastSpeed s) * (uint32 (hw_millis (S (tick s))) - lastSpeedTime s) / 7200
  < 4294967296 ->
  exists s',
    readSpeed s = Ret v s'
    /\ distance s'
       = distance s
         + (v + lastSpeed s)
           * (uint32 (hw_millis (S (tick s))) - lastSpeedTime s) / 7200
    /\ lastSpeed s' = v
    /\ lastSpeedTime s' = uint32 (hw_millis (S (tick s))).
Proof.
  intros Hread Hv Hsum Ht Hprod Hd Hroom.
  set (t := uint32 (hw_millis (S (tick s)))) in *.
  assert (Hint : int32 v = v).
  { unfold int32, uint32.
    destruct (Z_lt_dec v 0) as [Hneg|Hpos].
    - assert (H : v mod 4294967296 = v + 4294967296)
        by (symmetry; apply (Z.mod_unique v 4294967296 (-1)); lia).
      rewrite H. destruct (Z.ltb_spec (v + 4294967296) 2147483648); lia.
    - rewrite Z.mod_small by lia.
      destruct (Z.ltb_spec v 2147483648); lia. }
  assert (Ht32 : 0 <= t < 4294967296)
    by (unfold t, uint32; apply Z.mod_pos_bound; lia).
  assert (Hinc : trip_increment v (lastSpeed s) t (lastSpeedTime s)
                 = (v + lastSpeed s) * (t - lastSpeedTime s) / 7200).
  { unfold trip_increment. rewrite uint32_int32. unfold uint32.
    rewrite (Z.mod_small (v + lastSpeed s)) by lia.
    rewrite (Z.mod_small (t - lastSpeedTime s)) by lia.
    rewrite Z.mod_small by nia.
    rewrite Z.div_div by lia. reflexivity. }
  rewrite (readSpeed_reads s v Hread), Hint. fold t.
  eexists. split; [reflexivity|].
  unfold speed_read. unfold set_lastSpeed, set_lastSpeedTime, set_distance.
  cbn [distance lastSpeed lastSpeedTime].
  destruct s; cbn [distance lastSpeed lastSpeedTime set_tick set_trace] in *.
  rewrite Hinc. unfold uint32 at 1. rewrite Z.mod_small; [auto|].
  split; [|exact Hroom].
  assert (0 <= (v + lastSpeed0) * (t - lastSpeedTime0) / 7200)
    by (apply Z.div_pos; nia).
  lia.
Qed.

End Trapezoid.

(** ** Line ends on the serial channel *)

Section SerialLines.

Context {cfg : Config} {hw : Hardware} {lib : Library}.

Lemma line_end_empties (input : list ascii) (c : ascii) (s s' : Logger) :
  is_line_end c = true ->
  loop_serial (input ++ [c]) s = Ret tt s' ->
  WString.length (serialCommand s') = 0%nat.
Proof.
  intros Hc. rewrite loop_serial_app. unfold bind at 1.
  destruct (loop_serial input s) as [[] s1|why s1]; [|discriminate].
  cbn [loop_serial]. unfold bind at 1. unfold serial_char. unfold gets at 1.
  unfold bind at 1. unfold is_line_end in Hc. rewrite Hc.
  destruct (WString.length (serialCommand s1)) as [|n] eqn:Hpending.
  - simpl. unfold ret. intros H. inversion H; subst. exact Hpending.
  - cbn [Nat.ltb Nat.leb]. unfold bind at 1.
    destruct (executeCommand _ s1) as [result s2|why s2]; [|discriminate].
    run. intros H. inversion H; subst. reflexivity.
Qed.

(** X25.  A line end that follows a line end is ignored: a line closed by
    carriage return and line feed runs its command once, and the state
    and the output are those of the line closed by one character. *)
Theorem second_line_end_ignored (input : list ascii) (c1 c2 : ascii)
    (s : Logger) :
  is_line_end c1 = true ->
  is_line_end c2 = true ->
  loop_serial (input ++ [c1; c2]) s = loop_serial (input ++ [c1]) s.
Proof.
  intros H1 H2.
  change (input ++ [c1; c2]) with (input ++ [c1] ++ [c2]).
  rewrite app_assoc, loop_serial_app. unfold bind at 1.
  destruct (loop_serial (input ++ [c1]) s) as [[] s1|why s1] eqn:Hrun;
    [|reflexivity].
  pose proof (line_end_empties input c1 s s1 H1 Hrun) as Hempty.
  cbn [loop_serial]. unfold bind at 1. unfold serial_char. unfold gets at 1.
  unfold bind at 1. unfold is_line_end in H2. rewrite H2, Hempty.
  reflexivity.
Qed.

End SerialLines.

(** ** Going to standby *)

Lemma only_clears_clearState (mask flags : Z) (s : Logger) :
  Z.land flags (Z.lnot mask) = 0 ->
  only_clears mask s (set_m_state (uint8 (Z.land (m_state s) (Z.lnot flags))) s).
Proof.
  intros Hin n. unfold set_m_state. cbn [m_state].
  rewrite uint8_bit, Z.land_spec.
  split.
  - intros Hlt Hmask.
    destruct (Z.ltb_spec n 0) as [Hneg|Hpos].
    { now rewrite !Z.testbit_neg_r by exact Hneg. }
    rewrite Z.lnot_spec by exact Hpos.
    assert (Hf : Z.testbit flags n = false).
    { assert (Hz : Z.testbit (Z.land flags (Z.lnot mask)) n = false)
        by (rewrite Hin; apply Z.bits_0).
      rewrite Z.land_spec, Z.lnot_spec, Hmask in Hz by exact Hpos.
      now rewrite andb_true_r in Hz. }
    rewrite Hf. simpl. rewrite andb_true_r.
    destruct (Z.ltb_spec n 8) as [_|Hge]; [apply andb_true_r | lia].
  - intros H. apply andb_prop in H. destruct H as [H _].
    apply andb_prop in H. tauto.
Qed.

Lemma only_clears_cleared (mask flags : Z) (s s' : Logger) :
  Z.land flags (Z.lnot mask) = 0 ->
  m_state s' = uint8 (Z.land (m_state s) (Z.lnot flags)) ->
  only_clears mask s s'.
Proof.
  intros Hin Hm n.
  pose proof (only_clears_clearState mask flags s Hin n) as H.
  unfold set_m_state in H. cbn [m_state] in H. now rewrite Hm.
Qed.

#[local] Instance only_clears_preorder (mask : Z) : PreOrder (only_clears mask).
Proof.
  split.
  - intros s n. split; [reflexivity | auto].
  - intros s1 s2 s3 H12 H23 n.
    destruct (H12 n) as [A1 B1]. destruct (H23 n) as [A2 B2]. split.
    + intros Hlt Hmask. now rewrite A2, A1.
    + auto.
Qed.

#[local] Instance winds_down_preorder (mask : Z) : PreOrder (winds_down mask).
Proof.
  split.
  - intros s. split; reflexivity.
  - intros s1 s2 s3 [A1 B1] [A2 B2]. split; now transitivity s2.
Qed.

Lemma only_clears_same (mask : Z) (s s' : Logger) :
  m_state s' = m_state s -> only_clears mask s s'.
Proof. intros H n. rewrite H. split; auto. Qed.

Ltac winds_down_side :=
  split;
  [ first
      [ apply only_clears_same; reflexivity
      | apply only_clears_clearState; reflexivity ]
  | first
      [ exists []; split; [simpl; now rewrite app_nil_r | constructor]
      | eexists [_]; split;
        [reflexivity | constructor; [reflexivity | constructor]] ] ].

Section Standby.

Context {cfg : Config} {hw : Hardware} {lib : Library}.
Context {cfg' : ConfigRest} {hw' : HardwareRest} {lib' : LibraryRest}.

Lemma standby_devices_winds_down :
  total (winds_down standby_flags) (fun _ => True) standby_devices.
Proof. unfold standby_devices. repeat total_step winds_down_side. Qed.

Lemma shutDownNet_run (s : Logger) :
  exists s',
    shutDownNet s = Ret tt s'
    /\ only_clears standby_flags s s'
    /\ datagrams (emitted s (Ret tt s')) = [].
Proof.
  unfold shutDownNet, netClose. run.
  eexists. split; [reflexivity|]. split.
  - apply (only_clears_cleared standby_flags STATE_NET_READY); reflexivity.
  - erewrite emitted_app by (simpl; rewrite <- ?app_assoc; reflexivity).
    reflexivity.
Qed.

Lemma standby_network_run (s : Logger) :
  exists s' tr,
    standby_network s = Ret tt s'
    /\ only_clears standby_flags s s'
    /\ trace s' = trace s ++ tr
    /\ (checkState_in s STATE_NET_READY = false -> tr = [])
    /\ (checkState_in s STATE_CONNECTED = false -> datagrams tr = []).
Proof.
  unfold standby_network. unfold bind at 1. unfold checkState at 1, gets at 1.
  destruct (checkState_in s STATE_NET_READY) eqn:Hnet; cbn [when].
  2: { exists s, []. unfold ret. rewrite app_nil_r.
       repeat split; try reflexivity; auto. }
  unfold bind at 1. unfold bind at 1. unfold checkState at 1, gets at 1.
  destruct (checkState_in s STATE_CONNECTED) eqn:Hconn; cbn [when].
  - unfold bind at 1.
    destruct (notifyServer_run EVENT_LOGOUT SERVER_KEY None s)
      as (b & s1 & tr1 & k & Hrun & Htr1 & _).
    pose proof (notifyServer_keeps_state EVENT_LOGOUT SERVER_KEY None s) as Hst.
    rewrite Hrun in *. cbn [final] in Hst. unfold ret at 1.
    destruct (shutDownNet_run s1) as (s2 & Hrun2 & Hc2 & _).
    rewrite Hrun2.
    assert (Htr2 : exists tr2, trace s2 = trace s1 ++ tr2).
    { revert Hrun2. unfold shutDownNet, netClose. run.
      intros H. inversion H; subst. simpl. eexists.
      rewrite <- ?app_assoc. reflexivity. }
    destruct Htr2 as (tr2 & Htr2).
    exists s2, (tr1 ++ tr2). split; [reflexivity|]. split.
    { transitivity s1; [now apply only_clears_same | exact Hc2]. }
    split; [now rewrite Htr2, Htr1, app_assoc|].
    split; discriminate.
  - unfold ret at 1.
    destruct (shutDownNet_run s) as (s2 & Hrun2 & Hc2 & Hd2).
    rewrite Hrun2.
    exists s2, (emitted s (Ret tt s2)). split; [reflexivity|].
    split; [exact Hc2|]. split.
    + revert Hrun2. unfold shutDownNet, netClose. run.
      intros H. inversion H; subst.
      erewrite emitted_app by (simpl; rewrite <- ?app_assoc; reflexivity).
      simpl. now rewrite <- ?app_assoc.
    + split; [discriminate | intros _; exact Hd2].
Qed.

(** X26.  Going to standby always gets to the wait for motion, and then
    the vehicle bus, the positioning receiver, the network and the
    session are all marked down, whatever they were before.  No flag is
    set on the way, and the motion-sensor flag and the all-good flag are
    as before. *)
Theorem standby_marks_links_down (s : Logger) :
  exists s',
    standby_teardown s = Ret tt s'
    /\ checkState_in s' STATE_OBD_READY = false
    /\ checkState_in s' STATE_GPS_READY = false
    /\ checkState_in s' STATE_NET_READY = false
    /\ checkState_in s' STATE_CONNECTED = false
    /\ checkState_in s' STATE_MEMS_READY = checkState_in s STATE_MEMS_READY
    /\ checkState_in s' STATE_ALL_GOOD = checkState_in s STATE_ALL_GOOD
    /\ (forall n, Z.testbit (m_state s') n = true ->
                  Z.testbit (m_state s) n = true).
Proof.
  unfold standby_teardown. unfold bind at 1.
  destruct (standby_network_run s) as (s1 & tr1 & Hrun1 & Hc1 & _).
  rewrite Hrun1. unfold bind at 1.
  destruct (standby_devices_winds_down s1) as ([] & s2 & Hrun2 & _ & Hc2 & _).
  rewrite Hrun2. run.
  eexists. split; [reflexivity|].
  match goal with |- context [set_m_state ?m s2] =>
    assert (Hc3 : only_clears standby_flags s (set_m_state m s2))
      by (transitivity s1; [exact Hc1|];
          transitivity s2; [exact Hc2|];
          apply only_clears_clearState; reflexivity)
  end.
  split; [apply cleared_flag_fails; vm_compute; discriminate|].
  split; [apply cleared_flag_fails; vm_compute; discriminate|].
  split; [apply cleared_flag_fails; vm_compute; discriminate|].
  split; [apply cleared_flag_fails; vm_compute; discriminate|].
  split; [|split].
  - change STATE_MEMS_READY with (2 ^ 3). rewrite !checkState_bit by lia.
    destruct s, s2. apply (Hc3 3); [lia | reflexivity].
  - change STATE_ALL_GOOD with (2 ^ 6). rewrite !checkState_bit by lia.
    destruct s, s2. apply (Hc3 6); [lia | reflexivity].
  - intros n. destruct s, s2. apply (Hc3 n).
Qed.

(** X27.  Standby logs out only from an established session: without the
    session flag no datagram is sent, and without the network flag the
    network is not touched at all. *)
Theorem standby_logout_needs_session (s : Logger) :
  (checkState_in s STATE_CONNECTED = false ->
   datagrams (emitted s (standby_teardown s)) = [])
  /\ (checkState_in s STATE_NET_READY = false ->
      filter is_net (emitted s (standby_teardown s)) = []).
Proof.
  assert (Hrun : exists s' tr1 tr2,
             standby_teardown s = Ret tt s'
             /\ trace s' = trace s ++ tr1 ++ tr2
             /\ Forall (fun e => is_net e = false) tr2
             /\ (checkState_in s STATE_NET_READY = false -> tr1 = [])
             /\ (checkState_in s STATE_CONNECTED = false -> datagrams tr1 = [])).
  { unfold standby_teardown. unfold bind at 1.
    destruct (standby_network_run s) as (s1 & tr1 & Hrun1 & _ & Htr1 & Hn & Hc).
    rewrite Hrun1. unfold bind at 1.
    destruct (standby_devices_winds_down s1)
      as ([] & s2 & Hrun2 & _ & _ & (tr2 & Htr2 & Hq2)).
    rewrite Hrun2. run.
    eexists. exists tr1.
    exists (tr2 ++ [EvSerial (lit "Standby" ++ CRLF); EvBle (lit "Standby")]).
    split; [reflexivity|]. split.
    { cbn [trace set_trace]. rewrite Htr2, Htr1, <- !app_assoc. reflexivity. }
    split; [|split; assumption].
    apply Forall_app. split; [exact Hq2|]. repeat constructor. }
  destruct Hrun as (s' & tr1 & tr2 & Hrun & Htr & Hq & Hn & Hc).
  rewrite Hrun. rewrite (emitted_app s s' tt (tr1 ++ tr2) Htr).
  assert (Hquiet : filter is_net tr2 = []).
  { clear -Hq. induction Hq as [|e tr He _ IH]; [reflexivity|].
    simpl. now rewrite He. }
  split.
  - intros Hconn. rewrite datagrams_app, (Hc Hconn). simpl.
    clear -Hq. induction Hq as [|e tr He _ IH]; [reflexivity|].
    destruct e; simpl in *; try discriminate; exact IH.
  - intros Hnet. rewrite (Hn Hnet). exact Hquiet.
Qed.

End Standby.

(** ** Positions *)

Section Positions.

Context {cfg : Config} {hw : Hardware} {lib : Library}.
Context {cfg' : ConfigRest} {hw' : HardwareRest} {lib' : LibraryRest}.

Lemma processGPS_skips (st : GpsStatics) (s : Logger) (gd : GPS_DATA) :
  hw_gpsGetData (tick s) = Some gd ->
  gd_date gd = 0 \/ lastUTC st = uint16 (gd_time gd) ->
  processGPS st s = Ret st (gps_polled s).
Proof.
  intros Hfix Hskip. unfold processGPS. unfold bind at 1. unfold call at 1.
  rewrite Hfix.
  destruct Hskip as [Hdate|Htime].
  - rewrite Hdate. reflexivity.
  - rewrite Htime, Z.eqb_refl, andb_false_r. reflexivity.
Qed.

(** X28.  A fix with a date and a time that differs from the last one
    logged is accepted: its time and satellite count are reported, and
    the statics then hold the low 16 bits of its time and the day part of
    its date.  A fix read after it whose time agrees with it in the low
    16 bits is dropped: the read is the only effect, nothing is logged or
    printed. *)
Theorem gps_fix_logged_once (st : GpsStatics) (s : Logger) (gd : GPS_DATA) :
  hw_gpsGetData (tick s) = Some gd ->
  gd_date gd <> 0 ->
  lastUTC st <> uint16 (gd_time gd) ->
  exists st' s',
    processGPS st s = Ret st' s'
    /\ lastUTC st' = uint16 (gd_time gd)
    /\ lastGPSDay st' = uint8 (gd_date gd / 10000)
    /\ In (EvBle (lit "UTC:" ++ utoa_pad 8 (gd_time gd)
                  ++ lit " SAT:" ++ utoa (gd_sat gd)))
          (emitted s (Ret st' s'))
    /\ forall s2 gd2,
         hw_gpsGetData (tick s2) = Some gd2 ->
         uint16 (gd_time gd2) = uint16 (gd_time gd) ->
         processGPS st' s2 = Ret st' (gps_polled s2).
Proof.
  intros Hfix Hdate Htime.
  apply Z.eqb_neq in Hdate. apply Z.eqb_neq in Htime.
  unfold processGPS at 1. unfold bind at 1. unfold call at 1.
  rewrite Hfix, Hdate, Htime. cbn [negb andb].
  unfold cache_log, cache_logCoordinate. run.
  destruct (lastGPSDay st =? uint8 (gd_date gd / 10000)) eqn:Hday; simpl;
    (eexists; eexists; split; [reflexivity|]; split; [reflexivity|]; split;
     [first [reflexivity | now apply Z.eqb_eq in Hday]|]; split;
     [erewrite emitted_app by (simpl; rewrite <- ?app_assoc; reflexivity);
      simpl; auto
     |intros s2 gd2 Hfix2 Hsame; apply (processGPS_skips _ s2 gd2 Hfix2);
      right; simpl; now rewrite Hsame]).
Qed.

(** X29.  The cache changes in [processGPS] only for a fix that has a
    date and a time other than the last one logged: no fix, a fix without
    a date and a repeated time all leave the cache as it is. *)
Theorem gps_logs_fresh_dated_fix_only (st : GpsStatics) (s : Logger) :
  cache (final (processGPS st s)) <> cache s ->
  exists gd,
    hw_gpsGetData (tick s) = Some gd
    /\ gd_date gd <> 0
    /\ lastUTC st <> uint16 (gd_time gd).
Proof.
  intros Hchanged.
  destruct (hw_gpsGetData (tick s)) as [gd|] eqn:Hfix.
  - exists gd. split; [reflexivity|].
    destruct (Z.eq_dec (gd_date gd) 0) as [Hd|Hd].
    { exfalso. apply Hchanged.
      rewrite (processGPS_skips st s gd Hfix (or_introl Hd)).
      now destruct s. }
    destruct (Z.eq_dec (lastUTC st) (uint16 (gd_time gd))) as [Ht|Ht].
    { exfalso. apply Hchanged.
      rewrite (processGPS_skips st s gd Hfix (or_intror Ht)).
      now destruct s. }
    split; assumption.
  - exfalso. apply Hchanged.
    unfold processGPS. unfold bind at 1. unfold call at 1. rewrite Hfix.
    now destruct s.
Qed.

End Positions.

(** ** The server name of a login reply *)

Lemma strstr_starts (buf pat : list ascii) (p : nat) :
  strstr buf pat = Some p -> starts_with pat (advance p buf) = true.
Proof.
  unfold advance. revert p; induction buf as [|x rest IH]; intros p.
  - cbn [strstr]. destruct (starts_with pat []) eqn:E; [|discriminate].
    intros H. inversion H; subst. exact E.
  - cbn [strstr]. destruct (starts_with pat (x :: rest)) eqn:E.
    + intros H. inversion H; subst. exact E.
    + destruct (Ascii.eqb x NUL); [discriminate|].
      destruct (strstr rest pat) as [p'|]; [|discriminate].
      intros H. inversion H; subst. cbn [skipn]. now apply IH.
Qed.

Lemma strchr_None (buf : list ascii) (c : ascii) :
  strchr buf c = None -> ~ In c (cstr buf).
Proof.
  induction buf as [|x rest IH]; cbn [strchr cstr]; [auto|].
  destruct (Ascii.eqb x NUL); [auto|].
  destruct (Ascii.eqb_spec x c) as [->|Hne]; [discriminate|].
  destruct (strchr rest c); [discriminate|].
  intros _ [H|H]; [now apply Hne | now apply IH].
Qed.

Lemma strchr_Some (buf : list ascii) (c : ascii) (q : nat) :
  strchr buf c = Some q ->
  (q < List.length buf)%nat /\ ~ In c (cstr (poke buf q NUL)).
Proof.
  unfold poke. revert q; induction buf as [|x rest IH]; intros q;
    cbn [strchr]; [discriminate|].
  destruct (Ascii.eqb x NUL) eqn:Hnul; [discriminate|].
  destruct (Ascii.eqb_spec x c) as [->|Hne].
  - intros H. inversion H; subst. cbn. split; [lia | auto].
  - destruct (strchr rest c) as [q'|]; [|discriminate].
    intros H. inversion H; subst.
    destruct (IH q' eq_refl) as [Hlt Hin].
    cbn [List.length firstn skipn app cstr]. rewrite Hnul.
    split; [lia|].
    intros [H1|H1]; [now apply Hne | now apply Hin].
Qed.

Lemma skipn_poke (buf : list ascii) (p q : nat) (c : ascii) :
  (p + q < List.length buf)%nat ->
  skipn p (poke buf (p + q) c) = poke (skipn p buf) q c.
Proof.
  intros Hlen. unfold poke.
  rewrite skipn_app, length_firstn, Nat.min_l by lia.
  replace (p - (p + q))%nat with 0%nat by lia.
  change (skipn 0 (c :: skipn (S (p + q)) buf))
    with (c :: skipn (S (p + q)) buf).
  rewrite firstn_skipn_comm, skipn_skipn.
  now replace (S q + p)%nat with (S (p + q)) by lia.
Qed.

Lemma starts_with_app (pat buf : list ascii) :
  starts_with pat buf = true -> exists rest, buf = pat ++ rest.
Proof.
  revert buf; induction pat as [|c pat IH]; intros buf H.
  - exists buf. reflexivity.
  - destruct buf as [|x buf]; cbn [starts_with] in H; [discriminate|].
    destruct (Ascii.eqb x NUL); [discriminate|].
    apply andb_prop in H. destruct H as [E H].
    apply Ascii.eqb_eq in E. subst x.
    destruct (IH buf H) as [rest ->]. exists rest. reflexivity.
Qed.

Lemma server_name_cut (data : list ascii) (p : nat) :
  strstr data (lit "SN=") = Some p ->
  ~ In ","%char
      (cstr (advance (p + 3)
               match strchr (advance p data) "," with
               | Some q => poke data (p + q) NUL
               | None => data
               end)).
Proof.
  intros Hsn. apply strstr_starts in Hsn. unfold advance in *.
  apply starts_with_app in Hsn. destruct Hsn as [rest Hb].
  change (lit "SN=" ++ rest) with ("S" :: "N" :: "=" :: rest)%char in Hb.
  replace (p + 3)%nat with (3 + p)%nat by lia.
  assert (Hlen : (List.length (skipn p data) = List.length data - p)%nat)
    by apply length_skipn.
  destruct (strchr (skipn p data) ",") as [q|] eqn:Hcomma.
  - destruct (strchr_Some _ _ _ Hcomma) as [Hlt Hin].
    rewrite <- skipn_skipn, skipn_poke by lia.
    rewrite Hb in *. cbn in Hcomma.
    destruct (strchr rest ",") as [q'|]; [|discriminate].
    cbn in Hcomma. inversion Hcomma; subst q.
    unfold poke in *.
    cbn [firstn skipn app] in *. cbn [cstr] in Hin.
    change (Ascii.eqb "S" NUL) with false in Hin.
    change (Ascii.eqb "N" NUL) with false in Hin.
    change (Ascii.eqb "=" NUL) with false in Hin.
    cbv iota in Hin.
    intros H. apply Hin. right. right. right. exact H.
  - apply strchr_None in Hcomma.
    rewrite <- skipn_skipn. rewrite Hb in *.
    cbn [cstr] in Hcomma.
    change (Ascii.eqb "S" NUL) with false in Hcomma.
    change (Ascii.eqb "N" NUL) with false in Hcomma.
    change (Ascii.eqb "=" NUL) with false in Hcomma.
    cbv iota in Hcomma. cbn [skipn].
    intros H. apply Hcomma. right. right. right. exact H.
Qed.

Section ServerName.

Context {cfg : Config} {hw : Hardware} {lib : Library}.

(** X30.  The server name taken from a login reply ends before the first
    comma after its tag: the stored name holds no comma.  A reply without
    the tag leaves the stored name as it was. *)
Theorem server_name_has_no_comma (data : list ascii) (s : Logger) :
  match strstr data (lit "SN=") with
  | Some _ => ~ In ","%char (m_serverName (final (login_reply data s)))
  | None => m_serverName (final (login_reply data s)) = m_serverName s
  end.
Proof.
  pose proof (server_name_cut data) as Hcut.
  unfold login_reply. unfold bind at 1.
  destruct (strstr data (lit "TM=")) as [tm|];
    (destruct (strstr data (lit "SN=")) as [p|];
     [specialize (Hcut p eq_refl) | clear Hcut];
     run; [exact Hcut | now destruct s]).
Qed.

End ServerName.

(** ** Instances of the further properties on the concrete platforms *)

Lemma setState_then_checkState_witness :
  exists s',
    setState STATE_NET_READY power_on = Ret tt s'
    /\ checkState_in s' STATE_NET_READY = true.
Proof.
  apply (setState_then_checkState STATE_NET_READY power_on).
  unfold STATE_NET_READY. lia.
Defined.

Lemma clearState_then_checkState_witness :
  exists s',
    clearState STATE_NET_READY power_on = Ret tt s'
    /\ checkState_in s' (Z.lor STATE_NET_READY STATE_CONNECTED) = false.
Proof.
  apply (clearState_then_checkState STATE_NET_READY
           (Z.lor STATE_NET_READY STATE_CONNECTED) power_on).
  vm_compute. discriminate.
Defined.

Lemma disjoint_flags_independent_witness :
  checkState_in (final (setState STATE_NET_READY power_on)) STATE_OBD_READY
  = checkState_in power_on STATE_OBD_READY
  /\ checkState_in (final (clearState STATE_NET_READY power_on)) STATE_OBD_READY
     = checkState_in power_on STATE_OBD_READY.
Proof.
  apply (disjoint_flags_independent STATE_NET_READY STATE_OBD_READY power_on).
  - unfold STATE_OBD_READY. lia.
  - reflexivity.
Defined.

Lemma processCommand_ignores_malformed_witness :
  @processCommand Demo.config Demo.silent Demo.library (lit "1#EV=5,CMD=LED=2")
    Demo.booted
  = Ret (Some false) Demo.booted.
Proof.
  apply (@processCommand_ignores_malformed Demo.config Demo.silent Demo.library
           (lit "1#EV=5,CMD=LED=2") Demo.booted).
  left. reflexivity.
Defined.

Lemma executeCommand_result_one_line_witness :
  ~ In CR (lit "OK") /\ ~ In LF (lit "OK").
Proof.
  apply (@executeCommand_result_one_line Demo.config Demo.silent (lit "LED=2")
           Demo.booted
           (final (@executeCommand Demo.config Demo.silent (lit "LED=2")
                     Demo.booted))
           (lit "OK")).
  vm_compute. reflexivity.
Defined.

Lemma reboot_closes_storage_first_witness :
  @executeCommand Demo.config Demo.silent (lit "REBOOT") Demo.booted
  = Abort Restart (@rebooted Demo.config Demo.booted).
Proof.
  apply (@reboot_closes_storage_first Demo.config Demo.silent (lit "REBOOT")
           Demo.booted).
  reflexivity.
Defined.

Lemma remote_reboot_sends_no_ack_witness :
  exists s',
    @processCommand Demo.config Demo.silent Demo.library
      DemoRest.reboot_command_buffer Demo.booted
    = Abort Restart s'
    /\ datagrams (emitted Demo.booted (@Abort (option bool) Restart s')) = [].
Proof.
  apply (@remote_reboot_sends_no_ack Demo.config Demo.silent Demo.library
           DemoRest.reboot_command_buffer Demo.booted 7%nat 12%nat).
  - reflexivity.
  - reflexivity.
  - vm_compute. reflexivity.
  - reflexivity.
Defined.

Lemma ack_awaits_no_reply_witness :
  exists b s',
    @notifyServer Demo.config Demo.silent Demo.library 6 None
      (Some (lit "TK=5,MSG=OK")) Demo.booted
    = Ret b s'
    /\ ~ In EvNetReceive (emitted Demo.booted (Ret b s'))
    /\ connErrors s' = connErrors Demo.booted
    /\ feedid s' = feedid Demo.booted
    /\ m_serverName s' = m_serverName Demo.booted.
Proof.
  apply (@ack_awaits_no_reply Demo.config Demo.silent Demo.library 6 None
           (Some (lit "TK=5,MSG=OK")) Demo.booted).
  reflexivity.
Defined.

Lemma login_is_bounded_witness :
  exists b s',
    @login Demo.config Demo.silent Demo.library Demo.booted = Ret b s'
    /\ (occurrences is_open (emitted Demo.booted (Ret b s')) <= 3)%nat
    /\ (occurrences is_send (emitted Demo.booted (Ret b s')) <= 9)%nat.
Proof.
  apply (@login_is_bounded Demo.config Demo.silent Demo.library Demo.booted).
  reflexivity.
Defined.

Lemma login_success_needs_echo_witness :
  exists k bytes data',
    @hw_netReceive DemoRest.answering k = Some bytes
    /\ @verifyChecksum Demo.library (bytes ++ [NUL]) = (true, data')
    /\ contains data' (lit "EV=" ++ utoa (uint8 (@EVENT_LOGIN Demo.config)))
       = true.
Proof.
  apply (@login_success_needs_echo Demo.config DemoRest.answering Demo.library
           Demo.booted
           (final (@login Demo.config DemoRest.answering Demo.library
                     Demo.booted))).
  - reflexivity.
  - vm_compute. discriminate.
  - vm_compute. reflexivity.
Defined.

Lemma obd_failure_is_fatal_witness :
  exists s',
    @setup Demo.config DemoRest.deaf_bus Demo.library power_on = Ret false s'
    /\ Forall before_network (emitted power_on (Ret false s'))
    /\ checkState_in s' STATE_OBD_READY = false.
Proof.
  apply (@obd_failure_is_fatal Demo.config DemoRest.deaf_bus Demo.library
           power_on).
  - reflexivity.
  - reflexivity.
  - intros k. reflexivity.
Defined.

Lemma sync_timeout_stalls_witness :
  exists s',
    @transmit_rounds Demo.config Demo.silent Demo.library [60000; 61000]
      Demo.loaded
    = Ret tt s'
    /\ emitted Demo.loaded (Ret tt s')
       = repeat (EvSerial (lit "NO SYNC" ++ CRLF)) 2
    /\ lastSyncTime s' = lastSyncTime Demo.loaded
    /\ lastSentTime s' = lastSentTime Demo.loaded
    /\ cache s' = cache Demo.loaded
    /\ txCount s' = txCount Demo.loaded
    /\ tick s' = tick Demo.loaded.
Proof.
  apply (@sync_timeout_stalls Demo.config Demo.silent Demo.library
           [60000; 61000] Demo.loaded).
  repeat constructor.
Defined.

Lemma successful_send_rotates_cache_witness :
  exists s',
    @loop_transmit Demo.config Demo.silent Demo.library 5000 Demo.loaded
    = Ret tt s'
    /\ connErrors s' = 0
    /\ txCount s' = txCount Demo.loaded + 1
    /\ cache s'
       = @Cache.header Demo.library (feedid Demo.loaded)
           (Cache.tailer (cache Demo.loaded))
    /\ Cache.samples (cache s') = 0
    /\ @send_due Demo.config 5000 s' = false
    /\ lastSentTime s' = 5000
    /\ lastSyncTime s' = lastSyncTime Demo.loaded
    /\ filter is_net (emitted Demo.loaded (Ret tt s'))
       = [EvNetSend (Cache.buffer (Cache.tailer (cache Demo.loaded)))].
Proof.
  apply (@successful_send_rotates_cache Demo.config Demo.silent Demo.library
           5000 Demo.loaded).
  - reflexivity.
  - reflexivity.
  - reflexivity.
  - reflexivity.
Defined.

Lemma regular_polling_round_witness :
  exists s',
    @processOBD Demo.config Demo.cruising Demo.library DemoRest.rolling
    = Ret tt s'
    /\ pid_reads (emitted DemoRest.rolling (Ret tt s'))
       = @PID_SPEED Demo.config
         :: map uint8 [@PID_RPM Demo.config; @PID_ENGINE_LOAD Demo.config;
                       @PID_THROTTLE Demo.config]
    /\ count s' = uint8 (count DemoRest.rolling + 1).
Proof.
  apply (@regular_polling_round Demo.config Demo.cruising Demo.library
           DemoRest.rolling 60).
  - reflexivity.
  - vm_compute. discriminate.
  - vm_compute. discriminate.
Defined.

Lemma readSpeed_trapezoid_witness :
  exists s',
    @readSpeed Demo.config Demo.cruising power_on = Ret 60 s'
    /\ distance s'
       = distance power_on
         + (60 + lastSpeed power_on)
           * (uint32 (@hw_millis Demo.cruising (S (tick power_on)))
              - lastSpeedTime power_on) / 7200
    /\ lastSpeed s' = 60
    /\ lastSpeedTime s' = uint32 (@hw_millis Demo.cruising (S (tick power_on))).
Proof.
  apply (@readSpeed_trapezoid Demo.config Demo.cruising power_on 60).
  - reflexivity.
  - lia.
  - vm_compute. split; [discriminate | reflexivity].
  - vm_compute. split; discriminate.
  - vm_compute. reflexivity.
  - vm_compute. discriminate.
  - vm_compute. reflexivity.
Defined.

Lemma second_line_end_ignored_witness :
  @loop_serial Demo.config Demo.silent (lit "LED=2" ++ [CR; LF]) power_on
  = @loop_serial Demo.config Demo.silent (lit "LED=2" ++ [CR]) power_on.
Proof.
  apply (@second_line_end_ignored Demo.config Demo.silent (lit "LED=2") CR LF
           power_on).
  - reflexivity.
  - reflexivity.
Defined.

Lemma gps_fix_logged_once_witness :
  exists st' s',
    @processGPS Demo.library DemoRest.config DemoRest.tracking DemoRest.library
      (mkGpsStatics 0 0) Demo.booted
    = Ret st' s'
    /\ lastUTC st' = uint16 (gd_time DemoRest.gps_fix)
    /\ lastGPSDay st' = uint8 (gd_date DemoRest.gps_fix / 10000)
    /\ In (EvBle (lit "UTC:" ++ utoa_pad 8 (gd_time DemoRest.gps_fix)
                  ++ lit " SAT:" ++ utoa (gd_sat DemoRest.gps_fix)))
          (emitted Demo.booted (Ret st' s'))
    /\ forall s2 gd2,
         @hw_gpsGetData DemoRest.tracking (tick s2) = Some gd2 ->
         uint16 (gd_time gd2) = uint16 (gd_time DemoRest.gps_fix) ->
         @processGPS Demo.library DemoRest.config DemoRest.tracking
           DemoRest.library st' s2
         = Ret st' (gps_polled s2).
Proof.
  apply (@gps_fix_logged_once Demo.library DemoRest.config DemoRest.tracking
           DemoRest.library (mkGpsStatics 0 0) Demo.booted DemoRest.gps_fix).
  - reflexivity.
  - vm_compute. discriminate.
  - vm_compute. discriminate.
Defined.

Lemma gps_logs_fresh_dated_fix_only_witness :
  exists gd,
    @hw_gpsGetData DemoRest.tracking (tick Demo.booted) = Some gd
    /\ gd_date gd <> 0
    /\ lastUTC (mkGpsStatics 0 0) <> uint16 (gd_time gd).
Proof.
  apply (@gps_logs_fresh_dated_fix_only Demo.library DemoRest.config
           DemoRest.tracking DemoRest.library (mkGpsStatics 0 0) Demo.booted).
  vm_compute. discriminate.
Defined.
